(** * pdfExtractor: a shallow embedding of [app.py]

    The Streamlit script reads equity-research PDFs with pdfplumber,
    flattens their pages and tables into one text, wraps that text in a
    fixed prompt, sends the prompt to a remote model and decodes the answer
    as JSON.  This file embeds the four functions of the script
    ([extract_text_and_tables], [create_prompt], [query_gemini],
    [parse_json_response]), its upload loop (lines 130-143) and the script
    body (lines 9-16 and 129-187), and states the properties of the
    specification about them, followed by further properties of the code.

    Python values are modelled as follows.
    - A [str] is a sequence of Unicode code points: [list N].
    - Calls that may raise return an [outcome]; calls with effects (the
      Streamlit widgets, the file system, the network) run in the monad
      [M] over a [World].
    - The libraries the script consumes (pdfplumber, requests, json, re,
      tempfile) are modelled by what they give back to the script: a PDF
      payload by the pages pdfplumber finds in it or the exception it
      raises, the remote end by a function from requests to responses,
      [json.loads] and [json.dumps] by a decoder and an encoder for the
      JSON texts of Python.
    - What the person at the browser has done (the key typed, the files
      uploaded, the text in the prompt area, the button) is an [Operator];
      a run of the script body is a computation over a [Session], the
      world together with the calls to Streamlit in their order.
    - What pandas and Streamlit make of a table in the preview at the end
      of the script is a [Pandas]: the script's own control flow around
      them is embedded, their verdicts are not computed.
    - Of the limits of the interpreter, the two that [json.loads] meets
      are modelled with their default values: the recursion limit, past
      which the decoder raises [RecursionError], and the number of digits
      of an [int], past which it raises [ValueError].  Memory is not
      modelled. *)

From Stdlib Require Import NArith ZArith Ascii String DecimalString.
From stdpp Require Import base option list gmap.

Local Open Scope N_scope.

(** ** Python strings *)

Module Py.

(** A Python [str]: the list of its code points. *)
Abbreviation str := (list N).

(** Bytes of a literal of this file. *)
Definition bytes_of (s : string) : list N :=
  List.map N_of_ascii (list_ascii_of_string s).

(** The source file is UTF-8: a literal's code points are recovered from
    its bytes.  Ill-formed sequences do not occur in the literals below;
    a stray byte is kept as it is. *)
Fixpoint utf8_decode (bs : list N) : str :=
  match bs with
  | [] => []
  | b :: r =>
      if b <? 128 then b :: utf8_decode r
      else if b <? 224 then
        match r with
        | b1 :: r1 => ((b mod 32) * 64 + b1 mod 64) :: utf8_decode r1
        | [] => [b]
        end
      else if b <? 240 then
        match r with
        | b1 :: b2 :: r2 =>
            ((b mod 16) * 4096 + (b1 mod 64) * 64 + b2 mod 64) :: utf8_decode r2
        | _ => b :: r
        end
      else
        match r with
        | b1 :: b2 :: b3 :: r3 =>
            ((b mod 8) * 262144 + (b1 mod 64) * 4096 + (b2 mod 64) * 64 + b3 mod 64)
              :: utf8_decode r3
        | _ => b :: r
        end
  end.

(** [lit "..."] is the Python literal with that text. *)
Definition lit (s : string) : str := utf8_decode (bytes_of s).
Arguments lit s%_string.

(** The double quote, U+0022, and the line feed, U+000A. *)
Definition dquote : N := 34.
Definition nl : str := [10].

(** [qlit "..."] is a Python literal in which every [~] of the text written
    here stands for a double quote character of the source (no literal of
    [app.py] contains a tilde). *)
Definition qlit (s : string) : str :=
  List.map (fun c => if c =? 126 then dquote else c) (lit s).
Arguments qlit s%_string.

(** [str(n)] and [f"{n}"] for a non-negative [int]. *)
Definition str_of_nat (n : nat) : str :=
  lit (NilZero.string_of_uint (Nat.to_uint n)).

(** [sep.join(parts)] *)
Fixpoint join (sep : str) (parts : list str) : str :=
  match parts with
  | [] => []
  | [p] => p
  | p :: ps => p ++ sep ++ join sep ps
  end.

(** [s.startswith(p)] *)
Fixpoint startswith (p s : str) : bool :=
  match p, s with
  | [], _ => true
  | _ :: _, [] => false
  | a :: p', b :: s' => (a =? b) && startswith p' s'
  end.

(** [t in s] *)
Fixpoint contains (t s : str) : bool :=
  startswith t s ||
  match s with
  | [] => false
  | _ :: s' => contains t s'
  end.

(** [t] occurs in [s]: the specification of [contains]. *)
Definition substring (t s : str) : Prop :=
  ∃ before after : str, s = before ++ t ++ after.

(** [c.isspace()]: the code points Python treats as whitespace. *)
Definition isspace (c : N) : bool :=
  ((9 <=? c) && (c <=? 13)) || ((28 <=? c) && (c <=? 32))
  || (c =? 133) || (c =? 160) || (c =? 5760)
  || ((8192 <=? c) && (c <=? 8202))
  || (c =? 8232) || (c =? 8233) || (c =? 8239) || (c =? 8287) || (c =? 12288).

Fixpoint lstrip (s : str) : str :=
  match s with
  | c :: s' => if isspace c then lstrip s' else s
  | [] => []
  end.

Definition rstrip (s : str) : str := rev (lstrip (rev s)).

(** [s.strip()] *)
Definition strip (s : str) : str := rstrip (lstrip s).

(** Truthiness of an optional string: [None] and [""] are false. *)
Definition truthy (x : option str) : bool :=
  match x with
  | Some (_ :: _) => true
  | _ => false
  end.

(** [x if x else d] *)
Definition if_else (x : option str) (d : str) : str :=
  match x with
  | Some s => if truthy x then s else d
  | None => d
  end.

(** [enumerate(l)] *)
Definition enumerate {A} (l : list A) : list (nat * A) :=
  imap (fun i x => (i, x)) l.

End Py.
Import Py.

(** ** Python values, exceptions and effects *)

(** The values [json.loads] builds: [None], [bool], [int], [float], [str],
    [list] and [dict].  A [float] is kept as the literal it was read from;
    a [dict] keeps its keys in insertion order. *)
#[warnings="-register-all"] Inductive value :=
| PyNone
| PyBool (b : bool)
| PyInt (z : Z)
| PyFloat (literal : str)
| PyStr (s : str)
| PyList (l : list value)
| PyDict (d : list (str * value)).

(** The exceptions that the modelled calls raise.  All of them derive from
    [Exception]. *)
Inductive exception :=
| JSONDecodeError
| KeyError (key : value)
| IndexError
| TypeError
| FileNotFoundError
| PdfError (detail : str)
| ConnectionError
| RecursionError
| ValueError.

(** Result of a call: it returns or it raises. *)
Inductive outcome (A : Type) :=
| Return (a : A)
| Raise (e : exception).
Arguments Return {A} a.
Arguments Raise {A} e.

(** *** pdfplumber *)

Definition Cell := option str.
Definition Row := list Cell.
Definition Table := list Row.

(** A page of an opened PDF, given by what its two methods do. *)
Record Page := mkPage {
  extract_text : outcome (option str);
  extract_tables : outcome (list Table)
}.

(** A PDF payload, given by what [pdfplumber.open] does on it. *)
Inductive Payload :=
| Unreadable (e : exception)
| Pdf (pages : list Page).

(** *** requests *)

Record Request := mkRequest {
  url : str;
  headers : list (str * str);
  json : value
}.

Record Response := mkResponse {
  status_code : nat;
  text : str
}.

(** [response.ok]: the status is no client error (400-499) and no server
    error (500-599). *)
Definition ok (r : Response) : bool :=
  negb ((400 <=? status_code r)%nat && (status_code r <? 600)%nat).

(** *** Streamlit *)

Inductive st_call :=
| st_error (body : str)
| st_text (body : str).

(** *** The world the script runs in *)

(** Files are named by numbers.  [screen] holds the Streamlit calls made so
    far, [posted] the requests sent so far, both oldest first. *)
Record World := mkWorld {
  files : gmap nat Payload;
  handles : gset nat;
  screen : list st_call;
  posted : list Request;
  remote : Request -> outcome Response
}.

Definition with_files (f : gmap nat Payload) (w : World) : World :=
  mkWorld f (handles w) (screen w) (posted w) (remote w).
Definition with_handles (h : gset nat) (w : World) : World :=
  mkWorld (files w) h (screen w) (posted w) (remote w).
Definition with_screen (s : list st_call) (w : World) : World :=
  mkWorld (files w) (handles w) s (posted w) (remote w).
Definition with_posted (p : list Request) (w : World) : World :=
  mkWorld (files w) (handles w) (screen w) p (remote w).

(** Computations of the script: they read and change the world and return
    or raise.  What was done before an exception stays done. *)
Definition M (A : Type) : Type := World -> outcome A * World.

#[global] Instance M_ret : MRet M := fun A a w => (Return a, w).
#[global] Instance M_bind : MBind M := fun A B k m w =>
  match m w with
  | (Return a, w') => k a w'
  | (Raise e, w') => (Raise e, w')
  end.

Definition raise {A} (e : exception) : M A := fun w => (Raise e, w).
Definition lift {A} (o : outcome A) : M A := fun w => (o, w).

(** [try: body except Exception as e: handler(e)] *)
Definition try_except {A} (body : M A) (handler : exception -> M A) : M A :=
  fun w =>
    match body w with
    | (Return a, w') => (Return a, w')
    | (Raise e, w') => handler e w'
    end.

(** [for x in l: s = body(x, s)] *)
Fixpoint for_in {A S} (l : list A) (body : A -> S -> M S) (s : S) : M S :=
  match l with
  | [] => mret s
  | x :: l' => s' ← body x s ; for_in l' body s'
  end.

Definition st_error_ (body : str) : M unit :=
  fun w => (Return tt, with_screen (screen w ++ [st_error body]) w).
Definition st_text_ (body : str) : M unit :=
  fun w => (Return tt, with_screen (screen w ++ [st_text body]) w).

(** [pdfplumber.open(path)] *)
Definition pdfplumber_open (path : nat) : M (list Page) :=
  fun w =>
    match files w !! path with
    | None => (Raise FileNotFoundError, w)
    | Some (Unreadable e) => (Raise e, w)
    | Some (Pdf pages) => (Return pages, w)
    end.

(** ** Document Reader *)

Definition page_header (i : nat) : str :=
  nl ++ lit "--- Page " ++ str_of_nat (i + 1) ++ lit " Text ---" ++ nl.

Definition table_header (i t_index : nat) : str :=
  nl ++ lit "--- Page " ++ str_of_nat (i + 1) ++ lit " Table "
     ++ str_of_nat (t_index + 1) ++ lit " ---" ++ nl.

(** [" | ".join(cell if cell else "" for cell in row)] *)
Definition row_text (row : Row) : str :=
  join (lit " | ") (List.map (fun cell => if_else cell []) row).

(** One turn of the loop over the pages, lines 23-32: the text of page
    [i], then its tables.  [full_text] and [all_tables] are the two
    accumulators of the function. *)
Definition page_turn (ipage : nat * Page) (acc : str * list Table) :
    M (str * list Table) :=
  let '(i, page) := ipage in
  let '(full_text, all_tables) := acc in
  text ← lift (extract_text page) ;
  let full_text :=
    full_text ++ (page_header i ++ if_else text (lit "[No text found]")) in
  tables ← lift (extract_tables page) ;
  match tables with
  | _ :: _ =>
      mret (fold_left
              (fun '(full_text, all_tables) '(t_index, table) =>
                 let full_text := full_text ++ table_header i t_index in
                 let full_text :=
                   fold_left
                     (fun full_text row => full_text ++ (row_text row ++ nl))
                     table full_text in
                 (full_text, all_tables ++ [table]))
              (enumerate tables) (full_text, all_tables))
  | [] => mret (full_text, all_tables)
  end.

(** [extract_text_and_tables], lines 18-33. *)
Definition extract_text_and_tables (pdf_path : nat) : M (str * list Table) :=
  pdf ← pdfplumber_open pdf_path ;
  for_in (enumerate pdf) page_turn ([], []).

(** *** The flattened text, section by section *)

(** A page both of whose methods return. *)
Definition readable (c : option str * list Table) : Page :=
  mkPage (Return c.1) (Return c.2).

Definition table_section (i t_index : nat) (table : Table) : str :=
  table_header i t_index
    ++ concat (List.map (fun row => row_text row ++ nl) table).

Definition page_section (i : nat) (c : option str * list Table) : str :=
  (page_header i ++ if_else c.1 (lit "[No text found]"))
    ++ concat (imap (table_section i) c.2).

Definition flattened (contents : list (option str * list Table)) : str :=
  concat (imap page_section contents).

(** ** Prompt Builder *)

(** The lines of the template that stand before the PDF content, lines
    37-97 of the script ([{{] and [}}] of the f-string are single braces). *)
Definition template_lines : list str :=
  [
    qlit "You are a financial data extractor.";
    qlit "";
    qlit "From the content below, extract and return this JSON object:";
    qlit "";
    qlit "{";
    qlit "  ~reviewer~: ~~,";
    qlit "  ~reviewee~: ~~,";
    qlit "  ~analyst~: ~~,";
    qlit "  ~analystMail~: ~~,";
    qlit "  ~analystPhone~: ~~,";
    qlit "  ~rating~: ~~,";
    qlit "  ~current_price~: ~~,";
    qlit "  ~target_price~: ~~,";
    qlit "  ~previous_target~: ~~,";
    qlit "  ~comments~: ~~,";
    qlit "  ~revenueFY24E~: ~~,";
    qlit "  ~ebitdaFY24E~: ~~,";
    qlit "  ~ebitdaMarginFY24E~: ~~,";
    qlit "  ~patFY24E~: ~~,";
    qlit "  ~revenueFY25E~: ~~,";
    qlit "  ~ebitdaFY25E~: ~~,";
    qlit "  ~ebitdaMarginFY25E~: ~~,";
    qlit "  ~patFY25E~: ~~,";
    qlit "  ~revenue3QFY24~: ~~,";
    qlit "  ~ebitda3QFY24~: ~~,";
    qlit "  ~ebitda3QFY24yoy~: ~~,";
    qlit "  ~ebitda3QFY24qoq~: ~~,";
    qlit "  ~ebitdaMargin3QFY24~: ~~,";
    qlit "  ~pat3QFY24~: ~~,";
    qlit "  ~pat3QFY24yoy~: ~~,";
    qlit "  ~pat3QFY24qoq~: ~~";
    qlit "}";
    qlit "";
    qlit "Accept label variations such as:";
    qlit "- Give the name of the company that has produced or written this review under the key ~reviewer~";
    qlit "- Give the name of the company about which this report is written about under the key ~reviewee~";
    qlit "- Give the full name of the analyst that written the report under the key ~analyst~. In case of multiple analysts, give only the first person.";
    qlit "- Give the email of the analyst under the key ~analystMail~. Include all special characters.";
    qlit "- Give the phone number of the analyst under the key ~analystPhone~. Include '+' and space in place of '-'.";
    qlit "- Extract stock rating terms like: buy, sell, hold, add, reduce, overweight, neutral under ~rating~";
    qlit "- ~CMP~,~Price Now~,~Current Market Price~ → current_price";
    qlit "- ~TP~,~Target~,~Target Price~ → target_price";
    qlit "- ~Previous TP~,~PT~ → previous_target";
    qlit "- If ~Retain/maintain rating~ → comments = ~Maintain Rating~. If changed, write as ~Rating changged to (new rating)~";
    qlit "";
    qlit "Look for revenue/EBITDA/PAT values in tables with rows like:";
    qlit "- Revenue, Sales → revenueFY24E, revenueFY25E, revenue3QFY24";
    qlit "- EBITDA → ebitdaFY24E, ebitdaFY25E, ebitda3QFY24";
    qlit "- PAT, Profit after tax → patFY24E, patFY25E, pat3QFY24";
    qlit "- EBITDA margin, EBITDS margin % → ebitdaMarginFY24E, etc.";
    qlit "- YoY/QoQ fields → like ~EBITDA YoY~, ~PAT QoQ~";
    qlit "";
    qlit "Clean all values:";
    qlit "- Only keep digits, negative signs, or decimal points";
    qlit "- For example, ~-1.2 3%(7)~ → ~-1.23~";
    qlit "";
    qlit "If value is in USD, convert it to INR (1 USD = 85.71) → then to billions";
    qlit "";
    qlit "Return **only a valid JSON object**. Do not explain. Do not wrap in code blocks.";
    qlit "";
    qlit "PDF Content:"
  ].

(** Three double quotes, written with backslashes in the f-string. *)
Definition triple_quote : str := [dquote; dquote; dquote].

Definition template_before : str :=
  nl ++ concat (List.map (fun l => l ++ nl) template_lines)
     ++ triple_quote ++ nl.

Definition template_after : str := nl ++ triple_quote ++ nl.

(** [create_prompt], lines 35-101. *)
Definition create_prompt (text_content : str) : str :=
  template_before ++ text_content ++ template_after.

(** ** The [json] module *)

Module Json.

(** *** Decoding: [json.loads] *)

Definition is_ws (c : N) : bool :=
  (c =? 32) || (c =? 9) || (c =? 10) || (c =? 13).

Fixpoint skip_ws (s : str) : str :=
  match s with
  | c :: s' => if is_ws c then skip_ws s' else s
  | [] => []
  end.

Definition is_digit (c : N) : bool := (48 <=? c) && (c <=? 57).

Definition hex_value (c : N) : option N :=
  if is_digit c then Some (c - 48)
  else if (97 <=? c) && (c <=? 102) then Some (c - 87)
  else if (65 <=? c) && (c <=? 70) then Some (c - 55)
  else None.

(** The number written by four hexadecimal digits. *)
Definition hex4 (a b c d : N) : option N :=
  match hex_value a, hex_value b, hex_value c, hex_value d with
  | Some a, Some b, Some c, Some d => Some (((a * 16 + b) * 16 + c) * 16 + d)
  | _, _, _, _ => None
  end.

Definition is_high_surrogate (c : N) : bool := (55296 <=? c) && (c <=? 56319).
Definition is_low_surrogate (c : N) : bool := (56320 <=? c) && (c <=? 57343).
Definition join_surrogates (hi lo : N) : N :=
  65536 + ((hi - 55296) * 1024 + (lo - 56320)).

(** One-character escapes: the character after the backslash. *)
Definition simple_escape (c : N) : option N :=
  if c =? 34 then Some 34          (* quotation mark *)
  else if c =? 92 then Some 92     (* backslash *)
  else if c =? 47 then Some 47     (* slash *)
  else if c =? 98 then Some 8      (* b: backspace *)
  else if c =? 102 then Some 12    (* f: form feed *)
  else if c =? 110 then Some 10    (* n: line feed *)
  else if c =? 114 then Some 13    (* r: carriage return *)
  else if c =? 116 then Some 9     (* t: tab *)
  else None.

(** [c] in front of the string scanned from the rest. *)
Definition push (c : N) (scanned : option (str * str)) : option (str * str) :=
  match scanned with
  | Some (t, rest) => Some (c :: t, rest)
  | None => None
  end.

(** [scanstring], after the opening quote: the decoded string and the
    input after the closing quote.  Control characters must be escaped.
    After the escape of a high surrogate the scanner looks ahead: when the
    escape of a low surrogate follows, the two give one code point. *)
Fixpoint scanstring (s : str) : option (str * str) :=
  match s with
  | [] => None
  | c :: r =>
      if c =? 34 then Some ([], r)
      else if c =? 92 then
        match r with
        | [] => None
        | e :: r1 =>
            if e =? 117 then
              match r1 with
              | a :: b :: c' :: d :: r2 =>
                  match hex4 a b c' d with
                  | None => None
                  | Some u =>
                      match
                        (if is_high_surrogate u then
                           match r2 with
                           | x :: r3 =>
                               if x =? 92 then
                                 match r3 with
                                 | y :: r4 =>
                                     if y =? 117 then
                                       match r4 with
                                       | a' :: b' :: c'' :: d' :: r5 =>
                                           match hex4 a' b' c'' d' with
                                           | Some lo =>
                                               if is_low_surrogate lo
                                               then Some (join_surrogates u lo,
                                                          scanstring r5)
                                               else None
                                           | None => None
                                           end
                                       | _ => None
                                       end
                                     else None
                                 | [] => None
                                 end
                               else None
                           | [] => None
                           end
                         else None)
                      with
                      | Some (cp, scanned) => push cp scanned
                      | None => push u (scanstring r2)
                      end
                  end
              | _ => None
              end
            else
              match simple_escape e with
              | Some c' => push c' (scanstring r1)
              | None => None
              end
        end
      else if c <? 32 then None
      else push c (scanstring r)
  end.

(** The escape of a low surrogate at the head of [s], and what follows
    it: what the scanner looks for after a high surrogate. *)
Definition low_surrogate_escape (s : str) : option (N * str) :=
  match s with
  | x :: r3 =>
      if x =? 92 then
        match r3 with
        | y :: r4 =>
            if y =? 117 then
              match r4 with
              | a :: b :: c :: d :: r5 =>
                  match hex4 a b c d with
                  | Some lo => if is_low_surrogate lo then Some (lo, r5) else None
                  | None => None
                  end
              | _ => None
              end
            else None
        | [] => None
        end
      else None
  | [] => None
  end.

(** Digits at the head of [s], and the rest. *)
Fixpoint span_digits (s : str) : str * str :=
  match s with
  | c :: s' =>
      if is_digit c then let '(ds, r) := span_digits s' in (c :: ds, r)
      else ([], s)
  | [] => ([], [])
  end.

(** [int] of a string of decimal digits. *)
Definition int_of_digits (ds : str) : Z :=
  fold_left (fun acc d => (acc * 10 + Z.of_N (d - 48))%Z) ds 0%Z.

(** The integer part of a number: [0] alone or a digit from 1 to 9 followed
    by digits. *)
Definition match_integer (s : str) : option (str * str) :=
  match s with
  | [] => None
  | c :: r =>
      if c =? 48 then Some ([48], r)
      else if is_digit c then Some (span_digits s)
      else None
  end.

(** An optional fraction: a dot followed by at least one digit. *)
Definition match_fraction (s : str) : str * str :=
  match s with
  | [] => ([], s)
  | c :: r =>
      if c =? 46 then
        match span_digits r with
        | ([], _) => ([], s)
        | (ds, r') => (46 :: ds, r')
        end
      else ([], s)
  end.

(** An optional exponent: [e] or [E], an optional sign, at least one
    digit. *)
Definition match_exponent (s : str) : str * str :=
  match s with
  | [] => ([], s)
  | e :: r =>
      if (e =? 101) || (e =? 69) then
        let '(sign, r1) :=
          match r with
          | c :: r' => if (c =? 43) || (c =? 45) then ([c], r') else ([], r)
          | [] => ([], r)
          end in
        match span_digits r1 with
        | ([], _) => ([], s)
        | (ds, r2) => (e :: sign ++ ds, r2)
        end
      else ([], s)
  end.

(** The limits of the interpreter that the decoder meets, with their
    default values.  [recursion_limit] is [sys.getrecursionlimit()]: the
    decoder enters a nested object or array only while fewer containers
    than this are open, and raises [RecursionError] otherwise; the frames
    the interpreter has in use when the decoder is called are not
    counted.  [max_str_digits] is [sys.get_int_max_str_digits()]: [int]
    raises [ValueError] on more digits. *)
Definition recursion_limit : nat := 1000.
Definition max_str_digits : nat := 4300.

(** A number at the head of [s]: an [int] when it has neither fraction nor
    exponent, a [float] otherwise.  The digits of an [int] are converted as
    soon as they are read. *)
Definition match_number (s : str) : outcome (value * str) :=
  let '(neg, s1) :=
    match s with
    | c :: r => if c =? 45 then (true, r) else (false, s)
    | [] => (false, s)
    end in
  match match_integer s1 with
  | None => Raise JSONDecodeError
  | Some (ds, r) =>
      let '(frac, r1) := match_fraction r in
      let '(exp, r2) := match_exponent r1 in
      match frac, exp with
      | [], [] =>
          if (max_str_digits <? length ds)%nat then Raise ValueError
          else
            Return
              (PyInt (if neg then - int_of_digits ds else int_of_digits ds)%Z,
               r2)
      | _, _ =>
          Return (PyFloat ((if neg then [45] else []) ++ ds ++ frac ++ exp), r2)
      end
  end.

(** The constants: [null], [true], [false], [NaN], [Infinity],
    [-Infinity]; otherwise a number. *)
Definition match_constant (s : str) : outcome (value * str) :=
  if startswith (lit "null") s then Return (PyNone, drop 4 s)
  else if startswith (lit "true") s then Return (PyBool true, drop 4 s)
  else if startswith (lit "false") s then Return (PyBool false, drop 5 s)
  else if startswith (lit "NaN") s then Return (PyFloat (lit "NaN"), drop 3 s)
  else if startswith (lit "Infinity") s then
    Return (PyFloat (lit "Infinity"), drop 8 s)
  else if startswith (lit "-Infinity") s then
    Return (PyFloat (lit "-Infinity"), drop 9 s)
  else match_number s.

(** [d[k]] for a [dict] in insertion order. *)
Fixpoint dict_get (k : str) (d : list (str * value)) : option value :=
  match d with
  | [] => None
  | (k', v) :: d' => if decide (k' = k) then Some v else dict_get k d'
  end.

(** [d[k] = v]: a key already there keeps its place. *)
Fixpoint dict_set (k : str) (v : value) (d : list (str * value)) :
    list (str * value) :=
  match d with
  | [] => [(k, v)]
  | (k', v') :: d' =>
      if decide (k' = k) then (k', v) :: d' else (k', v') :: dict_set k v d'
  end.

(** The [dict] of an object: its pairs are set one after the other. *)
Definition dict_of_pairs (pairs : list (str * value)) : list (str * value) :=
  fold_left (fun d '(k, v) => dict_set k v d) pairs [].

(** [scan_once]: the value at the head of [s] and the input after it, or
    the exception raised: [JSONDecodeError] where the text is no JSON,
    [RecursionError] where an object or an array opens and [depth], the
    number of containers that may still be opened, is zero, [ValueError]
    from [int].  The input is read from left to right and the first of
    these ends the scan.  [parse_members] reads the pairs of an object,
    after its opening brace and up to its closing brace; [parse_elements]
    reads the items of an array in the same way.  Each call takes one unit
    of [fuel] and is made on a strictly shorter input than its caller. *)
Fixpoint scan_once (fuel depth : nat) (s : str) : outcome (value * str) :=
  match fuel with
  | O => Raise JSONDecodeError
  | S fuel' =>
      match s with
      | [] => Raise JSONDecodeError
      | c :: r =>
          if c =? 34 then
            match scanstring r with
            | Some (t, rest) => Return (PyStr t, rest)
            | None => Raise JSONDecodeError
            end
          else if c =? 123 then
            match depth with
            | O => Raise RecursionError
            | S depth' =>
                match skip_ws r with
                | [] => Raise JSONDecodeError
                | c' :: rest =>
                    if c' =? 125 then Return (PyDict [], rest)
                    else
                      match parse_members fuel' depth' (c' :: rest) with
                      | Return (pairs, rest') =>
                          Return (PyDict (dict_of_pairs pairs), rest')
                      | Raise e => Raise e
                      end
                end
            end
          else if c =? 91 then
            match depth with
            | O => Raise RecursionError
            | S depth' =>
                match skip_ws r with
                | [] => Raise JSONDecodeError
                | c' :: rest =>
                    if c' =? 93 then Return (PyList [], rest)
                    else
                      match parse_elements fuel' depth' (c' :: rest) with
                      | Return (items, rest') => Return (PyList items, rest')
                      | Raise e => Raise e
                      end
                end
            end
          else match_constant s
      end
  end
with parse_members (fuel depth : nat) (s : str) :
    outcome (list (str * value) * str) :=
  match fuel with
  | O => Raise JSONDecodeError
  | S fuel' =>
      match s with
      | [] => Raise JSONDecodeError
      | c :: r =>
          if c =? 34 then
            match scanstring r with
            | None => Raise JSONDecodeError
            | Some (k, r1) =>
                match skip_ws r1 with
                | [] => Raise JSONDecodeError
                | c1 :: r2 =>
                    if c1 =? 58 then
                      match scan_once fuel' depth (skip_ws r2) with
                      | Raise e => Raise e
                      | Return (v, r3) =>
                          match skip_ws r3 with
                          | [] => Raise JSONDecodeError
                          | c3 :: r4 =>
                              if c3 =? 125 then Return ([(k, v)], r4)
                              else if c3 =? 44 then
                                match
                                  parse_members fuel' depth (skip_ws r4)
                                with
                                | Return (pairs, rest) =>
                                    Return ((k, v) :: pairs, rest)
                                | Raise e => Raise e
                                end
                              else Raise JSONDecodeError
                          end
                      end
                    else Raise JSONDecodeError
                end
            end
          else Raise JSONDecodeError
      end
  end
with parse_elements (fuel depth : nat) (s : str) :
    outcome (list value * str) :=
  match fuel with
  | O => Raise JSONDecodeError
  | S fuel' =>
      match scan_once fuel' depth s with
      | Raise e => Raise e
      | Return (v, r1) =>
          match skip_ws r1 with
          | [] => Raise JSONDecodeError
          | c1 :: r2 =>
              if c1 =? 93 then Return ([v], r2)
              else if c1 =? 44 then
                match parse_elements fuel' depth (skip_ws r2) with
                | Return (items, rest) => Return (v :: items, rest)
                | Raise e => Raise e
                end
              else Raise JSONDecodeError
          end
      end
  end.

(** [json.loads(s)] when [depth] containers may be opened: one value
    between optional whitespace, and nothing else.  Twice the length of
    the input is fuel enough for every input. *)
Definition loads_at (depth : nat) (s : str) : outcome value :=
  match scan_once (S (2 * length s)) depth (skip_ws s) with
  | Return (v, rest) =>
      match skip_ws rest with
      | [] => Return v
      | _ :: _ => Raise JSONDecodeError
      end
  | Raise e => Raise e
  end.

(** [json.loads(s)] *)
Definition loads (s : str) : outcome value := loads_at recursion_limit s.

End Json.

Module JsonEncode.
Import Json.

(** *** Encoding: [json.dumps] of a mapping from strings to strings *)

Definition hex_digit (n : N) : N := if n <? 10 then 48 + n else 87 + n.

(** [backslash-u] followed by four lower-case hexadecimal digits *)
Definition u_escape (n : N) : str :=
  [92; 117; hex_digit (n / 4096); hex_digit ((n / 256) mod 16);
   hex_digit ((n / 16) mod 16); hex_digit (n mod 16)].

(** How [ensure_ascii] writes one code point: the printable ASCII
    characters stand for themselves, except the quotation mark and the
    backslash; a code point above U+FFFF becomes a surrogate pair. *)
Definition escape_char (c : N) : str :=
  if c =? 34 then [92; 34]
  else if c =? 92 then [92; 92]
  else if (32 <=? c) && (c <=? 126) then [c]
  else if c =? 8 then [92; 98]
  else if c =? 12 then [92; 102]
  else if c =? 10 then [92; 110]
  else if c =? 13 then [92; 114]
  else if c =? 9 then [92; 116]
  else if c <? 65536 then u_escape c
  else
    u_escape (55296 + ((c - 65536) / 1024) mod 1024)
      ++ u_escape (56320 + (c - 65536) mod 1024).

(** [encode_basestring_ascii(s)] *)
Definition encode_string (s : str) : str :=
  [dquote] ++ concat (List.map escape_char s) ++ [dquote].

(** [json.dumps(d)] for a [dict] whose keys and values are strings, with
    the default separators. *)
Definition dumps (d : list (str * str)) : str :=
  lit "{"
    ++ join (lit ", ")
         (List.map (fun '(k, v) => encode_string k ++ lit ": " ++ encode_string v) d)
    ++ lit "}".

(** The [dict] a mapping of strings is, as a Python value. *)
Definition dict_value (d : list (str * str)) : value :=
  PyDict (List.map (fun '(k, v) => (k, PyStr v)) d).

(** *** Strings that survive a round trip *)

(** A code point is a number up to U+10FFFF. *)
Definition is_code_point (c : N) : bool := c <? 1114112.

(** No high surrogate stands directly before a low surrogate. *)
Fixpoint surrogate_pair_free (s : str) : bool :=
  match s with
  | a :: s' =>
      match s' with
      | b :: _ => negb (is_high_surrogate a && is_low_surrogate b)
      | [] => true
      end && surrogate_pair_free s'
  | [] => true
  end.

Definition plain_text (s : str) : bool :=
  forallb is_code_point s && surrogate_pair_free s.

End JsonEncode.

(** ** Extraction Client *)

(** [requests.post(url, headers=headers, json=data)]: one request is sent
    and the remote end answers or the transport raises. *)
Definition requests_post (url : str) (headers : list (str * str)) (data : value) :
    M Response :=
  fun w =>
    let request := mkRequest url headers data in
    (remote w request, with_posted (posted w ++ [request]) w).

(** [response.json()] *)
Definition response_json (response : Response) : outcome value :=
  Json.loads (text response).

(** [v[key]] for a string [key] *)
Definition getitem (v : value) (key : str) : outcome value :=
  match v with
  | PyDict d =>
      match Json.dict_get key d with
      | Some x => Return x
      | None => Raise (KeyError (PyStr key))
      end
  | _ => Raise TypeError
  end.

(** [v[0]] *)
Definition getitem_0 (v : value) : outcome value :=
  match v with
  | PyList (x :: _) => Return x
  | PyList [] => Raise IndexError
  | PyStr (c :: _) => Return (PyStr [c])
  | PyStr [] => Raise IndexError
  | PyDict _ => Raise (KeyError (PyInt 0))
  | _ => Raise TypeError
  end.

Definition and_then {A B} (o : outcome A) (k : A -> outcome B) : outcome B :=
  match o with
  | Return a => k a
  | Raise e => Raise e
  end.

(** [response.json()["candidates"][0]["content"]["parts"][0]["text"]] *)
Definition envelope_text (response : Response) : outcome value :=
  and_then (response_json response) (fun v =>
  and_then (getitem v (lit "candidates")) (fun v =>
  and_then (getitem_0 v) (fun v =>
  and_then (getitem v (lit "content")) (fun v =>
  and_then (getitem v (lit "parts")) (fun v =>
  and_then (getitem_0 v) (fun v =>
  getitem v (lit "text"))))))).

Section Client.

(** [str(e)], what [f"{e}"] prints for an exception: the interpreter's
    business. *)
Variable str_of_exception : exception -> str.

(** [query_gemini], lines 104-117.  The branches of the [if] either return
    the text or fall through to [return None]. *)
Definition query_gemini (prompt api_key : str) : M value :=
  let url :=
    lit "https://generativelanguage.googleapis.com/v1beta/models/gemini-2.0-flash:generateContent?key="
      ++ api_key in
  let headers := [(lit "Content-Type", lit "application/json")] in
  let data :=
    PyDict [(lit "contents",
             PyList [PyDict [(lit "parts",
                              PyList [PyDict [(lit "text", PyStr prompt)]])]])] in
  response ← requests_post url headers data ;
  returned ←
    (if ok response then
       try_except
         (v ← lift (envelope_text response) ; mret (Some v))
         (fun e =>
            st_error_ (lit "Parsing Gemini response failed: " ++ str_of_exception e) ;;
            mret None)
     else
       st_error_ (lit "Gemini API Error: " ++ str_of_nat (status_code response)) ;;
       st_text_ (text response) ;;
       mret None) ;
  match returned with
  | Some v => mret v
  | None => mret PyNone
  end.

End Client.

(** ** Response Parser *)

Definition backtick : N := 96.
Definition fence : str := lit "```".
Definition fence_json : str := lit "```json".

(** [re.sub(r"```json|```", "", s)].  The scan goes from left to right; at
    each position the first alternative that matches is deleted and the
    scan goes on behind it, otherwise the character is copied.  [skip] is
    the number of characters of the current match still to be dropped. *)
Fixpoint sub_fences (skip : nat) (s : str) : str :=
  match s with
  | [] => []
  | c :: s' =>
      match skip with
      | S k => sub_fences k s'
      | O =>
          if startswith fence_json s then sub_fences 6 s'
          else if startswith fence s then sub_fences 2 s'
          else c :: sub_fences 0 s'
      end
  end.

Definition re_sub_fences (s : str) : str := sub_fences 0 s.

(** [cleaned], line 120 *)
Definition cleaned (result : str) : str := strip (re_sub_fences result).

(** [parse_json_response], lines 119-126.  Only [json.JSONDecodeError] is
    caught. *)
Definition parse_json_response (result : str) : M value :=
  try_except
    (lift (Json.loads (cleaned result)))
    (fun e =>
       match e with
       | JSONDecodeError =>
           st_error_ (lit "JSON parse error") ;;
           st_text_ result ;;
           mret PyNone
       | _ => raise e
       end).

(** ** The upload loop *)

(** An empty file is no PDF. *)
Definition empty_file : Payload := Unreadable (PdfError []).

(** [tempfile.NamedTemporaryFile(delete=False)]: a new empty file under a
    name not in use, open for writing. *)
Definition NamedTemporaryFile_keep : M nat :=
  fun w =>
    let name := fresh (dom (files w)) in
    (Return name,
     with_handles ({[name]} ∪ handles w)
       (with_files (<[name := empty_file]> (files w)) w)).

(** [tmp_file.write(data)] *)
Definition tmp_write (tmp_file : nat) (data : Payload) : M unit :=
  fun w => (Return tt, with_files (<[tmp_file := data]> (files w)) w).

(** Leaving the [with] block closes the file.  It was created with
    [delete=False], so closing does not remove it. *)
Definition tmp_close (tmp_file : nat) : M unit :=
  fun w => (Return tt, with_handles (handles w ∖ {[tmp_file]}) w).

(** One turn of the upload loop, lines 134-139: the upload is copied to a
    temporary file, which is closed and then read. *)
Definition upload_turn (file : Payload) (acc : str * list Table) :
    M (str * list Table) :=
  let '(all_text, all_tables_combined) := acc in
  tmp_file ← NamedTemporaryFile_keep ;
  tmp_write tmp_file file ;;
  let pdf_path := tmp_file in
  tmp_close tmp_file ;;
  '(text_content, table_data) ← extract_text_and_tables pdf_path ;
  mret (all_text ++ text_content ++ nl ++ nl,
        all_tables_combined ++ table_data).

(** Lines 130-139 *)
Definition process_uploads (uploaded_files : list Payload) :
    M (str * list Table) :=
  for_in uploaded_files upload_turn ([], []).

(** Line 143 *)
Definition default_prompt (uploaded_files : list Payload) : M str :=
  '(all_text, _) ← process_uploads uploaded_files ;
  mret (create_prompt all_text).

(** *** The schema the template declares *)

(** [s] from the first occurrence of [c] on, and [s] up to and including
    the first occurrence of [c]. *)
Fixpoint from_first (c : N) (s : str) : str :=
  match s with
  | [] => []
  | x :: s' => if x =? c then s else from_first c s'
  end.

Fixpoint through_first (c : N) (s : str) : str :=
  match s with
  | [] => []
  | x :: s' => if x =? c then [x] else x :: through_first c s'
  end.

(** The JSON object of the template: from its first opening brace to the
    closing brace that follows. *)
Definition schema_block : str :=
  through_first 125 (from_first 123 template_before).

(** The fields the object declares with their default values, as
    [json.loads] reads them. *)
Definition declared_fields : list (str * value) :=
  match Json.loads schema_block with
  | Return (PyDict d) => d
  | _ => []
  end.

Definition field_names : list str := List.map fst declared_fields.

(** Text without a backtick. *)
Definition tickless (p : str) : bool :=
  forallb (fun c => negb (c =? backtick)) p.

(** *** Fence stripping as the specification words it *)

(** [s.endswith(p)] *)
Definition endswith (p s : str) : bool := startswith (rev p) (rev s).

(** A language tag: the letters and digits that follow an opening fence. *)
Definition is_tag_char (c : N) : bool :=
  ((97 <=? c) && (c <=? 122)) || ((65 <=? c) && (c <=? 90))
  || ((48 <=? c) && (c <=? 57)).

Fixpoint drop_tag (s : str) : str :=
  match s with
  | c :: s' => if is_tag_char c then drop_tag s' else s
  | [] => []
  end.

(** The specification's reading of the cleaning step: one leading fence
    with its optional language tag and one trailing fence are removed, and
    nothing else. *)
Definition strip_fence_pair (s : str) : str :=
  let s := strip s in
  let s := if startswith fence s then drop_tag (drop 3 s) else s in
  let s := if endswith fence s then take (length s - 3) s else s in
  strip s.

(** *** Terms of the statements *)

(** The request [query_gemini] sends for a prompt and a key. *)
Definition gemini_request (prompt api_key : str) : Request :=
  mkRequest
    (lit "https://generativelanguage.googleapis.com/v1beta/models/gemini-2.0-flash:generateContent?key="
       ++ api_key)
    [(lit "Content-Type", lit "application/json")]
    (PyDict [(lit "contents",
              PyList [PyDict [(lit "parts",
                               PyList [PyDict [(lit "text", PyStr prompt)]])]])]).

(** A world without files in which the remote end answers every request
    with the same response. *)
Definition answering (response : Response) : World :=
  mkWorld ∅ ∅ [] [] (fun _ => Return response).

(** A PDF all of whose pages can be read. *)
Definition readable_pdf (contents : list (option str * list Table)) : Payload :=
  Pdf (List.map readable contents).

(** The world after an upload was copied to a temporary file and that
    file was closed: the copy stays under its new name. *)
Definition after_upload (file : Payload) (w : World) : World :=
  let name := fresh (dom (files w)) in
  with_handles (handles w ∖ {[name]})
    (with_files (<[name := file]> (files w)) w).

Definition after_uploads (uploaded_files : list Payload) (w : World) : World :=
  fold_left (fun w file => after_upload file w) uploaded_files w.

(** What the reader gives on a file, wherever the file is stored. *)
Definition reading (file : Payload) : outcome (str * list Table) :=
  (extract_text_and_tables 0
     (mkWorld {[0%nat := file]} ∅ [] [] (fun _ => Raise ConnectionError))).1.

(** A page whose text cannot be extracted. *)
Definition raising_page : Page :=
  mkPage (Raise (PdfError (lit "bad page"))) (Return []).

(** A success whose envelope is complete and whose text is [null]. *)
Definition null_text_response : Response :=
  mkResponse 200
    (qlit "{~candidates~: [{~content~: {~parts~: [{~text~: null}]}}]}").

(** *** Sample data *)

(** A two-page document: a page with text and one table, where a cell is
    missing and a cell is empty, and a page without text. *)
Definition sample_contents : list (option str * list Table) :=
  [(Some (lit "Rating: Buy"),
    [[[Some (lit "CMP"); None; Some (lit "100")]; [Some []]]]);
   (None, [])].

Definition sample_world : World :=
  mkWorld {[7%nat := Pdf (List.map readable sample_contents)]} ∅ [] []
    (fun _ => Raise ConnectionError).

(** A response with a fence inside a string value. *)
Definition inner_fence_response : str := qlit "{~a~: ~```~}".

(** A mapping one of whose values is a fence. *)
Definition fenced_mapping : list (str * str) := [(lit "comments", lit "```")].

(** A mapping of plain fields. *)
Definition plain_mapping : list (str * str) :=
  [(lit "rating", lit "Hold"); (lit "target_price", lit "150")].

(** One turn of the loop over the pages, on a page that can be read. *)
Definition page_step (ic : nat * (option str * list Table))
    (acc : str * list Table) : str * list Table :=
  (acc.1 ++ page_section ic.1 ic.2, acc.2 ++ ic.2.2).

(** ** The page, lines 9-16 and 129-187 *)

(** *** Streamlit widgets *)

(** The calls to Streamlit in the order in which they are made.  [shown c]
    is a call to [st.error] or [st.text], by the script body or by a
    function it calls; the others are the calls of the body, with their
    arguments.  [st_dataframe table] is [st.dataframe] on the frame made
    of [table], [st_line_chart table] is [st.line_chart] on the numeric
    part of that frame. *)
Inductive element :=
| shown (c : st_call)
| st_set_page_config (page_title layout : str)
| st_title (body : str)
| st_text_input (label type : str)
| st_file_uploader (label type : str) (accept_multiple_files : bool)
| st_subheader (body : str)
| st_text_area (label value : str) (height : nat)
| st_button (label : str)
| st_spinner (body : str)
| st_success (body : str)
| st_json (body : value)
| st_download_button (label data file_name mime : str)
| st_write (body : str)
| st_dataframe (table : Table)
| st_line_chart (table : Table)
| st_warning (body : str).

(** One run of the script: the world, and the calls made so far, oldest
    first. *)
Record Session := mkSession {
  world : World;
  calls : list element
}.

(** What the person at the browser has done when the run starts: the key
    typed, the files uploaded, the text the prompt area holds for a given
    initial value, and whether the button was pressed. *)
Record Operator := mkOperator {
  key_typed : str;
  files_uploaded : list Payload;
  prompt_edited : str -> str;
  button_clicked : bool
}.

(** Computations of the script body. *)
Definition Script (A : Type) : Type := Session -> outcome A * Session.

#[global] Instance Script_ret : MRet Script := fun A a s => (Return a, s).
#[global] Instance Script_bind : MBind Script := fun A B k m s =>
  match m s with
  | (Return a, s') => k a s'
  | (Raise e, s') => (Raise e, s')
  end.

Definition show (e : element) : Script unit :=
  fun s => (Return tt, mkSession (world s) (calls s ++ [e])).

(** A function of the script called from the body: it runs in the world,
    and the calls it adds to the screen are calls of the run. *)
Definition call {A} (m : M A) : Script A :=
  fun s =>
    let '(o, w') := m (world s) in
    (o, mkSession w'
          (calls s
             ++ List.map shown (drop (length (screen (world s))) (screen w')))).

Definition lift_ {A} (o : outcome A) : Script A := fun s => (o, s).

(** [try: body except Exception as e: handler(e)] in the script body *)
Definition try_except_ {A} (body : Script A) (handler : exception -> Script A) :
    Script A :=
  fun s =>
    match body s with
    | (Return a, s') => (Return a, s')
    | (Raise e, s') => handler e s'
    end.

(** [for x in l: body(x)] in the script body *)
Fixpoint for_each {A} (l : list A) (body : A -> Script unit) : Script unit :=
  match l with
  | [] => mret tt
  | x :: l' => body x ;; for_each l' body
  end.

(** What pandas and Streamlit make of a table in lines 170-183: their
    business.  [frame_is_blank table] is what lines 170-171 come to:
    [pd.DataFrame(table)] or the test raises, or the test tells whether
    the frame is empty once the rows and the columns that hold nothing are
    dropped.  [dataframe_renders table] tells whether [st.dataframe]
    returns on the frame or raises.  [chart_drawn table] tells whether
    lines 177-181 get to draw the chart: the numeric part of the frame is
    not empty and nothing raises on the way. *)
Record Pandas := mkPandas {
  frame_is_blank : Table -> outcome bool;
  dataframe_renders : Table -> outcome unit;
  chart_drawn : Table -> bool
}.

(** The widgets that give something back *)
Definition st_text_input_ (op : Operator) (label type : str) : Script str :=
  show (st_text_input label type) ;; mret (key_typed op).

Definition st_file_uploader_ (op : Operator) (label type : str)
    (accept_multiple_files : bool) : Script (list Payload) :=
  show (st_file_uploader label type accept_multiple_files) ;;
  mret (files_uploaded op).

Definition st_text_area_ (op : Operator) (label value : str) (height : nat) :
    Script str :=
  show (st_text_area label value height) ;; mret (prompt_edited op value).

Definition st_button_ (op : Operator) (label : str) : Script bool :=
  show (st_button label) ;; mret (button_clicked op).

(** [bool(l)] for a list or a string *)
Definition nonempty {A} (l : list A) : bool :=
  match l with
  | [] => false
  | _ :: _ => true
  end.

(** [parse_json_response] on whatever [query_gemini] returned: [re.sub]
    takes a string and raises [TypeError] on any other value. *)
Definition parse_json_response_of (result : value) : M value :=
  match result with
  | PyStr s => parse_json_response s
  | _ => raise TypeError
  end.

Section Script.

(** [str(e)]; whether the float written as a literal is zero; and
    [json.dumps(v, indent=2)] on a decoded value: the interpreter's
    business. *)
Variable str_of_exception : exception -> str.
Variable float_is_zero : str -> bool.
Variable dumps_indent : value -> str.
Variable pandas : Pandas.

(** [bool(v)], what [if v:] tests *)
Definition bool_of (v : value) : bool :=
  match v with
  | PyNone => false
  | PyBool b => b
  | PyInt z => negb (z =? 0)%Z
  | PyFloat literal => negb (float_is_zero literal)
  | PyStr s => nonempty s
  | PyList l => nonempty l
  | PyDict d => nonempty d
  end.

(** The button handler, lines 147-164 *)
Definition handle_click (user_prompt API_KEY : str) : Script unit :=
  show (st_spinner (lit "🔍 Extracting with Gemini...")) ;;
  result ← call (query_gemini str_of_exception user_prompt API_KEY) ;
  if bool_of result then
    final_json ← call (parse_json_response_of result) ;
    if bool_of final_json then
      show (st_success (lit "✅ JSON Extracted Successfully!")) ;;
      show (st_json final_json) ;;
      let json_str := dumps_indent final_json in
      show (st_download_button (lit "📥 Download JSON Output") json_str
              (lit "financial_data.json") (lit "application/json"))
    else
      call (st_error_ (lit "❌ Couldn't convert to JSON."))
  else mret tt.

(** One turn of the loop over the tables, lines 169-187.  The inner [try]
    swallows whatever is raised while the chart is prepared and drawn, so
    that the chart is there or is not; an exception raised before it ends
    the turn with a warning. *)
Definition preview_turn (itable : nat * Table) : Script unit :=
  let '(i, table) := itable in
  try_except_
    (blank ← lift_ (frame_is_blank pandas table) ;
     if blank : bool then mret tt
     else
       show (st_write (lit "📄 Table " ++ str_of_nat (i + 1))) ;;
       lift_ (dataframe_renders pandas table) ;;
       show (st_dataframe table) ;;
       if chart_drawn pandas table then show (st_line_chart table)
       else mret tt)
    (fun e =>
       show (st_warning
               (lit "Could not render Table " ++ str_of_nat (i + 1)
                  ++ lit ": " ++ str_of_exception e))).

(** The table preview, lines 166-187 *)
Definition table_preview (all_tables_combined : list Table) : Script unit :=
  if nonempty all_tables_combined then
    show (st_subheader (lit "📊 Extracted Tables (Preview)")) ;;
    for_each (enumerate all_tables_combined) preview_turn
  else mret tt.

(** What one turn of that loop adds to the page, for the table at
    position [i]. *)
Definition preview_section (i : nat) (table : Table) : list element :=
  match frame_is_blank pandas table with
  | Raise e =>
      [st_warning
         (lit "Could not render Table " ++ str_of_nat (i + 1)
            ++ lit ": " ++ str_of_exception e)]
  | Return true => []
  | Return false =>
      st_write (lit "📄 Table " ++ str_of_nat (i + 1))
        :: match dataframe_renders pandas table with
           | Raise e =>
               [st_warning
                  (lit "Could not render Table " ++ str_of_nat (i + 1)
                     ++ lit ": " ++ str_of_exception e)]
           | Return _ =>
               st_dataframe table
                 :: (if chart_drawn pandas table then [st_line_chart table]
                     else [])
           end
  end.

(** The script, lines 9-16 and 129-187 *)
Definition script (op : Operator) : Script unit :=
  show (st_set_page_config (lit "Financial Data Extractor") (lit "wide")) ;;
  show (st_title (lit "📊 Financial Data Extractor from Equity Research PDFs")) ;;
  API_KEY ← st_text_input_ op (lit "🔑 Enter Gemini API Key") (lit "password") ;
  uploaded_files ←
    st_file_uploader_ op (lit "📂 Upload one or more Equity Research PDFs")
      (lit "pdf") true ;
  if nonempty uploaded_files && nonempty API_KEY then
    '(all_text, all_tables_combined) ← call (process_uploads uploaded_files) ;
    show (st_subheader (lit "✍️ Editable Prompt Preview")) ;;
    let default_prompt := create_prompt all_text in
    user_prompt ←
      st_text_area_ op (lit "📝 Modify Prompt if Needed") default_prompt 400 ;
    clicked ← st_button_ op (lit "🔮 Send to Gemini & Extract JSON") ;
    (if clicked : bool then handle_click user_prompt API_KEY else mret tt) ;;
    table_preview all_tables_combined
  else mret tt.

End Script.

(** *** Terms of the further statements *)

(** A page one of whose two methods raises [e]: the text cannot be
    extracted, or it can and the tables cannot. *)
Definition fails_with (page : Page) (e : exception) : Prop :=
  extract_text page = Raise e
  ∨ ∃ text, extract_text page = Return text ∧ extract_tables page = Raise e.

(** A document whose second page cannot be read. *)
Definition broken_world : World :=
  mkWorld
    {[3%nat :=
        Pdf (List.map readable [(Some (lit "Rating: Buy"), [])]
               ++ [raising_page; readable (None, [])])]}
    ∅ [] [] (fun _ => Raise ConnectionError).

(** Successes whose text is an empty object, a number, and an object with
    one field. *)
Definition empty_object_response : Response :=
  mkResponse 200
    (qlit "{~candidates~: [{~content~: {~parts~: [{~text~: ~{}~}]}}]}").

Definition number_response : Response :=
  mkResponse 200
    (qlit "{~candidates~: [{~content~: {~parts~: [{~text~: 5}]}}]}").

Definition rating_response : Response :=
  mkResponse 200
    (qlit "{~candidates~: [{~content~: {~parts~: [{~text~: ~{\~rating\~: \~Buy\~}~}]}}]}").

(** A pandas that finds a table blank when no cell holds a string, and a
    Streamlit that renders every frame and draws no chart. *)
Definition sample_pandas : Pandas :=
  mkPandas
    (fun table =>
       Return
         (forallb
            (forallb (fun cell : Cell =>
                        match cell with None => true | Some _ => false end))
            table))
    (fun _ => Return tt)
    (fun _ => false).

(** Someone who typed a key, uploaded the sample document and left the
    prompt as it was. *)
Definition sample_operator (pressed : bool) : Operator :=
  mkOperator (lit "key") [readable_pdf sample_contents] (fun prompt => prompt)
    pressed.

(** The body of a success as the remote end writes it: the envelope of
    line 111 around the text of the answer. *)
Definition envelope_body (answer : str) : str :=
  qlit "{~candidates~: [{~content~: {~parts~: [{~text~: "
    ++ JsonEncode.encode_string answer ++ lit "}]}}]}".

(** Text below U+0080 *)
Definition is_ascii (s : str) : bool := forallb (fun c => c <? 128) s.

(** Two thousand opening brackets, and an integer of 4301 digits. *)
Definition deep_brackets : str := replicate 2000 91.
Definition long_integer : str := replicate 4301 49.

(** * Properties *)

(** ** Literals *)

Example lit_arrow : lit "a → b" = [97; 32; 8594; 32; 98].
Proof. reflexivity. Qed.

Example strip_example : strip (lit "  x y ") = lit "x y".
Proof. reflexivity. Qed.


(** ** Document Reader *)

Section Reader.

Implicit Types (contents : list (option str * list Table)) (w : World).

Lemma enumerate_from {A} (k : nat) (l : list A) :
  imap (fun i x => (k + i, x)%nat) l =
  match l with
  | [] => []
  | x :: l' => (k, x) :: imap (fun i x => (S k + i, x)%nat) l'
  end.
Proof.
  destruct l as [|x l']; [reflexivity|]. simpl. f_equal.
  - f_equal. lia.
  - apply imap_ext. intros i y _. simpl. f_equal. lia.
Qed.

Lemma imap_from {A B} (f : nat -> A -> B) (k : nat) (l : list A) :
  imap (fun i => f (k + i)%nat) l =
  match l with
  | [] => []
  | x :: l' => f k x :: imap (fun i => f (S k + i)%nat) l'
  end.
Proof.
  destruct l as [|x l']; [reflexivity|]. simpl. f_equal.
  - f_equal. lia.
  - apply imap_ext. intros i y _. simpl. f_equal. lia.
Qed.

(** The innermost loop appends one line per row. *)
Lemma rows_loop (table : Table) (full_text : str) :
  fold_left (fun full_text row => full_text ++ (row_text row ++ nl))
    table full_text
  = full_text ++ concat (List.map (fun row => row_text row ++ nl) table).
Proof.
  revert full_text. induction table as [|row table IH]; intros full_text; simpl.
  - by rewrite app_nil_r.
  - rewrite IH. by rewrite <- !app_assoc.
Qed.

(** The loop over the tables of page [i] appends one section per table. *)
Lemma tables_loop (i : nat) (tables : list Table) :
  ∀ (k : nat) (full_text : str) (all_tables : list Table),
    fold_left
      (fun '(full_text, all_tables) '(t_index, table) =>
         let full_text := full_text ++ table_header i t_index in
         let full_text :=
           fold_left (fun full_text row => full_text ++ (row_text row ++ nl))
             table full_text in
         (full_text, all_tables ++ [table]))
      (imap (fun j x => (k + j, x)%nat) tables) (full_text, all_tables)
    = (full_text ++ concat (imap (fun j => table_section i (k + j)) tables),
       all_tables ++ tables).
Proof.
  induction tables as [|table tables IH]; intros k full_text all_tables.
  - simpl. by rewrite !app_nil_r.
  - rewrite enumerate_from, (imap_from (table_section i)).
    cbn [fold_left]. rewrite rows_loop, IH. cbn [concat].
    unfold table_section at 2. f_equal.
    + by rewrite <- !app_assoc.
    + by rewrite <- app_assoc.
Qed.

(** A loop whose turns neither raise nor touch the world is a fold. *)
Lemma for_in_pure {A B S} (g : B -> A) (body : A -> S -> M S)
    (step : B -> S -> S) (w : World) :
  (∀ y s, body (g y) s w = (Return (step y s), w)) ->
  ∀ (l : list B) (s : S),
    for_in (List.map g l) body s w
    = (Return (fold_left (fun s y => step y s) l s), w).
Proof.
  intros Hbody l. induction l as [|y l IH]; intros s; [reflexivity|].
  cbn [List.map for_in fold_left]. unfold mbind, M_bind.
  rewrite Hbody. apply IH.
Qed.

Lemma pages_fold contents :
  ∀ (k : nat) (acc : str * list Table),
    fold_left (fun s y => page_step y s)
      (imap (fun i c => (k + i, c)%nat) contents) acc
    = (acc.1 ++ concat (imap (fun i => page_section (k + i)) contents),
       acc.2 ++ concat (List.map snd contents)).
Proof.
  induction contents as [|c contents IH]; intros k [full_text all_tables].
  - simpl. by rewrite !app_nil_r.
  - rewrite enumerate_from, (imap_from page_section).
    cbn [fold_left]. rewrite IH. unfold page_step.
    cbn [fst snd concat List.map]. by rewrite <- !app_assoc.
Qed.

Lemma imap_map {A B C} (g : A -> B) (l : list A) :
  ∀ f : nat -> B -> C, imap f (List.map g l) = imap (fun i x => f i (g x)) l.
Proof.
  induction l as [|x l IH]; intros f; [reflexivity|].
  cbn [List.map imap]. f_equal. apply IH.
Qed.

Lemma map_imap {A B C} (h : B -> C) (l : list A) :
  ∀ f : nat -> A -> B, List.map h (imap f l) = imap (fun i x => h (f i x)) l.
Proof.
  induction l as [|x l IH]; intros f; [reflexivity|].
  cbn [List.map imap]. f_equal. apply IH.
Qed.

Lemma enumerate_map {A B} (g : A -> B) (l : list A) :
  enumerate (List.map g l)
  = List.map (fun ic => (ic.1, g ic.2)) (enumerate l).
Proof. unfold enumerate. by rewrite imap_map, map_imap. Qed.

(** On a PDF all of whose pages can be read, the reader returns the
    sections of the pages one after the other, and the tables in page
    order; nothing else in the world changes. *)
Lemma extract_readable contents w (pdf_path : nat) :
  files w !! pdf_path = Some (Pdf (List.map readable contents)) ->
  extract_text_and_tables pdf_path w
  = (Return (flattened contents, concat (List.map snd contents)), w).
Proof.
  intros Hfile. unfold extract_text_and_tables.
  unfold mbind at 1, M_bind at 1. unfold pdfplumber_open. rewrite Hfile.
  rewrite enumerate_map.
  rewrite (for_in_pure (fun ic => (ic.1, readable ic.2)) _ page_step).
  - unfold enumerate.
    rewrite (imap_ext _ (fun i c => ((0 + i)%nat, c)) contents) by done.
    rewrite pages_fold. reflexivity.
  - intros [i [text tables]] [full_text all_tables].
    unfold page_turn, page_step, page_section. cbn [fst snd readable].
    unfold mbind, M_bind, lift. cbn [extract_text extract_tables].
    destruct tables as [|t ts].
    + unfold mret, M_ret. simpl. by rewrite !app_nil_r.
    + unfold mret, M_ret. f_equal. unfold enumerate.
      rewrite (imap_ext _ (fun j x => ((0 + j)%nat, x)) (t :: ts)) by done.
      rewrite tables_loop. by rewrite <- !app_assoc.
Qed.

Lemma if_else_default (cell : option str) : if_else cell [] = default [] cell.
Proof. by destruct cell as [[|c t]|]. Qed.

Lemma if_else_placeholder (text : option str) (d : str) :
  if_else text d = match text with Some (c :: t) => c :: t | _ => d end.
Proof. by destruct text as [[|c t]|]. Qed.

(** C5.  For a PDF with N pages, all readable, the flattened text is the
    concatenation of exactly N sections, in page order.  Section [i]
    (counting from 0) starts with the header that carries the page number
    [i + 1], followed by the text of the page, or by the placeholder
    [[No text found]] when the page has no text ([None] or the empty
    string): the part after the header is never empty.  What follows in
    the section is the table sections of that page and nothing else, each
    under a header that names a table of page [i + 1]: the text holds no
    page header besides these N. *)
Theorem reader_page_sections contents w (pdf_path : nat) :
  files w !! pdf_path = Some (Pdf (List.map readable contents)) ->
  ∃ (sections : list str) (all_tables : list Table),
    extract_text_and_tables pdf_path w
      = (Return (concat sections, all_tables), w)
    ∧ length sections = length contents
    ∧ ∀ (i : nat) (text : option str) (tables : list Table),
        contents !! i = Some (text, tables) ->
        ∃ body tail : str,
          sections !! i
            = Some ((nl ++ lit "--- Page " ++ str_of_nat (i + 1)
                        ++ lit " Text ---" ++ nl) ++ body ++ tail)
          ∧ body ≠ []
          ∧ body = match text with
                   | Some (c :: t) => c :: t
                   | _ => lit "[No text found]"
                   end
          ∧ tail
            = concat
                (imap
                   (fun j table =>
                      (nl ++ lit "--- Page " ++ str_of_nat (i + 1)
                          ++ lit " Table " ++ str_of_nat (j + 1)
                          ++ lit " ---" ++ nl)
                        ++ concat
                             (List.map
                                (fun row =>
                                   join (lit " | ") (List.map (default []) row)
                                     ++ nl)
                                table))
                   tables).
Proof.
  intros Hfile.
  exists (imap page_section contents), (concat (List.map snd contents)).
  split; [exact (extract_readable contents w pdf_path Hfile)|].
  split; [apply length_imap|].
  intros i text tables Hi.
  exists (if_else text (lit "[No text found]")),
    (concat (imap (table_section i) tables)).
  rewrite list_lookup_imap, Hi. cbn [fmap option_fmap option_map].
  split; [|split; [|split]].
  - unfold page_section, page_header. cbn [fst snd].
    by rewrite <- !app_assoc.
  - by destruct text as [[|c t]|].
  - apply if_else_placeholder.
  - f_equal. apply imap_ext. intros j table _.
    unfold table_section, table_header, row_text. do 2 f_equal.
    apply List.map_ext. intros row. do 2 f_equal.
    apply List.map_ext. intros cell. apply if_else_default.
Qed.

Lemma reader_page_sections_witness :
  files sample_world !! 7%nat = Some (Pdf (List.map readable sample_contents))
  ∧ ∃ (sections : list str) (all_tables : list Table),
      extract_text_and_tables 7 sample_world
        = (Return (concat sections, all_tables), sample_world)
      ∧ length sections = length sample_contents
      ∧ ∀ (i : nat) (text : option str) (tables : list Table),
          sample_contents !! i = Some (text, tables) ->
          ∃ body tail : str,
            sections !! i
              = Some ((nl ++ lit "--- Page " ++ str_of_nat (i + 1)
                          ++ lit " Text ---" ++ nl) ++ body ++ tail)
            ∧ body ≠ []
            ∧ body = match text with
                     | Some (c :: t) => c :: t
                     | _ => lit "[No text found]"
                     end
            ∧ tail
              = concat
                  (imap
                     (fun j table =>
                        (nl ++ lit "--- Page " ++ str_of_nat (i + 1)
                            ++ lit " Table " ++ str_of_nat (j + 1)
                            ++ lit " ---" ++ nl)
                          ++ concat
                               (List.map
                                  (fun row =>
                                     join (lit " | ")
                                       (List.map (default []) row)
                                       ++ nl)
                                  table))
                     tables).
Proof.
  split; [reflexivity|].
  apply (reader_page_sections sample_contents sample_world 7). reflexivity.
Defined.

(** C6.  In the section of a readable page with K tables, the text part
    (header and text or placeholder) is followed by exactly K table
    sections.  Table section [j] (counting from 0) starts with the header
    that carries the page number [i + 1] and the table number [j + 1], and
    has one line per row: the cells joined by [" | "], a missing or empty
    cell being the empty string. *)
Theorem reader_table_sections contents w (pdf_path : nat) :
  files w !! pdf_path = Some (Pdf (List.map readable contents)) ->
  ∃ (sections : list str) (all_tables : list Table),
    extract_text_and_tables pdf_path w
      = (Return (concat sections, all_tables), w)
    ∧ length sections = length contents
    ∧ ∀ (i : nat) (text : option str) (tables : list Table),
        contents !! i = Some (text, tables) ->
        ∃ table_sections : list str,
          sections !! i
            = Some (((nl ++ lit "--- Page " ++ str_of_nat (i + 1)
                         ++ lit " Text ---" ++ nl)
                     ++ match text with
                        | Some (c :: t) => c :: t
                        | _ => lit "[No text found]"
                        end)
                    ++ concat table_sections)
          ∧ length table_sections = length tables
          ∧ ∀ (j : nat) (table : Table),
              tables !! j = Some table ->
              table_sections !! j
                = Some ((nl ++ lit "--- Page " ++ str_of_nat (i + 1)
                            ++ lit " Table " ++ str_of_nat (j + 1)
                            ++ lit " ---" ++ nl)
                        ++ concat
                             (List.map
                                (fun row =>
                                   join (lit " | ") (List.map (default []) row)
                                     ++ nl)
                                table)).
Proof.
  intros Hfile.
  exists (imap page_section contents), (concat (List.map snd contents)).
  split; [exact (extract_readable contents w pdf_path Hfile)|].
  split; [apply length_imap|].
  intros i text tables Hi.
  exists (imap (table_section i) tables).
  rewrite list_lookup_imap, Hi. cbn [fmap option_fmap option_map].
  split; [|split].
  - unfold page_section, page_header. cbn [fst snd].
    by rewrite if_else_placeholder.
  - apply length_imap.
  - intros j table Hj. rewrite list_lookup_imap, Hj.
    cbn [fmap option_fmap option_map].
    unfold table_section, table_header, row_text. do 3 f_equal.
    apply List.map_ext. intros row. do 2 f_equal.
    apply List.map_ext. intros cell. apply if_else_default.
Qed.

Lemma reader_table_sections_witness :
  files sample_world !! 7%nat = Some (Pdf (List.map readable sample_contents))
  ∧ ∃ (sections : list str) (all_tables : list Table),
      extract_text_and_tables 7 sample_world
        = (Return (concat sections, all_tables), sample_world)
      ∧ length sections = length sample_contents
      ∧ ∀ (i : nat) (text : option str) (tables : list Table),
          sample_contents !! i = Some (text, tables) ->
          ∃ table_sections : list str,
            sections !! i
              = Some (((nl ++ lit "--- Page " ++ str_of_nat (i + 1)
                           ++ lit " Text ---" ++ nl)
                       ++ match text with
                          | Some (c :: t) => c :: t
                          | _ => lit "[No text found]"
                          end)
                      ++ concat table_sections)
            ∧ length table_sections = length tables
            ∧ ∀ (j : nat) (table : Table),
                tables !! j = Some table ->
                table_sections !! j
                  = Some ((nl ++ lit "--- Page " ++ str_of_nat (i + 1)
                              ++ lit " Table " ++ str_of_nat (j + 1)
                              ++ lit " ---" ++ nl)
                          ++ concat
                               (List.map
                                  (fun row =>
                                     join (lit " | ") (List.map (default []) row)
                                       ++ nl)
                                  table)).
Proof.
  split; [reflexivity|].
  apply (reader_table_sections sample_contents sample_world 7). reflexivity.
Defined.

(** The sample document, flattened. *)
Example sample_flattened :
  (extract_text_and_tables 7 sample_world).1
  = Return
      (nl ++ lit "--- Page 1 Text ---" ++ nl ++ lit "Rating: Buy"
          ++ nl ++ lit "--- Page 1 Table 1 ---" ++ nl
          ++ lit "CMP |  | 100" ++ nl ++ nl
          ++ nl ++ lit "--- Page 2 Text ---" ++ nl ++ lit "[No text found]",
       [[[Some (lit "CMP"); None; Some (lit "100")]; [Some []]]]).
Proof. reflexivity. Qed.

End Reader.

(** ** Prompt Builder *)

Section Prompt.

Lemma startswith_app (p s : str) :
  startswith p s = true -> ∃ r, s = p ++ r.
Proof.
  revert s. induction p as [|a p IH]; intros s H.
  - by exists s.
  - destruct s as [|b s]; [discriminate|]. simpl in H.
    apply andb_prop in H as [Hab Hps]. apply N.eqb_eq in Hab as ->.
    destruct (IH s Hps) as [r ->]. by exists r.
Qed.

Lemma startswith_refl_app (p r : str) : startswith p (p ++ r) = true.
Proof.
  induction p as [|a p IH]; [reflexivity|].
  simpl. by rewrite N.eqb_refl, IH.
Qed.

Lemma contains_startswith (t s : str) :
  startswith t s = true -> contains t s = true.
Proof. destruct s; simpl; by intros ->. Qed.

(** [contains] decides [substring]. *)
Lemma contains_substring (t s : str) :
  contains t s = true <-> substring t s.
Proof.
  split.
  - induction s as [|c s IH]; simpl; intros H.
    + apply orb_prop in H as [H|H]; [|discriminate].
      destruct t; [|discriminate]. by exists [], [].
    + apply orb_prop in H as [H|H].
      * destruct (startswith_app _ _ H) as [r Hr]. exists [], r. by rewrite Hr.
      * destruct (IH H) as (before & after & ->). by exists (c :: before), after.
  - intros (before & after & ->).
    induction before as [|c before IH].
    + rewrite app_nil_l. apply contains_startswith, startswith_refl_app.
    + simpl. rewrite IH. apply orb_true_r.
Qed.

Lemma substring_app_l (t s r : str) : substring t s -> substring t (s ++ r).
Proof.
  intros (before & after & ->). exists before, (after ++ r).
  by rewrite <- !app_assoc.
Qed.

(** The part of the prompt before the PDF content holds every field name. *)
Lemma template_holds_names :
  Forall (fun name => contains name template_before = true) field_names.
Proof. apply List.Forall_forall, forallb_forall. vm_compute. reflexivity. Qed.

(** The object of the template, field by field. *)
Lemma declared_fields_eq :
  declared_fields =
  List.map (fun name => (lit name, PyStr []))
    ["reviewer"; "reviewee"; "analyst"; "analystMail"; "analystPhone";
     "rating"; "current_price"; "target_price"; "previous_target"; "comments";
     "revenueFY24E"; "ebitdaFY24E"; "ebitdaMarginFY24E"; "patFY24E";
     "revenueFY25E"; "ebitdaFY25E"; "ebitdaMarginFY25E"; "patFY25E";
     "revenue3QFY24"; "ebitda3QFY24"; "ebitda3QFY24yoy"; "ebitda3QFY24qoq";
     "ebitdaMargin3QFY24"; "pat3QFY24"; "pat3QFY24yoy"; "pat3QFY24qoq"]%string.
Proof. vm_compute. reflexivity. Qed.

(** C2, as stated: the template would declare exactly 23 fields.  It
    declares 26. *)
Lemma prompt_declares_23_fields_fails : length declared_fields ≠ 23%nat.
Proof. rewrite declared_fields_eq. simpl. lia. Qed.

(** C2, amended.  The template declares exactly 26 named fields, each with
    the empty string as its default and no name twice; for every input
    text the prompt contains the text verbatim and the name of every
    declared field. *)
Theorem prompt_fields_and_text :
  length declared_fields = 26%nat
  ∧ NoDup field_names
  ∧ Forall (fun field => field.2 = PyStr []) declared_fields
  ∧ ∀ text_content : str,
      substring text_content (create_prompt text_content)
      ∧ Forall (fun name => substring name (create_prompt text_content))
          field_names.
Proof.
  split; [by rewrite declared_fields_eq|].
  split.
  { unfold field_names. rewrite declared_fields_eq.
    apply (bool_decide_unpack _). by vm_compute. }
  split.
  { rewrite declared_fields_eq. apply Forall_forall. intros field Hin.
    apply list_elem_of_In, in_map_iff in Hin as (name & <- & _). reflexivity. }
  intros text_content. split.
  - by exists template_before, template_after.
  - eapply Forall_impl; [exact template_holds_names|].
    intros name H. unfold create_prompt.
    apply substring_app_l. by apply contains_substring.
Qed.

End Prompt.

(** ** Response Parser: cleaning *)

Section Cleaning.

Lemma startswith_fence_json (s : str) :
  startswith fence_json s = true -> startswith fence s = true.
Proof.
  intros H. apply startswith_app in H as [r ->]. reflexivity.
Qed.

Lemma startswith_fence_head (c : N) (s : str) :
  c ≠ backtick -> startswith fence (c :: s) = false.
Proof.
  intros Hc. change (startswith fence (c :: s))
    with ((96 =? c) && startswith [96; 96] s).
  apply N.eqb_neq in Hc. rewrite N.eqb_sym in Hc. unfold backtick in Hc.
  by rewrite Hc.
Qed.

(** The equations of the substitution. *)
Lemma sub_fences_keep (c : N) (s : str) :
  startswith fence (c :: s) = false ->
  re_sub_fences (c :: s) = c :: re_sub_fences s.
Proof.
  intros H. unfold re_sub_fences. cbn [sub_fences].
  destruct (startswith fence_json (c :: s)) eqn:E.
  - apply startswith_fence_json in E. congruence.
  - by rewrite H.
Qed.

Lemma sub_fences_json (s : str) :
  re_sub_fences (fence_json ++ s) = re_sub_fences s.
Proof. reflexivity. Qed.

Lemma sub_fences_plain (s : str) :
  re_sub_fences (fence ++ s)
  = re_sub_fences (if startswith (lit "json") s then drop 4 s else s).
Proof.
  destruct (startswith (lit "json") s) eqn:E.
  - apply startswith_app in E as [r ->]. reflexivity.
  - unfold re_sub_fences.
    change (fence ++ s) with (96 :: 96 :: 96 :: s). cbn [sub_fences].
    change (startswith fence_json (96 :: 96 :: 96 :: s))
      with (startswith (lit "json") s).
    rewrite E. reflexivity.
Qed.

(** Text without a backtick is copied, whatever follows it. *)
Lemma sub_fences_copy (a s : str) :
  contains [backtick] a = false ->
  re_sub_fences (a ++ s) = a ++ re_sub_fences s.
Proof.
  induction a as [|c a IH]; [reflexivity|]. intros H.
  cbn [contains startswith] in H.
  apply orb_false_elim in H as [Hc Ha].
  rewrite andb_true_r in Hc. apply N.eqb_neq in Hc.
  cbn [app]. rewrite sub_fences_keep.
  - by rewrite IH.
  - apply startswith_fence_head. congruence.
Qed.

(** Text without a fence is left as it is. *)
Lemma sub_fences_clean (s : str) :
  contains fence s = false -> re_sub_fences s = s.
Proof.
  induction s as [|c s IH]; [reflexivity|]. intros H.
  cbn [contains] in H. apply orb_false_elim in H as [Hc Hs].
  rewrite sub_fences_keep by done. by rewrite IH.
Qed.

(** A closing fence after text without a fence is deleted. *)
Lemma sub_fences_closing (body : str) :
  contains fence body = false -> re_sub_fences (body ++ fence) = body.
Proof.
  induction body as [|c body IH]; [reflexivity|]. intros H.
  cbn [contains] in H. apply orb_false_elim in H as [Hc Hs].
  destruct (startswith fence ((c :: body) ++ fence)) eqn:E.
  - destruct body as [|x [|y body]].
    + apply startswith_app in E as [r E]. injection E as -> _. reflexivity.
    + apply startswith_app in E as [r E]. injection E as -> -> _. reflexivity.
    + apply startswith_app in E as [r E]. injection E as -> -> -> _.
      discriminate Hc.
  - cbn [app] in *. rewrite sub_fences_keep by done. by rewrite IH.
Qed.

(** A first character that is no backtick is copied. *)
Lemma sub_fences_head (x : N) (s : str) :
  x ≠ backtick -> re_sub_fences (x :: s) = x :: re_sub_fences s.
Proof. intros Hx. apply sub_fences_keep. by apply startswith_fence_head. Qed.

Lemma startswith_fence_ticks (s : str) :
  startswith fence (backtick :: s) = startswith [backtick; backtick] s.
Proof. reflexivity. Qed.

(** No fence is left after the substitution. *)
Lemma sub_fences_no_fence (n : nat) :
  ∀ s : str, (length s <= n)%nat -> contains fence (re_sub_fences s) = false.
Proof.
  induction n as [|n IH]; intros s Hn.
  { destruct s; [reflexivity|cbn [length] in Hn; lia]. }
  destruct (startswith fence_json s) eqn:Ej.
  { apply startswith_app in Ej as [r ->]. rewrite sub_fences_json.
    apply IH. rewrite length_app in Hn.
    change (length fence_json) with 7%nat in Hn. lia. }
  destruct (startswith fence s) eqn:Ef.
  { apply startswith_app in Ef as [r ->].
    rewrite sub_fences_plain.
    assert (startswith (lit "json") r = false) as ->.
    { destruct (startswith (lit "json") r) eqn:E; [|done].
      apply startswith_app in E as [r' ->]. discriminate Ej. }
    apply IH. rewrite length_app in Hn.
    change (length fence) with 3%nat in Hn. lia. }
  destruct s as [|c s]; [reflexivity|]. cbn [length] in Hn.
  rewrite sub_fences_keep by done.
  cbn [contains]. rewrite (IH s) by lia. rewrite orb_false_r.
  destruct (decide (c = backtick)) as [->|Hc];
    [|by apply startswith_fence_head].
  rewrite startswith_fence_ticks in Ef |- *.
  destruct s as [|x s]; [reflexivity|].
  destruct (decide (x = backtick)) as [->|Hx].
  - destruct s as [|y s]; [reflexivity|].
    assert (y ≠ backtick) as Hy.
    { intros ->. discriminate Ef. }
    rewrite sub_fences_keep.
    + rewrite sub_fences_head by done. cbn [startswith].
      apply N.eqb_neq in Hy. rewrite N.eqb_sym in Hy.
      unfold backtick in *. rewrite Hy. by rewrite andb_false_r.
    + rewrite startswith_fence_ticks. cbn [startswith].
      apply N.eqb_neq in Hy. rewrite N.eqb_sym in Hy.
      unfold backtick in *. by rewrite Hy.
  - rewrite sub_fences_head by done. cbn [startswith].
    apply N.eqb_neq in Hx. rewrite N.eqb_sym in Hx.
    unfold backtick in *. by rewrite Hx.
Qed.

Lemma lstrip_suffix (s : str) : ∃ a, s = a ++ lstrip s.
Proof.
  induction s as [|c s [a IH]]; [by exists []|].
  cbn [lstrip]. destruct (isspace c).
  - exists (c :: a). cbn [app]. by rewrite <- IH.
  - by exists [].
Qed.

(** Trimming keeps a piece of the text. *)
Lemma strip_substring (s : str) : substring (strip s) s.
Proof.
  unfold strip, rstrip.
  destruct (lstrip_suffix s) as [a Ha].
  destruct (lstrip_suffix (rev (lstrip s))) as [b Hb].
  exists a, (rev b). rewrite Ha at 1. f_equal.
  rewrite <- (rev_involutive (lstrip s)) at 1. rewrite Hb at 1.
  by rewrite rev_app_distr.
Qed.

Lemma substring_trans (t s u : str) :
  substring t s -> substring s u -> substring t u.
Proof.
  intros (a & b & ->) (a' & b' & ->). exists (a' ++ a), (b ++ b').
  by rewrite <- !app_assoc.
Qed.

(** No fence is left in the cleaned text. *)
Lemma cleaned_no_fence (result : str) : contains fence (cleaned result) = false.
Proof.
  unfold cleaned.
  destruct (contains fence (strip (re_sub_fences result))) eqn:E; [|done].
  apply contains_substring in E.
  pose proof (substring_trans _ _ _ E (strip_substring _)) as H.
  apply contains_substring in H.
  by rewrite (sub_fences_no_fence _ _ (le_n _)) in H.
Qed.

(** C1, as stated: a fence inside a JSON string value would be left
    untouched.  The response has no leading or trailing fence, so stripping
    one pair leaves it as it is; the code deletes the fence inside the
    value. *)
Lemma inner_fence_not_kept :
  strip_fence_pair inner_fence_response = inner_fence_response
  ∧ cleaned inner_fence_response = qlit "{~a~: ~~}"
  ∧ cleaned inner_fence_response ≠ strip_fence_pair inner_fence_response.
Proof. split; [reflexivity|]. split; [reflexivity|]. discriminate. Qed.

(** Only the tag [json] is deleted with its fence. *)
Example other_tag_kept :
  cleaned (lit "```python" ++ nl ++ lit "{}" ++ nl ++ lit "```")
  = lit "python" ++ nl ++ lit "{}".
Proof. reflexivity. Qed.

(** C1, amended.  Before decoding, every fence, with the tag [json] when
    it follows, is deleted wherever it stands in the response, and the rest
    is trimmed.  No fence is left in the cleaned text of any response; a
    fence after text without backticks is deleted like a leading one; text
    without a fence is only trimmed; and a body without a fence wrapped in
    one pair of fences, with the tag [json] or without a tag, is reduced
    to the trimmed body. *)
Theorem cleaned_deletes_every_fence (result before after body : str) :
  contains [backtick] before = false ->
  contains fence body = false ->
  contains fence (cleaned result) = false
  ∧ cleaned (before ++ fence_json ++ after)
    = strip (before ++ re_sub_fences after)
  ∧ cleaned (before ++ fence ++ after)
    = strip (before ++ re_sub_fences
                         (if startswith (lit "json") after
                          then drop 4 after else after))
  ∧ cleaned body = strip body
  ∧ cleaned (fence_json ++ body ++ fence) = strip body
  ∧ cleaned (fence ++ body ++ fence)
    = strip (if startswith (lit "json") body then drop 4 body else body).
Proof.
  intros Hbefore Hbody. split; [apply cleaned_no_fence|].
  unfold cleaned. repeat split.
  - by rewrite sub_fences_copy, sub_fences_json.
  - by rewrite sub_fences_copy, sub_fences_plain.
  - by rewrite sub_fences_clean.
  - by rewrite sub_fences_json, sub_fences_closing.
  - rewrite (sub_fences_plain (body ++ fence)).
    destruct (startswith (lit "json") body) eqn:E.
    + apply startswith_app in E as [r ->].
      change (startswith (lit "json") ((lit "json" ++ r) ++ fence)) with true.
      cbn iota. change (drop 4 ((lit "json" ++ r) ++ fence)) with (r ++ fence).
      change (drop 4 (lit "json" ++ r)) with r.
      rewrite sub_fences_closing; [done|].
      destruct (contains fence r) eqn:Er; [|done].
      apply contains_substring in Er as (x & y & ->).
      assert (contains fence (lit "json" ++ x ++ fence ++ y) = true) as Hc.
      { apply contains_substring. exists (lit "json" ++ x), y.
        by rewrite <- !app_assoc. }
      congruence.
    + assert (startswith (lit "json") (body ++ fence) = false) as ->.
      { destruct body as [|a [|b [|c [|d body]]]]; try reflexivity.
        - cbn in E |- *. by destruct (106 =? a).
        - cbn in E |- *. destruct (106 =? a); [|done]. by destruct (115 =? b).
        - cbn in E |- *. destruct (106 =? a); [|done].
          destruct (115 =? b); [|done]. by destruct (111 =? c).
        - exact E. }
      by rewrite sub_fences_closing.
Qed.

Lemma cleaned_deletes_every_fence_witness :
  contains [backtick] (lit "Here: ") = false
  ∧ contains fence (qlit "{~rating~:~Hold~}") = false
  ∧ contains fence (cleaned inner_fence_response) = false
  ∧ cleaned (lit "Here: " ++ fence_json ++ lit " x")
    = strip (lit "Here: " ++ re_sub_fences (lit " x"))
  ∧ cleaned (lit "Here: " ++ fence ++ lit " x")
    = strip (lit "Here: " ++ re_sub_fences
                               (if startswith (lit "json") (lit " x")
                                then drop 4 (lit " x") else lit " x"))
  ∧ cleaned (qlit "{~rating~:~Hold~}") = strip (qlit "{~rating~:~Hold~}")
  ∧ cleaned (fence_json ++ qlit "{~rating~:~Hold~}" ++ fence)
    = strip (qlit "{~rating~:~Hold~}")
  ∧ cleaned (fence ++ qlit "{~rating~:~Hold~}" ++ fence)
    = strip (if startswith (lit "json") (qlit "{~rating~:~Hold~}")
             then drop 4 (qlit "{~rating~:~Hold~}")
             else qlit "{~rating~:~Hold~}").
Proof.
  split; [reflexivity|]. split; [reflexivity|].
  apply (cleaned_deletes_every_fence inner_fence_response (lit "Here: ")
           (lit " x") (qlit "{~rating~:~Hold~}")); reflexivity.
Defined.

End Cleaning.

(** ** Response Parser: decoding *)

Section Decoding.

Implicit Types (result : str) (w : World) (v : value).

(** C9, amended.  When [json.loads] raises its decode error on the cleaned
    response, [parse_json_response] returns [None] instead of raising,
    after reporting the error and then showing the raw response as it was
    received; nothing else happens: no request is sent and no file is
    touched.  This is what happens on a text that is no JSON unless the
    decoder meets a limit of the interpreter before it meets the error. *)
Theorem parse_reports_decode_error result w :
  Json.loads (cleaned result) = Raise JSONDecodeError ->
  parse_json_response result w
  = (Return PyNone,
     with_screen
       (screen w ++ [st_error (lit "JSON parse error"); st_text result]) w).
Proof.
  intros H. unfold parse_json_response, try_except, lift. rewrite H.
  unfold mbind, M_bind, st_error_, st_text_, mret, M_ret, with_screen.
  cbn [screen files handles posted remote]. by rewrite <- app_assoc.
Qed.

Lemma parse_reports_decode_error_witness :
  Json.loads (cleaned (lit "not json")) = Raise JSONDecodeError
  ∧ parse_json_response (lit "not json") sample_world
    = (Return PyNone,
       with_screen
         (screen sample_world
            ++ [st_error (lit "JSON parse error"); st_text (lit "not json")])
         sample_world).
Proof.
  split; [reflexivity|].
  apply (parse_reports_decode_error (lit "not json") sample_world). reflexivity.
Defined.

Lemma parse_returns result v w :
  Json.loads (cleaned result) = Return v ->
  parse_json_response result w = (Return v, w).
Proof.
  intros H. unfold parse_json_response, try_except, lift. by rewrite H.
Qed.

(** C10.  Whatever value the cleaned response decodes to, an object or
    not, [parse_json_response] returns it and reports nothing. *)
Theorem parse_returns_any_value result v w :
  Json.loads (cleaned result) = Return v ->
  parse_json_response result w = (Return v, w).
Proof.
  intros Hvalue. unfold parse_json_response.
  unfold try_except, lift. rewrite Hvalue. reflexivity.
Qed.

Lemma parse_returns_any_value_witness :
  Json.loads (cleaned (qlit "[1, ~two~, 3.5, true, null]"))
    = Return (PyList [PyInt 1; PyStr (lit "two"); PyFloat (lit "3.5");
                      PyBool true; PyNone])
  ∧ parse_json_response (qlit "[1, ~two~, 3.5, true, null]") sample_world
    = (Return (PyList [PyInt 1; PyStr (lit "two"); PyFloat (lit "3.5");
                       PyBool true; PyNone]),
       sample_world).
Proof.
  split; [reflexivity|].
  apply (parse_returns_any_value (qlit "[1, ~two~, 3.5, true, null]")).
  reflexivity.
Defined.

(** Another exception of the decoder is not caught. *)
Lemma parse_raises result (e : exception) w :
  Json.loads (cleaned result) = Raise e ->
  e ≠ JSONDecodeError ->
  parse_json_response result w = (Raise e, w).
Proof.
  intros H He. unfold parse_json_response, try_except, lift. rewrite H.
  by destruct e.
Qed.

(** A number, a string, a boolean and [null] on their own. *)
Example parse_scalars :
  (parse_json_response (lit "-12") sample_world).1 = Return (PyInt (-12))
  ∧ (parse_json_response (qlit "~Buy~") sample_world).1 = Return (PyStr (lit "Buy"))
  ∧ (parse_json_response (lit "false") sample_world).1 = Return (PyBool false)
  ∧ parse_json_response (lit "null") sample_world = (Return PyNone, sample_world).
Proof. repeat split. Qed.

(** The scenario of the specification: a fenced answer. *)
Example parse_fenced_answer :
  parse_json_response
    (lit "```json" ++ nl ++ qlit "{~rating~:~Hold~}" ++ nl ++ lit "```")
    sample_world
  = (Return (PyDict [(lit "rating", PyStr (lit "Hold"))]), sample_world).
Proof. reflexivity. Qed.

End Decoding.

(** ** Extraction Client *)

Section ClientProperties.

Variable str_of_exception : exception -> str.

(** C8, amended.  When the transport delivers a response, [query_gemini]
    sends exactly one request and then does one of three things.  On a
    status that is not a success it reports the status code, shows the
    response body and returns [None].  On a success whose envelope cannot
    be read down to the text (the body is no JSON, or a key or an index is
    missing) it reports the message of the exception and returns [None].
    Otherwise it returns the text and reports nothing.  So a failure is
    reported exactly in the first two cases, while [None] is returned in
    these two cases and also when the text of the envelope is [null]. *)
Theorem query_gemini_outcomes (prompt api_key : str) (w : World)
    (response : Response) :
  remote w (gemini_request prompt api_key) = Return response ->
  ∃ (returned : value) (reported : list st_call),
    query_gemini str_of_exception prompt api_key w
      = (Return returned,
         with_screen (screen w ++ reported)
           (with_posted (posted w ++ [gemini_request prompt api_key]) w))
    ∧ match ok response, envelope_text response with
      | false, _ =>
          returned = PyNone
          ∧ reported
            = [st_error (lit "Gemini API Error: "
                           ++ str_of_nat (status_code response));
               st_text (text response)]
      | true, Raise e =>
          returned = PyNone
          ∧ reported
            = [st_error (lit "Parsing Gemini response failed: "
                           ++ str_of_exception e)]
      | true, Return v => returned = v ∧ reported = []
      end
    ∧ (reported ≠ [] <->
       ok response = false ∨ ∃ e, envelope_text response = Raise e)
    ∧ (returned = PyNone <->
       ok response = false
       ∨ (∃ e, envelope_text response = Raise e)
       ∨ envelope_text response = Return PyNone).
Proof.
  intros Hremote. unfold query_gemini.
  unfold mbind at 1, M_bind at 1. unfold requests_post.
  fold (gemini_request prompt api_key). rewrite Hremote.
  destruct (ok response) eqn:Hok.
  - unfold mbind at 1, M_bind at 1. unfold try_except.
    unfold mbind at 1, M_bind at 1. unfold lift.
    destruct (envelope_text response) as [v|e] eqn:Henv.
    + exists v, []. split; [|split; [|split]].
      * unfold mret, M_ret, with_screen, with_posted.
        cbn [screen files handles posted remote]. by rewrite app_nil_r.
      * done.
      * split; [done|]. intros [?|[e ?]]; congruence.
      * split; [intros ->; by right; right|].
        intros [?|[[e ?]|?]]; congruence.
    + eexists PyNone, _. split; [|split; [|split]].
      * unfold mbind, M_bind, st_error_, mret, M_ret, with_screen, with_posted.
        cbn [screen files handles posted remote]. reflexivity.
      * done.
      * split; [eauto|done].
      * split; [eauto|done].
  - eexists PyNone, _. split; [|split; [|split]].
    + unfold mbind, M_bind, st_error_, st_text_, mret, M_ret, with_screen,
        with_posted. cbn [screen files handles posted remote].
      rewrite <- app_assoc. reflexivity.
    + done.
    + split; [eauto|done].
    + split; [eauto|done].
Qed.

End ClientProperties.

(** C8, as stated: [None] would be returned exactly when the status is not
    a success or a field of the envelope is missing.  Here the status is
    200 and every field is there, the text being [null]: [None] is
    returned, the value of the failures, and nothing is reported. *)
Lemma null_text_returns_none :
  ok null_text_response = true
  ∧ envelope_text null_text_response = Return PyNone
  ∧ query_gemini (fun _ => []) (lit "prompt") (lit "key")
      (answering null_text_response)
    = (Return PyNone,
       with_posted [gemini_request (lit "prompt") (lit "key")]
         (answering null_text_response))
  ∧ ¬ (ok null_text_response = false
       ∨ ∃ e, envelope_text null_text_response = Raise e).
Proof.
  split; [reflexivity|]. split; [reflexivity|]. split; [reflexivity|].
  intros [H|[e H]]; discriminate H.
Qed.

Lemma query_gemini_outcomes_witness :
  remote (answering (mkResponse 500 (lit "quota")))
    (gemini_request (lit "prompt") (lit "key"))
    = Return (mkResponse 500 (lit "quota"))
  ∧ query_gemini (fun _ => []) (lit "prompt") (lit "key")
      (answering (mkResponse 500 (lit "quota")))
    = (Return PyNone,
       with_screen
         [st_error (lit "Gemini API Error: 500"); st_text (lit "quota")]
         (with_posted [gemini_request (lit "prompt") (lit "key")]
            (answering (mkResponse 500 (lit "quota"))))).
Proof.
  split; [reflexivity|].
  destruct (query_gemini_outcomes (fun _ => []) (lit "prompt") (lit "key")
              (answering (mkResponse 500 (lit "quota")))
              (mkResponse 500 (lit "quota")) eq_refl)
    as (returned & reported & -> & [-> ->] & _).
  reflexivity.
Defined.

(** The three outcomes on sample responses, and a transport that fails. *)
Example query_gemini_text :
  query_gemini (fun _ => lit "?") (lit "prompt") (lit "key")
    (answering (mkResponse 200
       (qlit "{~candidates~: [{~content~: {~parts~: [{~text~: ~{}~}]}}]}")))
  = (Return (PyStr (lit "{}")),
     with_posted [gemini_request (lit "prompt") (lit "key")]
       (answering (mkResponse 200
          (qlit "{~candidates~: [{~content~: {~parts~: [{~text~: ~{}~}]}}]}")))).
Proof. reflexivity. Qed.

Example query_gemini_no_candidates :
  (query_gemini (fun _ => lit "?") (lit "prompt") (lit "key")
     (answering (mkResponse 200 (qlit "{~candidates~: []}")))).1
  = Return PyNone
  ∧ envelope_text (mkResponse 200 (qlit "{~candidates~: []}")) = Raise IndexError.
Proof. split; reflexivity. Qed.

Example query_gemini_transport_raises :
  (query_gemini (fun _ => lit "?") (lit "prompt") (lit "key") sample_world).1
  = Raise ConnectionError.
Proof. reflexivity. Qed.

(** ** The upload loop *)

Section Uploads.

Implicit Types (w : World) (file : Payload) (acc : str * list Table).

(** A loop whose turns leave the world as it is leaves it as it is. *)
Lemma for_in_world {A S} (body : A -> S -> M S) :
  (∀ x s w, (body x s w).2 = w) ->
  ∀ (l : list A) (s : S) w, (for_in l body s w).2 = w.
Proof.
  intros Hbody l. induction l as [|x l IH]; intros s w; [reflexivity|].
  cbn [for_in]. unfold mbind, M_bind.
  specialize (Hbody x s w). destruct (body x s w) as [[s'|e] w'].
  - cbn [snd] in Hbody. subst w'. apply IH.
  - exact Hbody.
Qed.

(** If, besides, the turns do not look at the world, neither does the
    loop. *)
Lemma for_in_blind {A S} (body : A -> S -> M S) :
  (∀ x s w, (body x s w).2 = w) ->
  (∀ x s w w', (body x s w).1 = (body x s w').1) ->
  ∀ (l : list A) (s : S) w w', (for_in l body s w).1 = (for_in l body s w').1.
Proof.
  intros Hworld Hblind l. induction l as [|x l IH]; intros s w w'; [reflexivity|].
  cbn [for_in]. unfold mbind, M_bind.
  pose proof (Hworld x s w) as H1. pose proof (Hworld x s w') as H2.
  pose proof (Hblind x s w w') as H3.
  destruct (body x s w) as [[s1|e1] w1], (body x s w') as [[s2|e2] w2];
    cbn [fst snd] in *; subst; try congruence.
  injection H3 as ->. apply IH.
Qed.

(** The reader changes nothing in the world, whether it returns or
    raises. *)
Lemma extract_world (pdf_path : nat) w :
  (extract_text_and_tables pdf_path w).2 = w.
Proof.
  unfold extract_text_and_tables, mbind at 1, M_bind at 1, pdfplumber_open.
  destruct (files w !! pdf_path) as [[e|pages]|]; try reflexivity.
  apply for_in_world. intros [i page] [full_text all_tables] w'.
  unfold page_turn, mbind, M_bind, lift.
  destruct (extract_text page); [|reflexivity].
  destruct (extract_tables page) as [[|t ts]|]; reflexivity.
Qed.

(** What the reader gives depends on the file alone. *)
Lemma extract_blind (pdf_path pdf_path' : nat) w w' :
  files w !! pdf_path = files w' !! pdf_path' ->
  (extract_text_and_tables pdf_path w).1
  = (extract_text_and_tables pdf_path' w').1.
Proof.
  intros Hfile. unfold extract_text_and_tables, pdfplumber_open.
  unfold mbind, M_bind. rewrite Hfile.
  destruct (files w' !! pdf_path') as [[e|pages]|]; try reflexivity.
  apply for_in_blind.
  - intros [i page] [full_text all_tables] w1.
    unfold page_turn, mbind, M_bind, lift.
    destruct (extract_text page); [|reflexivity].
    destruct (extract_tables page) as [[|t ts]|]; reflexivity.
  - intros [i page] [full_text all_tables] w1 w2.
    unfold page_turn, mbind, M_bind, lift.
    destruct (extract_text page); [|reflexivity].
    destruct (extract_tables page) as [[|t ts]|]; reflexivity.
Qed.

Lemma extract_reading (pdf_path : nat) w file :
  files w !! pdf_path = Some file ->
  extract_text_and_tables pdf_path w = (reading file, w).
Proof.
  intros Hfile.
  rewrite (surjective_pairing (extract_text_and_tables pdf_path w)).
  rewrite extract_world. f_equal. unfold reading.
  apply extract_blind. cbn [files]. by rewrite Hfile, lookup_singleton_eq.
Qed.

Lemma reading_readable (contents : list (option str * list Table)) :
  reading (readable_pdf contents)
  = Return (flattened contents, concat (List.map snd contents)).
Proof.
  unfold reading. rewrite (extract_readable contents); [reflexivity|].
  apply lookup_singleton_eq.
Qed.

Lemma files_after_upload file w :
  files (after_upload file w) = <[fresh (dom (files w)) := file]> (files w).
Proof. reflexivity. Qed.


(** One turn of the loop: the upload is copied, the copy is closed and
    read. *)
Lemma upload_turn_eq file acc w (uploaded_files : list Payload) :
  for_in (file :: uploaded_files) upload_turn acc w
  = match reading file with
    | Return (text_content, table_data) =>
        for_in uploaded_files upload_turn
          (acc.1 ++ text_content ++ nl ++ nl, acc.2 ++ table_data)
          (after_upload file w)
    | Raise e => (Raise e, after_upload file w)
    end.
Proof.
  destruct acc as [all_text all_tables_combined].
  cbn [for_in]. unfold mbind at 1, M_bind at 1. unfold upload_turn at 1.
  unfold mbind at 1, M_bind at 1. unfold NamedTemporaryFile_keep.
  unfold mbind at 1, M_bind at 1. unfold tmp_write.
  unfold mbind at 1, M_bind at 1. unfold tmp_close.
  unfold mbind at 1, M_bind at 1.
  match goal with
  | |- context [extract_text_and_tables _ ?w1] =>
      replace w1 with (after_upload file w)
  end.
  - rewrite (extract_reading _ _ file)
      by (rewrite files_after_upload; apply lookup_insert_eq).
    by destruct (reading file) as [[text_content table_data]|e].
  - unfold after_upload, with_handles, with_files.
    cbn [files handles screen posted remote]. f_equal.
    + by rewrite insert_insert_eq.
    + apply set_eq. intros name.
      rewrite !elem_of_difference, elem_of_union. tauto.
Qed.

(** The loop over uploads that can be read appends, for each, its text
    followed by two line feeds, and its tables. *)
Lemma uploads_loop_returns (uploaded_files : list Payload)
    (readings : list (str * list Table)) :
  Forall2 (fun file r => reading file = Return r) uploaded_files readings ->
  ∀ (later : list Payload) acc w,
    for_in (uploaded_files ++ later) upload_turn acc w
    = for_in later upload_turn
        (acc.1 ++ concat (List.map (fun r => r.1 ++ nl ++ nl) readings),
         acc.2 ++ concat (List.map snd readings))
        (after_uploads uploaded_files w).
Proof.
  induction 1 as [|file [text_content table_data] uploaded_files readings Hr _ IH];
    intros later acc w.
  - destruct acc. cbn [List.map concat app fst snd after_uploads fold_left].
    by rewrite !app_nil_r.
  - cbn [app]. rewrite upload_turn_eq, Hr, IH.
    cbn [fst snd List.map concat after_uploads fold_left].
    by rewrite <- !app_assoc.
Qed.

(** Whatever the uploads are, the loop leaves the world as the copies of
    the uploads it got to have left it. *)
Lemma uploads_loop_world (uploaded_files : list Payload) :
  ∀ acc w,
    ∃ k : nat,
      (for_in uploaded_files upload_turn acc w).2
      = after_uploads (take k uploaded_files) w
      ∧ match
          (for_in uploaded_files upload_turn acc w).1
        with
        | Return _ => k = length uploaded_files
        | Raise _ => (0 < k ≤ length uploaded_files)%nat
        end.
Proof.
  induction uploaded_files as [|file uploaded_files IH]; intros acc w.
  - exists 0%nat. split; reflexivity.
  - rewrite upload_turn_eq.
    destruct (reading file) as [[text_content table_data]|e].
    + destruct (IH (acc.1 ++ text_content ++ nl ++ nl, acc.2 ++ table_data)
                  (after_upload file w)) as (k & Hw & Hk).
      exists (S k). split; [exact Hw|].
      destruct (for_in _ _ _ _).1; cbn [length]; lia.
    + exists 1%nat. split; [by destruct uploaded_files|]. cbn [fst length]. lia.
Qed.

Lemma process_uploads_world (uploaded_files : list Payload) w :
  ∃ k : nat,
    (process_uploads uploaded_files w).2 = after_uploads (take k uploaded_files) w
    ∧ match (process_uploads uploaded_files w).1 with
      | Return _ => k = length uploaded_files
      | Raise _ => (0 < k ≤ length uploaded_files)%nat
      end.
Proof. exact (uploads_loop_world uploaded_files ([], []) w). Qed.


(** C3, as stated: a file that cannot be read would cost only its own
    contribution.  Here the first upload is readable and the second is
    not: the exception leaves the loop, and no combined text comes back. *)
Lemma unreadable_upload_aborts_loop :
  (process_uploads
     [readable_pdf sample_contents; Unreadable (PdfError (lit "no PDF"))]
     sample_world).1
  = Raise (PdfError (lit "no PDF"))
  ∧ ¬ ∃ (all_text : str) (all_tables_combined : list Table),
        (process_uploads
           [readable_pdf sample_contents; Unreadable (PdfError (lit "no PDF"))]
           sample_world).1
        = Return (all_text, all_tables_combined).
Proof.
  assert ((process_uploads
             [readable_pdf sample_contents; Unreadable (PdfError (lit "no PDF"))]
             sample_world).1
          = Raise (PdfError (lit "no PDF"))) as H by (by vm_compute).
  split; [exact H|]. rewrite H. intros (? & ? & ?). discriminate.
Qed.

(** C3, amended.  The exception of a file that pdfplumber cannot open or
    parse is not caught: it leaves [extract_text_and_tables] and the
    upload loop.  If the uploads before that file can be read, the loop
    raises the exception of that file, and so does the building of the
    prompt: no combined text exists, and the contributions read so far are
    lost with it.  Without such a file the combined text is the text of
    each upload followed by two line feeds, in upload order. *)
Theorem failed_read_raises (before : list Payload)
    (readings : list (str * list Table)) (file : Payload) (e : exception)
    (later : list Payload) (w : World) :
  Forall2 (fun file r => reading file = Return r) before readings ->
  reading file = Raise e ->
  (process_uploads (before ++ file :: later) w).1 = Raise e
  ∧ (default_prompt (before ++ file :: later) w).1 = Raise e
  ∧ (process_uploads before w).1
    = Return (concat (List.map (fun r => r.1 ++ nl ++ nl) readings),
              concat (List.map snd readings)).
Proof.
  intros Hbefore Hfile.
  assert ((process_uploads (before ++ file :: later) w).1 = Raise e) as Hraise.
  { unfold process_uploads.
    rewrite (uploads_loop_returns before readings Hbefore), upload_turn_eq.
    by rewrite Hfile. }
  split; [exact Hraise|]. split.
  - unfold default_prompt, mbind, M_bind.
    destruct (process_uploads _ w) as [[[all_text tables]|e'] w'];
      cbn [fst] in *; congruence.
  - unfold process_uploads.
    rewrite <- (app_nil_r before).
    rewrite (uploads_loop_returns before readings Hbefore). reflexivity.
Qed.

Lemma failed_read_raises_witness :
  Forall2 (fun file r => reading file = Return r)
    [readable_pdf sample_contents]
    [(flattened sample_contents, concat (List.map snd sample_contents))]
  ∧ reading (Pdf [raising_page]) = Raise (PdfError (lit "bad page"))
  ∧ (process_uploads
       ([readable_pdf sample_contents] ++ Pdf [raising_page] :: [])
       sample_world).1
    = Raise (PdfError (lit "bad page"))
  ∧ (default_prompt
       ([readable_pdf sample_contents] ++ Pdf [raising_page] :: [])
       sample_world).1
    = Raise (PdfError (lit "bad page"))
  ∧ (process_uploads [readable_pdf sample_contents] sample_world).1
    = Return
        (concat
           (List.map (fun r => r.1 ++ nl ++ nl)
              [(flattened sample_contents,
                concat (List.map snd sample_contents))]),
         concat
           (List.map snd
              [(flattened sample_contents,
                concat (List.map snd sample_contents))])).
Proof.
  assert (Forall2 (fun file r => reading file = Return r)
            [readable_pdf sample_contents]
            [(flattened sample_contents, concat (List.map snd sample_contents))])
    as Hbefore by (repeat constructor).
  split; [exact Hbefore|]. split; [reflexivity|].
  apply (failed_read_raises _ _ _ _ [] sample_world Hbefore). reflexivity.
Defined.



(** The scenario of the specification: one page of text, no table. *)
Example one_page_prompt :
  (default_prompt
     [readable_pdf [(Some (lit "Rating: Buy, CMP: 100, TP: 150"), [])]]
     sample_world).1
  = Return
      (create_prompt
         (nl ++ lit "--- Page 1 Text ---" ++ nl
             ++ lit "Rating: Buy, CMP: 100, TP: 150" ++ nl ++ nl)).
Proof. by vm_compute. Qed.

End Uploads.

(** ** The [json] module: fuel *)

Section Fuel.

Import Json.

Lemma skip_ws_length (s : str) : (length (skip_ws s) <= length s)%nat.
Proof.
  induction s as [|c s IH]; [done|]. cbn [skip_ws].
  destruct (is_ws c); cbn [length]; lia.
Qed.

Lemma push_Some (c : N) (scanned : option (str * str)) (t r : str) :
  push c scanned = Some (t, r) ->
  ∃ t', scanned = Some (t', r) ∧ t = c :: t'.
Proof.
  destruct scanned as [[t' r']|]; [|discriminate].
  cbn [push]. intros [= <- <-]. by exists t'.
Qed.

(** [scanstring] consumes at least the closing quote. *)
Lemma scanstring_length (n : nat) :
  ∀ (s t r : str),
    (length s <= n)%nat -> scanstring s = Some (t, r) ->
    (length r < length s)%nat.
Proof.
  induction n as [|n IH]; intros s t r Hn H.
  { destruct s; [discriminate|cbn [length] in Hn; lia]. }
  destruct s as [|c s]; [discriminate|]. cbn [scanstring] in H.
  cbn [length] in Hn |- *.
  destruct (c =? 34). { injection H as <- <-. lia. }
  destruct (c =? 92).
  - destruct s as [|e s]; [discriminate|]. cbn [length] in Hn |- *.
    destruct (e =? 117).
    + destruct s as [|a [|b [|c' [|d s]]]]; try discriminate.
      cbn [length] in Hn |- *.
      destruct (hex4 a b c' d) as [u|]; [|discriminate].
      destruct (is_high_surrogate u).
      * destruct s as [|x s].
        { apply push_Some in H as (t' & H & _). discriminate. }
        destruct (x =? 92).
        2:{ apply push_Some in H as (t' & H & _).
            apply IH in H; cbn [length] in *; lia. }
        destruct s as [|y s].
        { apply push_Some in H as (t' & H & _).
          apply IH in H; cbn [length] in *; lia. }
        destruct (y =? 117).
        2:{ apply push_Some in H as (t' & H & _).
            apply IH in H; cbn [length] in *; lia. }
        destruct s as [|a' [|b' [|c'' [|d' s]]]];
          try (apply push_Some in H as (t' & H & _);
               apply IH in H; cbn [length] in *; lia).
        destruct (hex4 a' b' c'' d') as [lo|].
        2:{ apply push_Some in H as (t' & H & _).
            apply IH in H; cbn [length] in *; lia. }
        destruct (is_low_surrogate lo);
          apply push_Some in H as (t' & H & _);
          apply IH in H; cbn [length] in *; lia.
      * apply push_Some in H as (t' & H & _). apply IH in H; lia.
    + destruct (simple_escape e); [|discriminate].
      apply push_Some in H as (t' & H & _). apply IH in H; lia.
  - destruct (c <? 32); [discriminate|].
    apply push_Some in H as (t' & H & _). apply IH in H; lia.
Qed.

Lemma span_digits_length (s ds r : str) :
  span_digits s = (ds, r) -> (length r <= length s)%nat.
Proof.
  revert ds r. induction s as [|c s IH]; intros ds r H.
  - injection H as <- <-. done.
  - cbn [span_digits] in H. destruct (is_digit c).
    + destruct (span_digits s) as [ds' r'] eqn:E. injection H as <- <-.
      specialize (IH _ _ eq_refl). cbn [length]. lia.
    + injection H as <- <-. done.
Qed.

Lemma match_integer_length (s ds r : str) :
  match_integer s = Some (ds, r) -> (length r < length s)%nat.
Proof.
  destruct s as [|c s]; [discriminate|]. unfold match_integer.
  destruct (c =? 48). { intros [= <- <-]. cbn [length]. lia. }
  destruct (is_digit c) eqn:Ed; [|discriminate].
  cbn [span_digits]. rewrite Ed.
  destruct (span_digits s) as [ds' r'] eqn:Es. intros [= <- <-].
  apply span_digits_length in Es. cbn [length]. lia.
Qed.

Lemma match_fraction_length (s frac r : str) :
  match_fraction s = (frac, r) -> (length r <= length s)%nat.
Proof.
  destruct s as [|c s]; [by intros [= <- <-]|]. unfold match_fraction.
  destruct (c =? 46); [|by intros [= <- <-]].
  destruct (span_digits s) as [[|d ds] r'] eqn:Es; intros [= <- <-]; [done|].
  apply span_digits_length in Es. cbn [length]. lia.
Qed.

Lemma match_exponent_length (s exp r : str) :
  match_exponent s = (exp, r) -> (length r <= length s)%nat.
Proof.
  destruct s as [|e s]; [by intros [= <- <-]|]. unfold match_exponent.
  destruct ((e =? 101) || (e =? 69)); [|by intros [= <- <-]].
  destruct s as [|c s].
  - cbn [span_digits]. by intros [= <- <-].
  - destruct ((c =? 43) || (c =? 45)).
    + destruct (span_digits s) as [[|d ds] r'] eqn:Es; intros [= <- <-]; [done|].
      apply span_digits_length in Es. cbn [length]. lia.
    + destruct (span_digits (c :: s)) as [[|d ds] r'] eqn:Es;
        intros [= <- <-]; [done|].
      apply span_digits_length in Es. cbn [length] in *. lia.
Qed.

Lemma match_number_length (s r : str) (v : value) :
  match_number s = Return (v, r) -> (length r < length s)%nat.
Proof.
  unfold match_number.
  set (sign := match s with
               | c :: r => if c =? 45 then (true, r) else (false, s)
               | [] => (false, s)
               end).
  assert (length sign.2 <= length s)%nat as Hsign.
  { subst sign. destruct s as [|c s]; [done|].
    destruct (c =? 45); cbn [snd length]; lia. }
  destruct sign as [neg s1]. cbn [snd] in Hsign.
  destruct (match_integer s1) as [[ds r0]|] eqn:Hi; [|discriminate].
  apply match_integer_length in Hi.
  destruct (match_fraction r0) as [frac r1] eqn:Hf.
  apply match_fraction_length in Hf.
  destruct (match_exponent r1) as [exp r2] eqn:He.
  apply match_exponent_length in He.
  destruct frac, exp; try (intros [= <- <-]; lia).
  destruct (max_str_digits <? length ds)%nat; [discriminate|].
  intros [= <- <-]. lia.
Qed.

Lemma startswith_drop (p s : str) :
  startswith p s = true -> p ≠ [] ->
  (length (drop (length p) s) < length s)%nat.
Proof.
  intros H Hp. apply startswith_app in H as [r ->].
  rewrite drop_app_length, length_app. destruct p; [done|cbn [length]; lia].
Qed.

Lemma match_constant_length (s r : str) (v : value) :
  match_constant s = Return (v, r) -> (length r < length s)%nat.
Proof.
  unfold match_constant.
  destruct (startswith (lit "null") s) eqn:E1.
  { intros [= <- <-]. by apply (startswith_drop (lit "null")). }
  destruct (startswith (lit "true") s) eqn:E2.
  { intros [= <- <-]. by apply (startswith_drop (lit "true")). }
  destruct (startswith (lit "false") s) eqn:E3.
  { intros [= <- <-]. by apply (startswith_drop (lit "false")). }
  destruct (startswith (lit "NaN") s) eqn:E4.
  { intros [= <- <-]. by apply (startswith_drop (lit "NaN")). }
  destruct (startswith (lit "Infinity") s) eqn:E5.
  { intros [= <- <-]. by apply (startswith_drop (lit "Infinity")). }
  destruct (startswith (lit "-Infinity") s) eqn:E6.
  { intros [= <- <-]. by apply (startswith_drop (lit "-Infinity")). }
  apply match_number_length.
Qed.

(** Every scanner consumes input. *)
Lemma scan_length (fuel : nat) :
  (∀ depth s v r,
     scan_once fuel depth s = Return (v, r) -> (length r < length s)%nat)
  ∧ (∀ depth s ps r,
       parse_members fuel depth s = Return (ps, r) ->
       (length r < length s)%nat)
  ∧ (∀ depth s vs r,
       parse_elements fuel depth s = Return (vs, r) ->
       (length r < length s)%nat).
Proof.
  induction fuel as [|fuel (IHs & IHm & IHe)]; [by repeat split|].
  split; [|split].
  - intros depth s v r H. cbn [scan_once] in H.
    destruct s as [|c s]; [discriminate|]. cbn [length].
    destruct (c =? 34).
    { destruct (scanstring s) as [[t rest]|] eqn:Es; [|discriminate].
      injection H as <- <-. apply (scanstring_length _ _ _ _ (le_n _)) in Es. lia. }
    destruct (c =? 123).
    { destruct depth as [|depth]; [discriminate|].
      pose proof (skip_ws_length s) as Hws.
      destruct (skip_ws s) as [|c' rest]; [discriminate|]. cbn [length] in Hws.
      destruct (c' =? 125). { injection H as <- <-. lia. }
      destruct (parse_members fuel depth (c' :: rest)) as [[pairs rest']|]
        eqn:Em; [|discriminate].
      injection H as <- <-. apply IHm in Em. cbn [length] in Em. lia. }
    destruct (c =? 91).
    { destruct depth as [|depth]; [discriminate|].
      pose proof (skip_ws_length s) as Hws.
      destruct (skip_ws s) as [|c' rest]; [discriminate|]. cbn [length] in Hws.
      destruct (c' =? 93). { injection H as <- <-. lia. }
      destruct (parse_elements fuel depth (c' :: rest)) as [[items rest']|]
        eqn:Em; [|discriminate].
      injection H as <- <-. apply IHe in Em. cbn [length] in Em. lia. }
    apply match_constant_length in H. cbn [length] in H. lia.
  - intros depth s ps r H. cbn [parse_members] in H.
    destruct s as [|c s]; [discriminate|]. cbn [length].
    destruct (c =? 34); [|discriminate].
    destruct (scanstring s) as [[k r1]|] eqn:Es; [|discriminate].
    apply (scanstring_length _ _ _ _ (le_n _)) in Es.
    pose proof (skip_ws_length r1) as Hws1.
    destruct (skip_ws r1) as [|c1 r2]; [discriminate|]. cbn [length] in Hws1.
    destruct (c1 =? 58); [|discriminate].
    pose proof (skip_ws_length r2) as Hws2.
    destruct (scan_once fuel depth (skip_ws r2)) as [[v r3]|] eqn:Ev;
      [|discriminate].
    apply IHs in Ev.
    pose proof (skip_ws_length r3) as Hws3.
    destruct (skip_ws r3) as [|c3 r4]; [discriminate|]. cbn [length] in Hws3.
    destruct (c3 =? 125). { injection H as <- <-. lia. }
    destruct (c3 =? 44); [|discriminate].
    pose proof (skip_ws_length r4) as Hws4.
    destruct (parse_members fuel depth (skip_ws r4)) as [[pairs rest]|] eqn:Em;
      [|discriminate].
    injection H as <- <-. apply IHm in Em. lia.
  - intros depth s vs r H. cbn [parse_elements] in H.
    destruct (scan_once fuel depth s) as [[v r1]|] eqn:Ev; [|discriminate].
    apply IHs in Ev.
    pose proof (skip_ws_length r1) as Hws1.
    destruct (skip_ws r1) as [|c1 r2]; [discriminate|]. cbn [length] in Hws1.
    destruct (c1 =? 93). { injection H as <- <-. lia. }
    destruct (c1 =? 44); [|discriminate].
    pose proof (skip_ws_length r2) as Hws2.
    destruct (parse_elements fuel depth (skip_ws r2)) as [[items rest]|] eqn:Em;
      [|discriminate].
    injection H as <- <-. apply IHe in Em. lia.
Qed.

(** The equations of the scanners. *)
Lemma scan_once_eq (fuel depth : nat) (c : N) (s : str) :
  scan_once (S fuel) depth (c :: s)
  = if c =? 34 then
      match scanstring s with
      | Some (t, rest) => Return (PyStr t, rest)
      | None => Raise JSONDecodeError
      end
    else if c =? 123 then
      match depth with
      | O => Raise RecursionError
      | S depth' =>
          match skip_ws s with
          | [] => Raise JSONDecodeError
          | c' :: rest =>
              if c' =? 125 then Return (PyDict [], rest)
              else
                match parse_members fuel depth' (c' :: rest) with
                | Return (pairs, rest') =>
                    Return (PyDict (dict_of_pairs pairs), rest')
                | Raise e => Raise e
                end
          end
      end
    else if c =? 91 then
      match depth with
      | O => Raise RecursionError
      | S depth' =>
          match skip_ws s with
          | [] => Raise JSONDecodeError
          | c' :: rest =>
              if c' =? 93 then Return (PyList [], rest)
              else
                match parse_elements fuel depth' (c' :: rest) with
                | Return (items, rest') => Return (PyList items, rest')
                | Raise e => Raise e
                end
          end
      end
    else match_constant (c :: s).
Proof. reflexivity. Qed.

Lemma parse_members_eq (fuel depth : nat) (c : N) (s : str) :
  parse_members (S fuel) depth (c :: s)
  = if c =? 34 then
      match scanstring s with
      | None => Raise JSONDecodeError
      | Some (k, r1) =>
          match skip_ws r1 with
          | [] => Raise JSONDecodeError
          | c1 :: r2 =>
              if c1 =? 58 then
                match scan_once fuel depth (skip_ws r2) with
                | Raise e => Raise e
                | Return (v, r3) =>
                    match skip_ws r3 with
                    | [] => Raise JSONDecodeError
                    | c3 :: r4 =>
                        if c3 =? 125 then Return ([(k, v)], r4)
                        else if c3 =? 44 then
                          match parse_members fuel depth (skip_ws r4) with
                          | Return (pairs, rest) =>
                              Return ((k, v) :: pairs, rest)
                          | Raise e => Raise e
                          end
                        else Raise JSONDecodeError
                    end
                end
              else Raise JSONDecodeError
          end
      end
    else Raise JSONDecodeError.
Proof. reflexivity. Qed.

Lemma parse_elements_eq (fuel depth : nat) (s : str) :
  parse_elements (S fuel) depth s
  = match scan_once fuel depth s with
    | Raise e => Raise e
    | Return (v, r1) =>
        match skip_ws r1 with
        | [] => Raise JSONDecodeError
        | c1 :: r2 =>
            if c1 =? 93 then Return ([v], r2)
            else if c1 =? 44 then
              match parse_elements fuel depth (skip_ws r2) with
              | Return (items, rest) => Return (v :: items, rest)
              | Raise e => Raise e
              end
            else Raise JSONDecodeError
        end
    end.
Proof. reflexivity. Qed.

(** One more unit of fuel changes nothing once the fuel exceeds twice the
    length of the input. *)
Lemma fuel_step (fuel : nat) :
  (∀ depth s,
     (2 * length s < fuel)%nat ->
     scan_once fuel depth s = scan_once (S fuel) depth s)
  ∧ (∀ depth s,
       (2 * length s + 1 < fuel)%nat ->
       parse_members fuel depth s = parse_members (S fuel) depth s)
  ∧ (∀ depth s,
       (2 * length s + 1 < fuel)%nat ->
       parse_elements fuel depth s = parse_elements (S fuel) depth s).
Proof.
  induction fuel as [|fuel (IHs & IHm & IHe)]; [repeat split; intros; lia|].
  split; [|split].
  - intros depth s Hs. destruct s as [|c s]; [reflexivity|].
    cbn [length] in Hs.
    rewrite (scan_once_eq fuel), (scan_once_eq (S fuel)).
    pose proof (skip_ws_length s) as Hws.
    destruct (c =? 34); [reflexivity|].
    destruct (c =? 123).
    { destruct depth as [|depth]; [reflexivity|].
      destruct (skip_ws s) as [|c' rest]; [reflexivity|].
      destruct (c' =? 125); [reflexivity|].
      rewrite IHm; [reflexivity|]. lia. }
    destruct (c =? 91); [|reflexivity].
    destruct depth as [|depth]; [reflexivity|].
    destruct (skip_ws s) as [|c' rest]; [reflexivity|].
    destruct (c' =? 93); [reflexivity|].
    rewrite IHe; [reflexivity|]. lia.
  - intros depth s Hs. destruct s as [|c s]; [reflexivity|].
    cbn [length] in Hs.
    rewrite (parse_members_eq fuel), (parse_members_eq (S fuel)).
    destruct (c =? 34); [|reflexivity].
    destruct (scanstring s) as [[k r1]|] eqn:Es; [|reflexivity].
    apply (scanstring_length _ _ _ _ (le_n _)) in Es.
    pose proof (skip_ws_length r1) as Hws1.
    destruct (skip_ws r1) as [|c1 r2]; [reflexivity|]. cbn [length] in Hws1.
    destruct (c1 =? 58); [|reflexivity].
    pose proof (skip_ws_length r2) as Hws2.
    rewrite <- IHs by lia.
    destruct (scan_once fuel depth (skip_ws r2)) as [[v r3]|] eqn:Ev;
      [|reflexivity].
    apply (scan_length fuel) in Ev.
    pose proof (skip_ws_length r3) as Hws3.
    destruct (skip_ws r3) as [|c3 r4]; [reflexivity|]. cbn [length] in Hws3.
    destruct (c3 =? 125); [reflexivity|].
    destruct (c3 =? 44); [|reflexivity].
    pose proof (skip_ws_length r4) as Hws4.
    rewrite <- IHm by lia. reflexivity.
  - intros depth s Hs.
    rewrite (parse_elements_eq fuel), (parse_elements_eq (S fuel)).
    rewrite <- IHs by lia.
    destruct (scan_once fuel depth s) as [[v r1]|] eqn:Ev; [|reflexivity].
    apply (scan_length fuel) in Ev.
    pose proof (skip_ws_length r1) as Hws1.
    destruct (skip_ws r1) as [|c1 r2]; [reflexivity|]. cbn [length] in Hws1.
    destruct (c1 =? 93); [reflexivity|].
    destruct (c1 =? 44); [|reflexivity].
    pose proof (skip_ws_length r2) as Hws2.
    rewrite <- IHe by lia. reflexivity.
Qed.

(** The fuel [json.loads] gives is enough: more fuel gives the same
    result. *)
Lemma loads_fuel (depth : nat) (s : str) (fuel : nat) :
  (2 * length s < fuel)%nat ->
  scan_once fuel depth (skip_ws s)
  = scan_once (S (2 * length s)) depth (skip_ws s).
Proof.
  intros H. pose proof (skip_ws_length s) as Hws.
  induction fuel as [|fuel IH]; [lia|].
  destruct (decide (fuel = 2 * length s)%nat) as [->|Hne]; [reflexivity|].
  rewrite <- IH by lia. symmetry. apply fuel_step. lia.
Qed.

Lemma loads_with_fuel (s : str) (fuel : nat) :
  (2 * length s < fuel)%nat ->
  loads s
  = match scan_once fuel recursion_limit (skip_ws s) with
    | Return (v, rest) =>
        match skip_ws rest with
        | [] => Return v
        | _ :: _ => Raise JSONDecodeError
        end
    | Raise e => Raise e
    end.
Proof.
  intros H. unfold loads, loads_at. by rewrite (loads_fuel _ s fuel H).
Qed.

Lemma match_constant_raises (s : str) (e : exception) :
  match_constant s = Raise e -> e = JSONDecodeError ∨ e = ValueError.
Proof.
  unfold match_constant.
  repeat (match goal with
          | |- context [if startswith ?p s then _ else _] =>
              destruct (startswith p s); [discriminate|]
          end).
  unfold match_number.
  destruct (match s with
            | c :: r => if c =? 45 then (true, r) else (false, s)
            | [] => (false, s)
            end) as [neg s1].
  destruct (match_integer s1) as [[ds r0]|]; [|intros [= <-]; by left].
  destruct (match_fraction r0) as [frac r1].
  destruct (match_exponent r1) as [exp r2].
  destruct frac, exp; try discriminate.
  destruct (max_str_digits <? length ds)%nat; [|discriminate].
  intros [= <-]. by right.
Qed.

(** What the scanners raise: the decode error, or one of the two
    exceptions of the interpreter's limits. *)
Lemma scan_raises (fuel : nat) :
  (∀ depth s e,
     scan_once fuel depth s = Raise e ->
     e = JSONDecodeError ∨ e = RecursionError ∨ e = ValueError)
  ∧ (∀ depth s e,
       parse_members fuel depth s = Raise e ->
       e = JSONDecodeError ∨ e = RecursionError ∨ e = ValueError)
  ∧ (∀ depth s e,
       parse_elements fuel depth s = Raise e ->
       e = JSONDecodeError ∨ e = RecursionError ∨ e = ValueError).
Proof.
  induction fuel as [|fuel (IHs & IHm & IHe)].
  { repeat split; intros depth s e [= <-]; by left. }
  split; [|split].
  - intros depth s e. destruct s as [|c s]; [intros [= <-]; by left|].
    rewrite scan_once_eq.
    destruct (c =? 34).
    { destruct (scanstring s) as [[t rest]|]; [discriminate|].
      intros [= <-]. by left. }
    destruct (c =? 123).
    { destruct depth as [|depth]; [intros [= <-]; right; by left|].
      destruct (skip_ws s) as [|c' rest]; [intros [= <-]; by left|].
      destruct (c' =? 125); [discriminate|].
      destruct (parse_members fuel depth (c' :: rest)) as [[pairs rest']|e']
        eqn:Em; [discriminate|].
      intros [= <-]. by apply IHm in Em. }
    destruct (c =? 91).
    { destruct depth as [|depth]; [intros [= <-]; right; by left|].
      destruct (skip_ws s) as [|c' rest]; [intros [= <-]; by left|].
      destruct (c' =? 93); [discriminate|].
      destruct (parse_elements fuel depth (c' :: rest)) as [[items rest']|e']
        eqn:Em; [discriminate|].
      intros [= <-]. by apply IHe in Em. }
    intros H. apply match_constant_raises in H as [->| ->]; auto.
  - intros depth s e. destruct s as [|c s]; [intros [= <-]; by left|].
    rewrite parse_members_eq.
    destruct (c =? 34); [|intros [= <-]; by left].
    destruct (scanstring s) as [[k r1]|]; [|intros [= <-]; by left].
    destruct (skip_ws r1) as [|c1 r2]; [intros [= <-]; by left|].
    destruct (c1 =? 58); [|intros [= <-]; by left].
    destruct (scan_once fuel depth (skip_ws r2)) as [[v r3]|e'] eqn:Ev.
    2:{ intros [= <-]. by apply IHs in Ev. }
    destruct (skip_ws r3) as [|c3 r4]; [intros [= <-]; by left|].
    destruct (c3 =? 125); [discriminate|].
    destruct (c3 =? 44); [|intros [= <-]; by left].
    destruct (parse_members fuel depth (skip_ws r4)) as [[pairs rest]|e']
      eqn:Em; [discriminate|].
    intros [= <-]. by apply IHm in Em.
  - intros depth s e. rewrite parse_elements_eq.
    destruct (scan_once fuel depth s) as [[v r1]|e'] eqn:Ev.
    2:{ intros [= <-]. by apply IHs in Ev. }
    destruct (skip_ws r1) as [|c1 r2]; [intros [= <-]; by left|].
    destruct (c1 =? 93); [discriminate|].
    destruct (c1 =? 44); [|intros [= <-]; by left].
    destruct (parse_elements fuel depth (skip_ws r2)) as [[items rest]|e']
      eqn:Em; [discriminate|].
    intros [= <-]. by apply IHe in Em.
Qed.

(** [json.loads] raises its decode error, [RecursionError] or
    [ValueError], and nothing else. *)
Lemma loads_raises (s : str) (e : exception) :
  loads s = Raise e ->
  e = JSONDecodeError ∨ e = RecursionError ∨ e = ValueError.
Proof.
  unfold loads, loads_at.
  destruct (scan_once _ _ _) as [[v rest]|e'] eqn:E.
  - destruct (skip_ws rest); [discriminate|]. intros [= <-]. by left.
  - intros [= <-]. by apply (scan_raises _) in E.
Qed.

Lemma skip_ws_keep (c : N) (r : str) :
  is_ws c = false -> skip_ws (c :: r) = c :: r.
Proof. intros H. cbn [skip_ws]. by rewrite H. Qed.

(** A text of opening brackets is decoded under no limit. *)
Lemma open_brackets_raise (fuel : nat) :
  ∀ depth n : nat,
    (∃ e, scan_once fuel depth (replicate (S n) 91) = Raise e)
    ∧ (∃ e, parse_elements fuel depth (replicate (S n) 91) = Raise e).
Proof.
  induction fuel as [|fuel IH]; intros depth n; [split; by eexists|].
  split.
  - cbn [replicate]. rewrite scan_once_eq.
    change (91 =? 34) with false. change (91 =? 123) with false.
    change (91 =? 91) with true. cbn iota.
    destruct depth as [|depth]; [by eexists|].
    destruct n as [|n]; [by eexists|].
    cbn [replicate]. rewrite (skip_ws_keep 91) by reflexivity.
    change (91 =? 93) with false. cbn iota.
    destruct (IH depth n) as [_ [e He]]. cbn [replicate] in He.
    rewrite He. by eexists.
  - rewrite parse_elements_eq.
    destruct (IH depth n) as [[e He] _]. rewrite He. by eexists.
Qed.

End Fuel.

(** ** Response Parser: the limits of the decoder *)

(** C9, as stated: on every text that is no JSON the parser would report a
    decode error and return, no exception escaping.  Two thousand opening
    brackets are no JSON, whatever the recursion limit is; the decoder
    raises [RecursionError] at the bracket that passes the limit, before
    it can see that the text ends too early, and the parser, which catches
    the decode error only, reports nothing and lets the exception
    escape. *)
Lemma deep_nesting_escapes :
  cleaned deep_brackets = deep_brackets
  ∧ (∀ (depth : nat) (v : value), Json.loads_at depth deep_brackets ≠ Return v)
  ∧ Json.loads (cleaned deep_brackets) = Raise RecursionError
  ∧ parse_json_response deep_brackets sample_world
    = (Raise RecursionError, sample_world).
Proof.
  split; [by vm_compute|]. split; [|split; by vm_compute].
  intros depth v. unfold Json.loads_at, deep_brackets.
  destruct (open_brackets_raise (S (2 * length (replicate 2000 91))) depth 1999)
    as [[e He] _].
  assert (Json.skip_ws (replicate 2000 91) = replicate 2000 91) as ->
    by reflexivity.
  by rewrite He.
Qed.

(** An integer of 4301 digits is JSON, and [int] refuses it: the
    [ValueError] escapes as well. *)
Example long_integer_escapes :
  parse_json_response long_integer sample_world
  = (Raise ValueError, sample_world).
Proof. by vm_compute. Qed.

(** ** The [json] module: round trip *)

Section RoundTrip.

Import Json JsonEncode.

Lemma hex_value_digit (n : N) : n < 16 -> hex_value (hex_digit n) = Some n.
Proof.
  intros Hn. unfold hex_value, hex_digit, is_digit.
  destruct (n <? 10) eqn:E.
  - apply N.ltb_lt in E.
    replace (48 <=? 48 + n) with true by (symmetry; apply N.leb_le; lia).
    replace (48 + n <=? 57) with true by (symmetry; apply N.leb_le; lia).
    cbn [andb]. f_equal. lia.
  - apply N.ltb_ge in E.
    replace (87 + n <=? 57) with false by (symmetry; apply N.leb_gt; lia).
    rewrite andb_false_r.
    replace (97 <=? 87 + n) with true by (symmetry; apply N.leb_le; lia).
    replace (87 + n <=? 102) with true by (symmetry; apply N.leb_le; lia).
    cbn [andb]. f_equal. lia.
Qed.

Lemma hex4_digits (u : N) :
  u < 65536 ->
  hex4 (hex_digit (u / 4096)) (hex_digit ((u / 256) mod 16))
       (hex_digit ((u / 16) mod 16)) (hex_digit (u mod 16)) = Some u.
Proof.
  intros Hu. unfold hex4.
  rewrite !hex_value_digit.
  - f_equal.
    replace (u / 4096) with (u / 16 / 16 / 16) by (rewrite !N.Div0.div_div; reflexivity).
    replace (u / 256) with (u / 16 / 16) by (rewrite !N.Div0.div_div; reflexivity).
    pose proof (N.div_mod u 16). pose proof (N.div_mod (u / 16) 16).
    pose proof (N.div_mod (u / 16 / 16) 16). lia.
  - apply N.mod_lt. lia.
  - apply N.mod_lt. lia.
  - apply N.mod_lt. lia.
  - apply N.Div0.div_lt_upper_bound. lia.
Qed.

Lemma scanstring_plain (c : N) (r : str) :
  (c =? 34) = false -> (c =? 92) = false -> (c <? 32) = false ->
  scanstring (c :: r) = push c (scanstring r).
Proof. intros H1 H2 H3. cbn [scanstring]. by rewrite H1, H2, H3. Qed.

Lemma scanstring_simple (e c : N) (r : str) :
  (e =? 117) = false -> simple_escape e = Some c ->
  scanstring (92 :: e :: r) = push c (scanstring r).
Proof.
  intros H1 H2. cbn [scanstring].
  change (92 =? 34) with false. change (92 =? 92) with true. cbn iota.
  by rewrite H1, H2.
Qed.

Lemma scanstring_u (a b c d u : N) (r : str) :
  hex4 a b c d = Some u ->
  scanstring (92 :: 117 :: a :: b :: c :: d :: r)
  = if is_high_surrogate u then
      match low_surrogate_escape r with
      | Some (lo, r') => push (join_surrogates u lo) (scanstring r')
      | None => push u (scanstring r)
      end
    else push u (scanstring r).
Proof.
  intros H. cbn [scanstring].
  change (92 =? 34) with false. change (92 =? 92) with true.
  change (117 =? 117) with true. cbn iota. rewrite H.
  destruct (is_high_surrogate u); [|reflexivity].
  unfold low_surrogate_escape.
  destruct r as [|x r]; [reflexivity|].
  destruct (x =? 92); [|reflexivity].
  destruct r as [|y r]; [reflexivity|].
  destruct (y =? 117); [|reflexivity].
  destruct r as [|a' [|b' [|c' [|d' r]]]]; try reflexivity.
  destruct (hex4 a' b' c' d') as [lo|]; [|reflexivity].
  by destruct (is_low_surrogate lo).
Qed.

Lemma low_escape_u (u : N) (r : str) :
  u < 65536 ->
  low_surrogate_escape (u_escape u ++ r)
  = if is_low_surrogate u then Some (u, r) else None.
Proof.
  intros Hu. unfold u_escape. cbn [app low_surrogate_escape].
  change (92 =? 92) with true. change (117 =? 117) with true. cbn iota.
  by rewrite hex4_digits.
Qed.

Lemma scanstring_u_escape (u : N) (r : str) :
  u < 65536 ->
  scanstring (u_escape u ++ r)
  = if is_high_surrogate u then
      match low_surrogate_escape r with
      | Some (lo, r') => push (join_surrogates u lo) (scanstring r')
      | None => push u (scanstring r)
      end
    else push u (scanstring r).
Proof. intros Hu. apply scanstring_u. by apply hex4_digits. Qed.

(** What follows the escape of a high surrogate is not taken for its
    second half, unless it is the escape of a low surrogate. *)
Lemma low_escape_char (c : N) (r : str) :
  is_code_point c = true -> is_low_surrogate c = false ->
  low_surrogate_escape (escape_char c ++ r) = None.
Proof.
  intros Hc Hlow. unfold escape_char.
  destruct (c =? 34) eqn:E1; [reflexivity|].
  destruct (c =? 92) eqn:E2; [reflexivity|].
  destruct ((32 <=? c) && (c <=? 126)) eqn:E3.
  { cbn [app low_surrogate_escape]. by rewrite E2. }
  destruct (c =? 8) eqn:E4; [reflexivity|].
  destruct (c =? 12) eqn:E5; [reflexivity|].
  destruct (c =? 10) eqn:E6; [reflexivity|].
  destruct (c =? 13) eqn:E7; [reflexivity|].
  destruct (c =? 9) eqn:E8; [reflexivity|].
  destruct (c <? 65536) eqn:E9.
  - rewrite low_escape_u by (by apply N.ltb_lt). by rewrite Hlow.
  - assert (((c - 65536) / 1024) mod 1024 < 1024) by (by apply N.mod_lt).
    set (q := ((c - 65536) / 1024) mod 1024) in *.
    rewrite <- app_assoc. rewrite low_escape_u by lia.
    replace (is_low_surrogate _) with false; [done|].
    symmetry. unfold is_low_surrogate. apply andb_false_iff. left.
    apply N.leb_gt. lia.
Qed.

Lemma join_surrogates_escape (c : N) :
  65536 <= c -> c < 1114112 ->
  join_surrogates (55296 + ((c - 65536) / 1024) mod 1024)
    (56320 + (c - 65536) mod 1024) = c.
Proof.
  intros H1 H2. unfold join_surrogates.
  assert ((c - 65536) / 1024 < 1024) by (apply N.Div0.div_lt_upper_bound; lia).
  rewrite (N.mod_small ((c - 65536) / 1024)) by done.
  pose proof (N.div_mod (c - 65536) 1024 ltac:(lia)) as Hd.
  set (q := (c - 65536) / 1024) in *. set (m := (c - 65536) mod 1024) in *.
  lia.
Qed.

(** Scanning the escape of one code point gives the code point back. *)
Lemma scanstring_escape_char (c : N) (r : str) :
  is_code_point c = true ->
  (is_high_surrogate c = true -> low_surrogate_escape r = None) ->
  scanstring (escape_char c ++ r) = push c (scanstring r).
Proof.
  intros Hc Hnext. unfold escape_char.
  destruct (c =? 34) eqn:E1.
  { apply N.eqb_eq in E1 as ->. by apply scanstring_simple. }
  destruct (c =? 92) eqn:E2.
  { apply N.eqb_eq in E2 as ->. by apply scanstring_simple. }
  destruct ((32 <=? c) && (c <=? 126)) eqn:E3.
  { apply scanstring_plain; [done|done|].
    apply andb_true_iff in E3 as [E3 _]. apply N.leb_le in E3.
    apply N.ltb_ge. lia. }
  destruct (c =? 8) eqn:E4.
  { apply N.eqb_eq in E4 as ->. by apply scanstring_simple. }
  destruct (c =? 12) eqn:E5.
  { apply N.eqb_eq in E5 as ->. by apply scanstring_simple. }
  destruct (c =? 10) eqn:E6.
  { apply N.eqb_eq in E6 as ->. by apply scanstring_simple. }
  destruct (c =? 13) eqn:E7.
  { apply N.eqb_eq in E7 as ->. by apply scanstring_simple. }
  destruct (c =? 9) eqn:E8.
  { apply N.eqb_eq in E8 as ->. by apply scanstring_simple. }
  destruct (c <? 65536) eqn:E9.
  - rewrite scanstring_u_escape by (by apply N.ltb_lt).
    destruct (is_high_surrogate c); [|reflexivity]. by rewrite Hnext.
  - apply N.ltb_ge in E9. unfold is_code_point in Hc. apply N.ltb_lt in Hc.
    assert ((c - 65536) / 1024 < 1024) as Hq
      by (apply N.Div0.div_lt_upper_bound; lia).
    assert ((c - 65536) mod 1024 < 1024) as Hm by (by apply N.mod_lt).
    pose proof (join_surrogates_escape c E9 Hc) as Hjoin.
    rewrite (N.mod_small _ _ Hq) in Hjoin |- *.
    set (q := (c - 65536) / 1024) in *. set (m := (c - 65536) mod 1024) in *.
    rewrite <- app_assoc. rewrite scanstring_u_escape by lia.
    replace (is_high_surrogate (55296 + q)) with true
      by (symmetry; unfold is_high_surrogate; apply andb_true_iff;
          split; apply N.leb_le; lia).
    rewrite low_escape_u by lia.
    replace (is_low_surrogate (56320 + m)) with true
      by (symmetry; unfold is_low_surrogate; apply andb_true_iff;
          split; apply N.leb_le; lia).
    by rewrite Hjoin.
Qed.

(** Scanning an encoded string gives the string back. *)
Lemma scanstring_escape (s rest : str) :
  plain_text s = true ->
  scanstring (concat (List.map escape_char s) ++ dquote :: rest) = Some (s, rest).
Proof.
  unfold plain_text. intros H. apply andb_true_iff in H as [Hcp Hfree].
  induction s as [|c s IH]; [reflexivity|].
  cbn [forallb] in Hcp. apply andb_true_iff in Hcp as [Hc Hcp].
  cbn [surrogate_pair_free] in Hfree. apply andb_true_iff in Hfree as [Hpair Hfree].
  cbn [List.map concat]. rewrite <- app_assoc.
  rewrite scanstring_escape_char; [by rewrite IH|done|].
  intros Hhigh. destruct s as [|c2 s]; [reflexivity|].
  cbn [List.map concat]. rewrite <- app_assoc.
  cbn [forallb] in Hcp. apply andb_true_iff in Hcp as [Hc2 _].
  apply low_escape_char; [done|].
  rewrite Hhigh in Hpair. by destruct (is_low_surrogate c2).
Qed.

Lemma scan_once_string (fuel depth : nat) (s rest : str) :
  plain_text s = true ->
  scan_once (S fuel) depth
    (dquote :: concat (List.map escape_char s) ++ dquote :: rest)
  = Return (PyStr s, rest).
Proof.
  intros Hs. unfold dquote at 1. cbn [scan_once].
  change (34 =? 34) with true. cbn iota.
  by rewrite scanstring_escape.
Qed.

(** The text of one member of an object. *)
Lemma member_text (k v tail : str) :
  (encode_string k ++ lit ": " ++ encode_string v) ++ tail
  = dquote :: concat (List.map escape_char k)
      ++ dquote :: 58 :: 32 :: dquote :: concat (List.map escape_char v)
      ++ dquote :: tail.
Proof.
  unfold encode_string. change (lit ": ") with [58; 32].
  rewrite <- !app_assoc. reflexivity.
Qed.

Lemma parse_member (fuel depth : nat) (k v tail : str) :
  (0 < fuel)%nat -> plain_text k = true -> plain_text v = true ->
  parse_members (S fuel) depth
    (dquote :: concat (List.map escape_char k)
       ++ dquote :: 58 :: 32 :: dquote :: concat (List.map escape_char v)
       ++ dquote :: tail)
  = match skip_ws tail with
    | [] => Raise JSONDecodeError
    | c3 :: r4 =>
        if c3 =? 125 then Return ([(k, PyStr v)], r4)
        else if c3 =? 44 then
          match parse_members fuel depth (skip_ws r4) with
          | Return (pairs, rest) => Return ((k, PyStr v) :: pairs, rest)
          | Raise e => Raise e
          end
        else Raise JSONDecodeError
    end.
Proof.
  intros Hfuel Hk Hv. unfold dquote at 1.
  cbn [parse_members]. change (34 =? 34) with true. cbn iota.
  rewrite scanstring_escape by done.
  rewrite (skip_ws_keep 58) by reflexivity.
  change (58 =? 58) with true. cbn iota.
  change (skip_ws (32 :: ?r)) with (skip_ws r).
  rewrite (skip_ws_keep dquote) by reflexivity.
  destruct fuel as [|fuel]; [lia|].
  by rewrite scan_once_string.
Qed.

(** The pairs of a serialized mapping are read back one by one. *)
Lemma parse_members_dumps (d : list (str * str)) :
  ∀ (fuel depth : nat) (rest : str),
    d ≠ [] -> (length d < fuel)%nat ->
    Forall (fun kv => plain_text kv.1 = true ∧ plain_text kv.2 = true) d ->
    parse_members fuel depth
      (join (lit ", ")
         (List.map (fun '(k, v) => encode_string k ++ lit ": " ++ encode_string v) d)
       ++ 125 :: rest)
    = Return (List.map (fun '(k, v) => (k, PyStr v)) d, rest).
Proof.
  induction d as [|[k v] d IH]; intros fuel depth rest Hne Hfuel Hall; [done|].
  apply Forall_cons in Hall as [[Hk Hv] Hall]. cbn [fst snd] in Hk, Hv.
  destruct fuel as [|fuel]; [cbn [length] in Hfuel; lia|].
  cbn [length] in Hfuel.
  destruct d as [|p d].
  - cbn [List.map join]. rewrite member_text.
    rewrite parse_member by (done || lia).
    by rewrite (skip_ws_keep 125) by reflexivity.
  - change (join (lit ", ")
              (List.map (fun '(k, v) => encode_string k ++ lit ": " ++ encode_string v)
                 ((k, v) :: p :: d)))
      with ((encode_string k ++ lit ": " ++ encode_string v)
              ++ lit ", "
              ++ join (lit ", ")
                   (List.map (fun '(k, v) => encode_string k ++ lit ": " ++ encode_string v)
                      (p :: d))).
    rewrite <- app_assoc. rewrite member_text.
    rewrite parse_member by (done || cbn [length] in Hfuel; lia).
    rewrite <- app_assoc. change (lit ", " ++ ?r) with (44 :: 32 :: r).
    rewrite (skip_ws_keep 44) by reflexivity.
    change (44 =? 125) with false. change (44 =? 44) with true. cbn iota.
    change (skip_ws (32 :: ?r)) with (skip_ws r).
    assert (∀ r, skip_ws
               (join (lit ", ")
                  (List.map (fun '(k, v) => encode_string k ++ lit ": " ++ encode_string v)
                     (p :: d)) ++ r)
             = join (lit ", ")
                 (List.map (fun '(k, v) => encode_string k ++ lit ": " ++ encode_string v)
                    (p :: d)) ++ r) as Hskip.
    { intros r. destruct p as [k2 v2]. destruct d; reflexivity. }
    rewrite Hskip. rewrite IH; [reflexivity|done|lia|done].
Qed.

Lemma dict_set_new (k : str) (v : value) (d : list (str * value)) :
  k ∉ List.map fst d -> dict_set k v d = d ++ [(k, v)].
Proof.
  induction d as [|[k' v'] d IH]; intros Hk; [reflexivity|].
  cbn [List.map fst] in Hk. apply not_elem_of_cons in Hk as [Hne Hk].
  cbn [dict_set app]. destruct (decide (k' = k)) as [->|_]; [done|].
  by rewrite IH.
Qed.

(** Pairs with distinct keys make the [dict] that lists them in order. *)
Lemma dict_of_distinct_pairs (pairs : list (str * value)) :
  NoDup (List.map fst pairs) -> dict_of_pairs pairs = pairs.
Proof.
  unfold dict_of_pairs.
  enough (∀ acc, NoDup (List.map fst (acc ++ pairs)) ->
            fold_left (fun d '(k, v) => dict_set k v d) pairs acc = acc ++ pairs)
    as H by (intros Hnd; by apply (H [])).
  induction pairs as [|[k v] pairs IH]; intros acc Hnd.
  - by rewrite app_nil_r.
  - cbn [fold_left]. rewrite dict_set_new.
    + rewrite IH; rewrite <- app_assoc; done.
    + rewrite List.map_app in Hnd. apply NoDup_app in Hnd as (_ & Hdisj & _).
      intros Hin. apply (Hdisj k Hin). cbn [List.map fst]. apply elem_of_cons. by left.
Qed.

Lemma join_length (sep : str) (parts : list str) :
  Forall (fun p => (0 < length p)%nat) parts ->
  (length parts <= length (join sep parts))%nat.
Proof.
  induction parts as [|p parts IH]; intros H; [done|].
  apply Forall_cons in H as [Hp H]. specialize (IH H).
  destruct parts as [|q parts].
  - cbn [join length]. lia.
  - change (join sep (p :: q :: parts)) with (p ++ sep ++ join sep (q :: parts)).
    rewrite !length_app. cbn [length] in *. lia.
Qed.

Lemma scan_once_object (fuel depth : nat) (r r0 : str) :
  skip_ws r = dquote :: r0 ->
  scan_once (S fuel) (S depth) (123 :: r)
  = match parse_members fuel depth (skip_ws r) with
    | Return (pairs, rest) => Return (PyDict (dict_of_pairs pairs), rest)
    | Raise e => Raise e
    end.
Proof.
  intros H. cbn [scan_once].
  change (123 =? 34) with false. change (123 =? 123) with true. cbn iota.
  rewrite H. reflexivity.
Qed.

(** Decoding the serialization of a mapping gives the mapping back. *)
Lemma loads_dumps (d : list (str * str)) :
  NoDup (List.map fst d) ->
  Forall (fun kv => plain_text kv.1 = true ∧ plain_text kv.2 = true) d ->
  loads (dumps d) = Return (dict_value d).
Proof.
  intros Hnd Hall. destruct d as [|p d]; [reflexivity|].
  unfold loads, loads_at, recursion_limit, dumps.
  set (members := join (lit ", ")
                    (List.map (fun '(k, v) => encode_string k ++ lit ": " ++ encode_string v)
                       (p :: d))).
  change (lit "{" ++ members ++ lit "}") with (123 :: (members ++ [125])).
  rewrite (skip_ws_keep 123) by reflexivity.
  assert (∃ r0, members ++ [125] = dquote :: r0) as [r0 Hhead].
  { subst members. destruct p as [k v]. destruct d; eexists; reflexivity. }
  assert (skip_ws (members ++ [125]) = members ++ [125]) as Hskip.
  { rewrite Hhead. by apply skip_ws_keep. }
  rewrite (scan_once_object _ _ _ r0) by (by rewrite Hskip).
  rewrite Hskip. subst members. rewrite parse_members_dumps; [| done | | done].
  - rewrite dict_of_distinct_pairs.
    + reflexivity.
    + rewrite List.map_map.
      erewrite List.map_ext; [exact Hnd|]. by intros [k v].
  - cbn [length]. rewrite length_app. cbn [length].
    pose proof (join_length (lit ", ")
      (List.map (fun '(k, v) => encode_string k ++ lit ": " ++ encode_string v) (p :: d)))
      as Hlen.
    rewrite List.length_map in Hlen. cbn [length] in Hlen.
    enough (S (length d) <= length
              (join (lit ", ")
                 (List.map (fun '(k, v) => encode_string k ++ lit ": " ++ encode_string v)
                    (p :: d))))%nat by lia.
    apply Hlen. apply Forall_forall. intros x Hx.
    apply list_elem_of_In, in_map_iff in Hx as ([k v] & <- & _).
    unfold encode_string. rewrite !length_app. cbn [length]. lia.
Qed.

Lemma lstrip_keep (c : N) (s : str) : isspace c = false -> lstrip (c :: s) = c :: s.
Proof. intros H. cbn [lstrip]. by rewrite H. Qed.

(** Text between two characters that are not spaces is not trimmed. *)
Lemma strip_keep (a b : N) (s : str) :
  isspace a = false -> isspace b = false ->
  strip (a :: s ++ [b]) = a :: s ++ [b].
Proof.
  intros Ha Hb. unfold strip, rstrip. rewrite lstrip_keep by done.
  change (a :: s ++ [b]) with ((a :: s) ++ [b]).
  rewrite rev_app_distr. cbn [rev app]. rewrite lstrip_keep by done.
  change (b :: rev s ++ [a]) with ([b] ++ rev (a :: s)).
  rewrite rev_app_distr. by rewrite rev_involutive.
Qed.

Lemma contains_fence_cons (c : N) (s : str) :
  c ≠ backtick -> contains fence (c :: s) = contains fence s.
Proof. intros Hc. cbn [contains]. by rewrite startswith_fence_head. Qed.

Lemma contains_fence_skip (p s : str) :
  tickless p = true -> contains fence (p ++ s) = contains fence s.
Proof.
  induction p as [|c p IH]; [done|]. cbn [tickless forallb].
  intros H. apply andb_true_iff in H as [Hc Hp].
  cbn [app]. rewrite contains_fence_cons.
  - by apply IH.
  - apply negb_true_iff, N.eqb_neq in Hc. exact Hc.
Qed.

Lemma hex_digit_tickless (n : N) : (hex_digit n =? backtick) = false.
Proof.
  unfold hex_digit, backtick. apply N.eqb_neq.
  destruct (n <? 10) eqn:E; [apply N.ltb_lt in E|apply N.ltb_ge in E]; lia.
Qed.

(** The escape of a code point other than the backtick is not empty and
    holds no backtick. *)
Lemma escape_char_tickless (c : N) :
  c ≠ backtick ->
  tickless (escape_char c) = true ∧ escape_char c ≠ [].
Proof.
  intros Hc. unfold escape_char.
  destruct (c =? 34); [done|]. destruct (c =? 92); [done|].
  destruct ((32 <=? c) && (c <=? 126)).
  { split; [|done]. cbn [tickless forallb]. apply N.eqb_neq in Hc. by rewrite Hc. }
  destruct (c =? 8); [done|]. destruct (c =? 12); [done|].
  destruct (c =? 10); [done|]. destruct (c =? 13); [done|].
  destruct (c =? 9); [done|].
  destruct (c <? 65536); (split; [|done]); unfold u_escape;
    cbn [tickless forallb app]; by rewrite !hex_digit_tickless.
Qed.

Lemma tickless_head (p s : str) (n : nat) :
  tickless p = true -> p ≠ [] ->
  startswith (replicate (S n) backtick) (p ++ s) = false.
Proof.
  destruct p as [|c p]; [done|]. cbn [tickless forallb]. intros H _.
  apply andb_true_iff in H as [Hc _]. apply negb_true_iff in Hc.
  cbn [replicate app startswith]. rewrite N.eqb_sym. by rewrite Hc.
Qed.

(** Backticks at the head of an encoded text are those of the text. *)
Lemma startswith_ticks_escape (n : nat) :
  ∀ (s : str) (x : N) (r : str),
    x ≠ backtick ->
    startswith (replicate n backtick)
      (concat (List.map escape_char s) ++ x :: r)
    = startswith (replicate n backtick) s.
Proof.
  induction n as [|n IH]; intros s x r Hx; [by destruct s|].
  destruct s as [|c s].
  - cbn [List.map concat app replicate startswith].
    apply N.eqb_neq in Hx. rewrite N.eqb_sym. by rewrite Hx.
  - cbn [List.map concat]. rewrite <- app_assoc.
    destruct (decide (c = backtick)) as [->|Hc].
    + change (escape_char backtick) with [backtick].
      cbn [replicate app startswith]. rewrite N.eqb_refl. cbn [andb].
      by apply IH.
    + destruct (escape_char_tickless c Hc) as [Ht Hne].
      rewrite tickless_head by done.
      cbn [replicate startswith]. apply N.eqb_neq in Hc.
      rewrite N.eqb_sym. by rewrite Hc.
Qed.

(** A fence in an encoded text followed by another character is a fence
    of the text or a fence in what follows. *)
Lemma contains_fence_escape (s : str) (x : N) (r : str) :
  x ≠ backtick ->
  contains fence (concat (List.map escape_char s) ++ x :: r)
  = contains fence s || contains fence r.
Proof.
  intros Hx. induction s as [|c s IH].
  - cbn [List.map concat app]. rewrite contains_fence_cons by done.
    by destruct r.
  - cbn [List.map concat]. rewrite <- app_assoc.
    destruct (decide (c = backtick)) as [->|Hc].
    + change (escape_char backtick) with [backtick].
      cbn [app contains]. rewrite IH.
      change (startswith fence (backtick :: ?t))
        with (startswith (replicate 2 backtick) t).
      rewrite startswith_ticks_escape by done.
      by rewrite orb_assoc.
    + destruct (escape_char_tickless c Hc) as [Ht _].
      rewrite contains_fence_skip by done. rewrite IH.
      by rewrite (contains_fence_cons c s).
Qed.

Lemma contains_fence_member (k v : str) (x : N) (r : str) :
  x ≠ backtick ->
  contains fence ((encode_string k ++ lit ": " ++ encode_string v) ++ x :: r)
  = contains fence k || contains fence v || contains fence r.
Proof.
  intros Hx. rewrite member_text.
  rewrite contains_fence_cons by done.
  rewrite contains_fence_escape by done.
  rewrite !contains_fence_cons by done.
  rewrite contains_fence_escape by done.
  rewrite contains_fence_cons by done.
  by rewrite orb_assoc.
Qed.

(** The serialization of a mapping holds a fence exactly when a key or a
    value does. *)
Lemma contains_fence_dumps (d : list (str * str)) :
  contains fence (dumps d)
  = existsb (fun kv => contains fence kv.1 || contains fence kv.2) d.
Proof.
  unfold dumps. change (lit "{" ++ ?m ++ lit "}") with (123 :: m ++ [125]).
  rewrite contains_fence_cons by done.
  induction d as [|[k v] d IH]; [reflexivity|].
  destruct d as [|p d].
  - cbn [List.map join existsb fst snd].
    rewrite contains_fence_member by done. reflexivity.
  - change (join (lit ", ")
              (List.map (fun '(k, v) => encode_string k ++ lit ": " ++ encode_string v)
                 ((k, v) :: p :: d)))
      with ((encode_string k ++ lit ": " ++ encode_string v)
              ++ lit ", "
              ++ join (lit ", ")
                   (List.map (fun '(k, v) => encode_string k ++ lit ": " ++ encode_string v)
                      (p :: d))).
    rewrite <- app_assoc. rewrite <- (app_assoc (lit ", ")).
    change (lit ", " ++ ?r) with (44 :: 32 :: r).
    rewrite contains_fence_member by done.
    rewrite contains_fence_cons by done. rewrite IH. reflexivity.
Qed.

Lemma cleaned_dumps (d : list (str * str)) :
  contains fence (dumps d) = false -> cleaned (dumps d) = dumps d.
Proof.
  intros H. unfold cleaned. rewrite sub_fences_clean by done.
  unfold dumps.
  change (lit "{" ++ ?m ++ lit "}") with (123 :: m ++ [125]).
  by apply strip_keep.
Qed.

(** A high surrogate followed by a low surrogate is written as two escapes
    and read back as one code point. *)
Example surrogates_merge :
  loads (dumps [(lit "a", [55357; 56832])])
  = Return (PyDict [(lit "a", PyStr [128512])]).
Proof. reflexivity. Qed.

(** C7, as stated: parsing the serialization of any mapping of strings
    would give the mapping back.  A value that is a fence is serialized
    with the fence in it, the cleaning step deletes it, and the parser
    returns the empty string for that field. *)
Lemma fenced_value_not_returned :
  dumps fenced_mapping = qlit "{~comments~: ~```~}"
  ∧ parse_json_response (dumps fenced_mapping) sample_world
    = (Return (PyDict [(lit "comments", PyStr [])]), sample_world)
  ∧ (parse_json_response (dumps fenced_mapping) sample_world).1
    ≠ Return (dict_value fenced_mapping).
Proof. split; [reflexivity|]. split; [reflexivity|]. discriminate. Qed.

(** C7, amended.  For every mapping with distinct keys, whose keys and
    values are strings of code points in which no high surrogate stands
    directly before a low surrogate, and none of whose keys and values
    contains a fence, parsing the JSON serialization returns exactly that
    mapping, in the same order, and reports nothing. *)
Theorem parse_dumps_mapping (d : list (str * str)) (w : World) :
  NoDup (List.map fst d) ->
  Forall (fun kv => plain_text kv.1 = true ∧ plain_text kv.2 = true) d ->
  Forall (fun kv => contains fence kv.1 = false ∧ contains fence kv.2 = false) d ->
  parse_json_response (dumps d) w = (Return (dict_value d), w).
Proof.
  intros Hnd Hall Hfence. apply parse_returns.
  rewrite cleaned_dumps.
  - by apply loads_dumps.
  - rewrite contains_fence_dumps. apply not_true_iff_false.
    intros H. apply existsb_exists in H as (kv & Hin & Hkv).
    rewrite List.Forall_forall in Hfence.
    destruct (Hfence kv Hin) as [Hk Hv]. rewrite Hk, Hv in Hkv. discriminate.
Qed.

Lemma parse_dumps_mapping_witness :
  NoDup (List.map fst plain_mapping)
  ∧ Forall (fun kv => plain_text kv.1 = true ∧ plain_text kv.2 = true)
      plain_mapping
  ∧ Forall (fun kv => contains fence kv.1 = false ∧ contains fence kv.2 = false)
      plain_mapping
  ∧ parse_json_response (dumps plain_mapping) sample_world
    = (Return (dict_value plain_mapping), sample_world).
Proof.
  assert (NoDup (List.map fst plain_mapping)) as Hnd
    by (apply (bool_decide_unpack _); vm_compute; exact I).
  assert (Forall (fun kv => plain_text kv.1 = true ∧ plain_text kv.2 = true)
            plain_mapping) as Hall
    by (repeat constructor).
  assert (Forall (fun kv => contains fence kv.1 = false ∧ contains fence kv.2 = false)
            plain_mapping) as Hfence
    by (repeat constructor).
  split; [exact Hnd|]. split; [exact Hall|]. split; [exact Hfence|].
  exact (parse_dumps_mapping plain_mapping sample_world Hnd Hall Hfence).
Defined.

(** The scenario of the specification: an answer that is already clean. *)
Example parse_clean_answer :
  parse_json_response
    (qlit "{~rating~:~Buy~,~current_price~:~100~,~target_price~:~150~}")
    sample_world
  = (Return (PyDict [(lit "rating", PyStr (lit "Buy"));
                     (lit "current_price", PyStr (lit "100"));
                     (lit "target_price", PyStr (lit "150"))]),
     sample_world).
Proof. reflexivity. Qed.

End RoundTrip.

(** * Further properties *)

(** ** Document Reader: tables and failures *)

Section ReaderFailures.

Implicit Types (contents : list (option str * list Table)) (w : World).

(** X1.  Besides the text, the reader returns the tables of the document:
    on a PDF all of whose pages can be read, the second component of the
    result is the list of the tables of page 1, then those of page 2, and
    so on, each page's tables in the order pdfplumber gives them.  The
    world is left as it was. *)
Theorem reader_returns_tables contents w (pdf_path : nat) :
  files w !! pdf_path = Some (Pdf (List.map readable contents)) ->
  ∃ full_text : str,
    extract_text_and_tables pdf_path w
    = (Return (full_text, concat (List.map snd contents)), w).
Proof.
  intros Hfile. exists (flattened contents).
  exact (extract_readable contents w pdf_path Hfile).
Qed.

Lemma reader_returns_tables_witness :
  files sample_world !! 7%nat = Some (Pdf (List.map readable sample_contents))
  ∧ ∃ full_text : str,
      extract_text_and_tables 7 sample_world
      = (Return (full_text, concat (List.map snd sample_contents)),
         sample_world).
Proof.
  split; [reflexivity|].
  apply (reader_returns_tables sample_contents sample_world 7). reflexivity.
Defined.

(** A loop over two lists one after the other. *)
Lemma for_in_app {A S} (body : A -> S -> M S) (l1 l2 : list A) :
  ∀ (s : S) w,
    for_in (l1 ++ l2) body s w
    = match for_in l1 body s w with
      | (Return s', w') => for_in l2 body s' w'
      | (Raise e, w') => (Raise e, w')
      end.
Proof.
  induction l1 as [|x l1 IH]; intros s w; [reflexivity|].
  cbn [app for_in]. unfold mbind, M_bind.
  destruct (body x s w) as [[s'|e] w']; [apply IH|reflexivity].
Qed.

Lemma page_turn_raises (i : nat) (page : Page) (e : exception)
    (acc : str * list Table) w :
  fails_with page e -> page_turn (i, page) acc w = (Raise e, w).
Proof.
  destruct acc as [full_text all_tables]. unfold page_turn, mbind, M_bind, lift.
  intros [H|(text & Ht & H)].
  - by rewrite H.
  - by rewrite Ht, H.
Qed.

(** X2.  Nothing in the reader catches an exception of pdfplumber.  If the
    pages before some page can be read and that page raises, when its text
    or, after its text, its tables are extracted, then the reader raises
    this exception: the text and the tables gathered so far are not
    returned, and the pages after it are not looked at.  The world is left
    as it was. *)
Theorem reader_raises_at_first_failure contents (bad : Page)
    (later : list Page) (e : exception) w (pdf_path : nat) :
  files w !! pdf_path
    = Some (Pdf (List.map readable contents ++ bad :: later)) ->
  fails_with bad e ->
  extract_text_and_tables pdf_path w = (Raise e, w).
Proof.
  intros Hfile Hbad. unfold extract_text_and_tables.
  unfold mbind at 1, M_bind at 1. unfold pdfplumber_open. rewrite Hfile.
  unfold enumerate. rewrite imap_app, for_in_app.
  fold (enumerate (List.map readable contents)).
  rewrite enumerate_map.
  rewrite (for_in_pure (fun ic => (ic.1, readable ic.2)) page_turn page_step).
  - cbn [imap for_in]. unfold mbind, M_bind.
    by rewrite (page_turn_raises _ bad e).
  - intros [i [text tables]] [full_text all_tables].
    unfold page_turn, page_step, page_section. cbn [fst snd readable].
    unfold mbind, M_bind, lift. cbn [extract_text extract_tables].
    destruct tables as [|t ts].
    + unfold mret, M_ret. simpl. by rewrite !app_nil_r.
    + unfold mret, M_ret. f_equal. unfold enumerate.
      rewrite (imap_ext _ (fun j x => ((0 + j)%nat, x)) (t :: ts)) by done.
      rewrite tables_loop. by rewrite <- !app_assoc.
Qed.

Lemma reader_raises_at_first_failure_witness :
  fails_with raising_page (PdfError (lit "bad page"))
  ∧ extract_text_and_tables 3 broken_world
    = (Raise (PdfError (lit "bad page")), broken_world).
Proof.
  assert (fails_with raising_page (PdfError (lit "bad page"))) as Hbad.
  { left. reflexivity. }
  split; [exact Hbad|].
  apply (reader_raises_at_first_failure [(Some (lit "Rating: Buy"), [])]
           raising_page [readable (None, [])] (PdfError (lit "bad page"))
           broken_world 3);
    [reflexivity|exact Hbad].
Defined.

End ReaderFailures.

(** ** Prompt Builder: the frame around the text *)

Section PromptFrame.

(** X3.  The prompt is the text between two fixed parts: it starts with
    the part of the template before the PDF content and ends with the
    closing delimiter, it is 2224 characters longer than the text, and two
    texts give the same prompt only if they are the same text. *)
Theorem create_prompt_frame (a b : str) :
  (create_prompt a = create_prompt b <-> a = b)
  ∧ length (create_prompt a) = (length a + 2224)%nat
  ∧ startswith template_before (create_prompt a) = true
  ∧ endswith template_after (create_prompt a) = true.
Proof.
  split; [|split; [|split]].
  - split; [|by intros ->]. unfold create_prompt. intros H.
    apply app_inv_head in H. by apply app_inv_tail in H.
  - unfold create_prompt. rewrite !length_app.
    change (length template_before) with 2219%nat.
    change (length template_after) with 5%nat. lia.
  - apply startswith_refl_app.
  - unfold create_prompt, endswith. rewrite !rev_app_distr, <- app_assoc.
    apply startswith_refl_app.
Qed.

End PromptFrame.

(** ** Extraction Client: the transport and the envelope *)

Section ClientTransport.

Variable str_of_exception : exception -> str.

Implicit Types (w : World) (response : Response).

(** What [query_gemini] does, case by case. *)
Lemma query_gemini_run (prompt api_key : str) w :
  query_gemini str_of_exception prompt api_key w
  = let sent := with_posted (posted w ++ [gemini_request prompt api_key]) w in
    match remote w (gemini_request prompt api_key) with
    | Raise e => (Raise e, sent)
    | Return response =>
        if ok response then
          match envelope_text response with
          | Return v => (Return v, sent)
          | Raise e =>
              (Return PyNone,
               with_screen
                 (screen w
                    ++ [st_error (lit "Parsing Gemini response failed: "
                                    ++ str_of_exception e)])
                 sent)
          end
        else
          (Return PyNone,
           with_screen
             (screen w
                ++ [st_error (lit "Gemini API Error: "
                                ++ str_of_nat (status_code response));
                    st_text (text response)])
             sent)
    end.
Proof.
  unfold query_gemini.
  unfold mbind at 1, M_bind at 1. unfold requests_post.
  fold (gemini_request prompt api_key).
  destruct (remote w (gemini_request prompt api_key)) as [response|e];
    [|reflexivity].
  cbn zeta. destruct (ok response).
  - unfold mbind at 1, M_bind at 1. unfold try_except.
    unfold mbind at 1, M_bind at 1. unfold lift.
    destruct (envelope_text response) as [v|e]; [reflexivity|].
    unfold mbind, M_bind, st_error_, mret, M_ret, with_screen, with_posted.
    cbn [screen files handles posted remote]. reflexivity.
  - unfold mbind, M_bind, st_error_, st_text_, mret, M_ret, with_screen,
      with_posted. cbn [screen files handles posted remote].
    rewrite <- app_assoc. reflexivity.
Qed.

(** X4.  The call to [requests.post] stands outside the [try]: when the
    transport raises (no connection, a timeout), the exception leaves
    [query_gemini].  The request counts as sent, nothing is reported, and
    no [None] is returned. *)
Theorem query_gemini_transport_failure (prompt api_key : str) w
    (e : exception) :
  remote w (gemini_request prompt api_key) = Raise e ->
  query_gemini str_of_exception prompt api_key w
  = (Raise e, with_posted (posted w ++ [gemini_request prompt api_key]) w).
Proof.
  intros Hremote. unfold query_gemini.
  unfold mbind at 1, M_bind at 1. unfold requests_post.
  fold (gemini_request prompt api_key). by rewrite Hremote.
Qed.

End ClientTransport.

Lemma query_gemini_transport_failure_witness :
  remote sample_world (gemini_request (lit "prompt") (lit "key"))
    = Raise ConnectionError
  ∧ query_gemini (fun _ => []) (lit "prompt") (lit "key") sample_world
    = (Raise ConnectionError,
       with_posted
         (posted sample_world ++ [gemini_request (lit "prompt") (lit "key")])
         sample_world).
Proof.
  split; [reflexivity|].
  apply (query_gemini_transport_failure (fun _ => []) (lit "prompt")
           (lit "key") sample_world ConnectionError).
  reflexivity.
Defined.

Section Envelope.

Lemma getitem_Return (v : value) (key : str) (x : value) :
  getitem v key = Return x <->
  ∃ d, v = PyDict d ∧ Json.dict_get key d = Some x.
Proof.
  split.
  - destruct v as [| | | | |l|d]; try discriminate. cbn [getitem].
    destruct (Json.dict_get key d) as [y|] eqn:E; [|discriminate].
    intros [= ->]. by exists d.
  - intros (d & -> & H). cbn [getitem]. by rewrite H.
Qed.

(** X5.  The chain of subscripts of line 111 gives a value exactly when
    the body of the response decodes to an object whose [candidates] is a
    list that starts with an object, whose [content] is an object, whose
    [parts] is a list that starts with an object with a [text]; the value
    is that [text], of whatever type.  Further candidates, further parts
    and further keys are ignored.  In every other case the chain raises,
    also when a string stands where a list is expected, although its
    first character can be taken. *)
Theorem envelope_text_shape (response : Response) (v : value) :
  envelope_text response = Return v <->
  ∃ (body candidate content part : list (str * value))
    (candidates parts : list value),
    response_json response = Return (PyDict body)
    ∧ Json.dict_get (lit "candidates") body
      = Some (PyList (PyDict candidate :: candidates))
    ∧ Json.dict_get (lit "content") candidate = Some (PyDict content)
    ∧ Json.dict_get (lit "parts") content
      = Some (PyList (PyDict part :: parts))
    ∧ Json.dict_get (lit "text") part = Some v.
Proof.
  unfold envelope_text. split.
  - destruct (response_json response) as [v0|]; [|discriminate].
    cbn [and_then].
    destruct (getitem v0 (lit "candidates")) as [v1|] eqn:E1; [|discriminate].
    apply getitem_Return in E1 as (body & -> & H1). cbn [and_then].
    destruct v1 as [| | | |s|l|d]; try discriminate.
    { destruct s; discriminate. }
    destruct l as [|v2 candidates]; [discriminate|]. cbn [getitem_0 and_then].
    destruct (getitem v2 (lit "content")) as [v3|] eqn:E3; [|discriminate].
    apply getitem_Return in E3 as (candidate & -> & H3). cbn [and_then].
    destruct (getitem v3 (lit "parts")) as [v4|] eqn:E4; [|discriminate].
    apply getitem_Return in E4 as (content & -> & H4). cbn [and_then].
    destruct v4 as [| | | |s|l|d]; try discriminate.
    { destruct s; discriminate. }
    destruct l as [|v5 parts]; [discriminate|]. cbn [getitem_0 and_then].
    intros E5. apply getitem_Return in E5 as (part & -> & H5).
    by exists body, candidate, content, part, candidates, parts.
  - intros (body & candidate & content & part & candidates & parts
            & -> & H1 & H3 & H4 & H5).
    cbn [and_then getitem]. rewrite H1. cbn [and_then getitem_0 getitem].
    rewrite H3. cbn [and_then getitem]. rewrite H4.
    cbn [and_then getitem_0 getitem]. by rewrite H5.
Qed.

End Envelope.

(** ** Response Parser: what it returns and what it deletes *)

Section ParserTotal.

Implicit Types (result : str) (w : World).

(** What [parse_json_response] does when the decoder raises. *)
Lemma parse_decode_error_run result w :
  Json.loads (cleaned result) = Raise JSONDecodeError ->
  parse_json_response result w
  = (Return PyNone,
     with_screen
       (screen w ++ [st_error (lit "JSON parse error"); st_text result]) w).
Proof.
  intros H. unfold parse_json_response, try_except, lift. rewrite H.
  unfold mbind, M_bind, st_error_, st_text_, mret, M_ret, with_screen.
  cbn [screen files handles posted remote]. by rewrite <- app_assoc.
Qed.

(** X6.  What [parse_json_response] does on a string is decided by the
    decoder.  A decoded value is returned and nothing is reported.  On the
    decode error [None] is returned after the two reports.  The handler
    catches [json.JSONDecodeError] only: the two other exceptions of
    [json.loads], [RecursionError] on nesting past the recursion limit and
    [ValueError] on an [int] of more than 4300 digits, leave the function
    with nothing reported.  No request is sent and no file is touched. *)
Theorem parse_json_response_outcomes result w :
  match Json.loads (cleaned result) with
  | Return v => parse_json_response result w = (Return v, w)
  | Raise JSONDecodeError =>
      parse_json_response result w
      = (Return PyNone,
         with_screen
           (screen w ++ [st_error (lit "JSON parse error"); st_text result])
           w)
  | Raise e =>
      parse_json_response result w = (Raise e, w)
      ∧ (e = RecursionError ∨ e = ValueError)
  end.
Proof.
  destruct (Json.loads (cleaned result)) as [v|e] eqn:H.
  - by apply parse_returns.
  - pose proof (loads_raises _ _ H) as [->|[->| ->]].
    + by apply parse_decode_error_run.
    + split; [by apply parse_raises|by left].
    + split; [by apply parse_raises|by right].
Qed.

Lemma lstrip_idem (s : str) : lstrip (lstrip s) = lstrip s.
Proof.
  induction s as [|c s IH]; [reflexivity|]. cbn [lstrip].
  destruct (isspace c) eqn:E; [exact IH|]. cbn [lstrip]. by rewrite E.
Qed.

(** What [lstrip] leaves starts with no space. *)
Lemma lstrip_head (s : str) :
  match lstrip s with c :: _ => isspace c = false | [] => True end.
Proof.
  induction s as [|c s IH]; [done|]. cbn [lstrip].
  by destruct (isspace c) eqn:E.
Qed.

(** Trimming on the left keeps the end of the text. *)
Lemma lstrip_last (s : str) (c : N) :
  isspace c = false -> lstrip (s ++ [c]) = lstrip s ++ [c].
Proof.
  intros Hc. induction s as [|x s IH]; cbn [app lstrip].
  - by rewrite Hc.
  - by destruct (isspace x).
Qed.

(** Trimmed text starts and ends with no space. *)
Lemma strip_trimmed (s : str) :
  match strip s with c :: _ => isspace c = false | [] => True end
  ∧ match rev (strip s) with c :: _ => isspace c = false | [] => True end.
Proof.
  unfold strip, rstrip. rewrite rev_involutive. split; [|apply lstrip_head].
  pose proof (lstrip_head s) as Hhead.
  destruct (lstrip s) as [|c t] eqn:E; [done|].
  pose proof (lstrip_head (rev (c :: t))) as Hlast.
  cbn [rev] in *. rewrite lstrip_last in * by done.
  rewrite rev_app_distr. done.
Qed.

Lemma lstrip_fixed (s : str) :
  match s with c :: _ => isspace c = false | [] => True end -> lstrip s = s.
Proof. destruct s as [|c s]; [done|]. intros H. cbn [lstrip]. by rewrite H. Qed.

Lemma strip_idem (s : str) : strip (strip s) = strip s.
Proof.
  unfold strip at 1. rewrite lstrip_fixed by apply strip_trimmed.
  unfold strip, rstrip. by rewrite rev_involutive, lstrip_idem.
Qed.

(** The substitution only deletes. *)
Lemma sub_fences_sublist (s : str) : ∀ skip : nat, sublist (sub_fences skip s) s.
Proof.
  induction s as [|c s IH]; intros skip; [constructor|].
  cbn [sub_fences]. destruct skip as [|k]; [|apply sublist_cons, IH].
  destruct (startswith fence_json (c :: s)); [apply sublist_cons, IH|].
  destruct (startswith fence (c :: s)); [apply sublist_cons, IH|].
  apply sublist_skip, IH.
Qed.

Lemma substring_sublist (t s : str) : substring t s -> sublist t s.
Proof.
  intros (before & after & ->).
  apply sublist_inserts_l, sublist_inserts_r. reflexivity.
Qed.

(** X7.  Cleaning a cleaned response changes nothing: deleting the fences
    brings no new fence together, and trimming leaves nothing to trim. *)
Theorem cleaned_idempotent result : cleaned (cleaned result) = cleaned result.
Proof.
  unfold cleaned at 1. rewrite sub_fences_clean by apply cleaned_no_fence.
  unfold cleaned. apply strip_idem.
Qed.

(** X8.  Cleaning only deletes: the characters of the cleaned text are
    characters of the response, in the order of the response, so the
    cleaned text is no longer than the response; and it neither starts nor
    ends with whitespace. *)
Theorem cleaned_only_deletes result :
  sublist (cleaned result) result
  ∧ (length (cleaned result) <= length result)%nat
  ∧ match cleaned result with c :: _ => isspace c = false | [] => True end
  ∧ match rev (cleaned result) with
    | c :: _ => isspace c = false
    | [] => True
    end.
Proof.
  assert (sublist (cleaned result) result) as H.
  { unfold cleaned. etrans; [apply substring_sublist, strip_substring|].
    apply sub_fences_sublist. }
  split; [exact H|]. split; [by apply sublist_length|].
  apply strip_trimmed.
Qed.

End ParserTotal.

(** ** The button handler *)

Section Handler.

Variable str_of_exception : exception -> str.
Variable float_is_zero : str -> bool.
Variable dumps_indent : value -> str.
Variable pandas : Pandas.

Implicit Types (s : Session) (w : World) (response : Response).

(** A call whose function adds [reported] to the screen adds it to the
    calls of the run. *)
Lemma call_run {A} (m : M A) s (o : outcome A) (w' : World)
    (reported : list st_call) :
  m (world s) = (o, w') ->
  screen w' = screen (world s) ++ reported ->
  call m s = (o, mkSession w' (calls s ++ List.map shown reported)).
Proof.
  intros Hm Hscreen. unfold call. rewrite Hm, Hscreen.
  by rewrite drop_app_length.
Qed.

Lemma call_quiet {A} (m : M A) s (o : outcome A) (w' : World) :
  m (world s) = (o, w') ->
  screen w' = screen (world s) ->
  call m s = (o, mkSession w' (calls s)).
Proof.
  intros Hm Hscreen.
  rewrite (call_run m s o w' []); [by rewrite app_nil_r|done|].
  by rewrite app_nil_r.
Qed.

Lemma bool_of_text (answer : str) :
  answer ≠ [] -> bool_of float_is_zero (PyStr answer) = true.
Proof. by destruct answer. Qed.

(** X9.  The button was pressed and the model answered with a text that
    is not empty.  The handler shows the spinner and sends one request;
    what follows depends on the text alone.  If the cleaned text decodes
    to a value that Python counts as true, the handler shows the success
    message and the value, offers the download of
    [json.dumps(value, indent=2)] as [financial_data.json], and returns.
    If it decodes to a value that counts as false (an empty object or
    list, [null], [false], zero, an empty string), only the error
    ["Couldn't convert to JSON."] is shown, although the text was valid
    JSON.  If the decoder raises its decode error, the error of the parser
    and the raw text are followed by that same error.  If the decoder
    raises another exception ([RecursionError], [ValueError]), that
    exception leaves the handler and nothing follows the spinner. *)
Theorem click_on_text_answer (user_prompt API_KEY answer : str) s response :
  remote (world s) (gemini_request user_prompt API_KEY) = Return response ->
  ok response = true ->
  envelope_text response = Return (PyStr answer) ->
  answer ≠ [] ->
  ∃ (returned : outcome unit) (w' : World) (added : list element),
    handle_click str_of_exception float_is_zero dumps_indent
      user_prompt API_KEY s
    = (returned,
       mkSession w'
         (calls s ++ st_spinner (lit "🔍 Extracting with Gemini...") :: added))
    ∧ posted w' = posted (world s) ++ [gemini_request user_prompt API_KEY]
    ∧ match Json.loads (cleaned answer) with
      | Return final_json =>
          returned = Return tt
          ∧ added
            = if bool_of float_is_zero final_json then
                [st_success (lit "✅ JSON Extracted Successfully!");
                 st_json final_json;
                 st_download_button (lit "📥 Download JSON Output")
                   (dumps_indent final_json) (lit "financial_data.json")
                   (lit "application/json")]
              else [shown (st_error (lit "❌ Couldn't convert to JSON."))]
      | Raise JSONDecodeError =>
          returned = Return tt
          ∧ added
            = [shown (st_error (lit "JSON parse error"));
               shown (st_text answer);
               shown (st_error (lit "❌ Couldn't convert to JSON."))]
      | Raise e => returned = Raise e ∧ added = []
      end.
Proof.
  intros Hremote Hok Henv Hanswer. unfold handle_click.
  unfold mbind at 1, Script_bind at 1. unfold show at 1.
  unfold mbind at 1, Script_bind at 1.
  set (sent := with_posted
                 (posted (world s) ++ [gemini_request user_prompt API_KEY])
                 (world s)).
  rewrite (call_quiet _ _ (Return (PyStr answer)) sent); [| |reflexivity].
  2:{ rewrite query_gemini_run. cbn [world]. cbn zeta.
      by rewrite Hremote, Hok, Henv. }
  rewrite bool_of_text by done. cbn [parse_json_response_of].
  unfold mbind at 1, Script_bind at 1.
  destruct (Json.loads (cleaned answer)) as [final_json|e] eqn:Hloads.
  - rewrite (call_quiet _ _ (Return final_json) sent);
      [|by apply parse_returns|reflexivity].
    destruct (bool_of float_is_zero final_json).
    + eexists (Return tt), sent, _.
      split; [|split; [reflexivity|split; reflexivity]].
      unfold mbind, Script_bind, show. cbn [world calls].
      by rewrite <- !app_assoc.
    + eexists (Return tt), _, _. split; [|split; [|split; reflexivity]].
      * erewrite (call_run _ _ (Return tt) _
                    [st_error (lit "❌ Couldn't convert to JSON.")]);
          [|reflexivity|reflexivity].
        cbn [calls List.map]. by rewrite <- !app_assoc.
      * reflexivity.
  - assert (e = JSONDecodeError ∨ e ≠ JSONDecodeError) as [->|He].
    { pose proof (loads_raises _ _ Hloads) as [->|[->| ->]];
        [by left|by right|by right]. }
    + erewrite (call_run _ _ (Return PyNone) _
                  [st_error (lit "JSON parse error"); st_text answer]);
        [|by apply parse_decode_error_run|reflexivity].
      cbn [bool_of].
      eexists (Return tt), _, _. split; [|split; [|split; reflexivity]].
      * erewrite (call_run _ _ (Return tt) _
                    [st_error (lit "❌ Couldn't convert to JSON.")]);
          [|reflexivity|reflexivity].
        cbn [calls List.map]. by rewrite <- !app_assoc.
      * reflexivity.
    + rewrite (call_quiet _ _ (Raise e) sent);
        [|by apply parse_raises|reflexivity].
      exists (Raise e), sent, []. split; [reflexivity|].
      split; [reflexivity|]. by destruct e.
Qed.

(** X10.  The button was pressed and [query_gemini] has nothing to give:
    the status was an error, the envelope could not be read, or its text
    counts as false ([null], an empty string, zero, ...).  Then the handler
    returns after the spinner and the reports of [query_gemini]; it calls
    no parser and shows no message of its own.  In the third case nothing
    but the spinner is shown. *)
Theorem click_without_answer (user_prompt API_KEY : str) s response :
  remote (world s) (gemini_request user_prompt API_KEY) = Return response ->
  (ok response = false
   ∨ (∃ e, envelope_text response = Raise e)
   ∨ ∃ v, envelope_text response = Return v
          ∧ bool_of float_is_zero v = false) ->
  ∃ (w' : World) (reported : list st_call),
    handle_click str_of_exception float_is_zero dumps_indent
      user_prompt API_KEY s
    = (Return tt,
       mkSession w'
         (calls s ++ st_spinner (lit "🔍 Extracting with Gemini...")
                  :: List.map shown reported))
    ∧ posted w' = posted (world s) ++ [gemini_request user_prompt API_KEY]
    ∧ reported
      = if ok response then
          match envelope_text response with
          | Return _ => []
          | Raise e =>
              [st_error (lit "Parsing Gemini response failed: "
                           ++ str_of_exception e)]
          end
        else
          [st_error (lit "Gemini API Error: "
                       ++ str_of_nat (status_code response));
           st_text (text response)].
Proof.
  intros Hremote Hcase. unfold handle_click.
  unfold mbind at 1, Script_bind at 1. unfold show at 1.
  unfold mbind at 1, Script_bind at 1.
  set (sent := with_posted
                 (posted (world s) ++ [gemini_request user_prompt API_KEY])
                 (world s)).
  destruct (ok response) eqn:Hok.
  - destruct (envelope_text response) as [v|e] eqn:Henv.
    + rewrite (call_quiet _ _ (Return v) sent); [| |reflexivity].
      2:{ rewrite query_gemini_run. cbn [world]. cbn zeta.
          by rewrite Hremote, Hok, Henv. }
      assert (bool_of float_is_zero v = false) as ->.
      { destruct Hcase as [?|[[e ?]|(v' & ? & ?)]]; congruence. }
      exists sent, []. split; [|done].
      reflexivity.
    + eexists _, _. split; [|split; [|reflexivity]].
      * erewrite call_run; [|rewrite query_gemini_run; cbn [world]; cbn zeta;
                              by rewrite Hremote, Hok, Henv|reflexivity].
        cbn [bool_of]. unfold mret, Script_ret. cbn [calls].
        by rewrite <- app_assoc.
      * reflexivity.
  - eexists _, _. split; [|split; [|reflexivity]].
    + erewrite call_run; [|rewrite query_gemini_run; cbn [world]; cbn zeta;
                            by rewrite Hremote, Hok|reflexivity].
      cbn [bool_of]. unfold mret, Script_ret. cbn [calls].
      by rewrite <- app_assoc.
    + reflexivity.
Qed.

(** X11.  The button was pressed and the text of the envelope is a value
    that counts as true and is no string (a number, a list, an object,
    [true]).  [parse_json_response] passes it to [re.sub], which raises
    [TypeError]; the parser catches the decode error only, so the
    exception leaves the handler after the spinner, with the request
    sent. *)
Theorem click_on_other_value (user_prompt API_KEY : str) s response
    (v : value) :
  remote (world s) (gemini_request user_prompt API_KEY) = Return response ->
  ok response = true ->
  envelope_text response = Return v ->
  bool_of float_is_zero v = true ->
  (∀ answer : str, v ≠ PyStr answer) ->
  handle_click str_of_exception float_is_zero dumps_indent
    user_prompt API_KEY s
  = (Raise TypeError,
     mkSession
       (with_posted (posted (world s) ++ [gemini_request user_prompt API_KEY])
          (world s))
       (calls s ++ [st_spinner (lit "🔍 Extracting with Gemini...")])).
Proof.
  intros Hremote Hok Henv Htrue Hother. unfold handle_click.
  unfold mbind at 1, Script_bind at 1. unfold show at 1.
  unfold mbind at 1, Script_bind at 1.
  set (sent := with_posted
                 (posted (world s) ++ [gemini_request user_prompt API_KEY])
                 (world s)).
  rewrite (call_quiet _ _ (Return v) sent); [| |reflexivity].
  2:{ rewrite query_gemini_run. cbn [world]. cbn zeta.
      by rewrite Hremote, Hok, Henv. }
  rewrite Htrue. unfold mbind at 1, Script_bind at 1.
  rewrite (call_quiet _ _ (Raise TypeError) sent); [reflexivity| |reflexivity].
  destruct v as [| | | |answer| |]; try reflexivity.
  by destruct (Hother answer).
Qed.

(** X12.  The button was pressed and the transport raised.  The exception
    leaves the handler: the spinner is the only call, the request counts
    as sent, no error is reported by the script. *)
Theorem click_transport_failure (user_prompt API_KEY : str) s
    (e : exception) :
  remote (world s) (gemini_request user_prompt API_KEY) = Raise e ->
  handle_click str_of_exception float_is_zero dumps_indent
    user_prompt API_KEY s
  = (Raise e,
     mkSession
       (with_posted (posted (world s) ++ [gemini_request user_prompt API_KEY])
          (world s))
       (calls s ++ [st_spinner (lit "🔍 Extracting with Gemini...")])).
Proof.
  intros Hremote. unfold handle_click.
  unfold mbind at 1, Script_bind at 1. unfold show at 1.
  unfold mbind at 1, Script_bind at 1.
  rewrite (call_quiet _ _ (Raise e)
             (with_posted
                (posted (world s) ++ [gemini_request user_prompt API_KEY])
                (world s))); [reflexivity| |reflexivity].
  rewrite query_gemini_run. cbn [world]. cbn zeta. by rewrite Hremote.
Qed.


(** ** The script *)

(** Copying uploads shows nothing, sends nothing and leaves the remote end
    as it is. *)
Lemma after_uploads_quiet (uploaded_files : list Payload) :
  ∀ w,
    screen (after_uploads uploaded_files w) = screen w
    ∧ posted (after_uploads uploaded_files w) = posted w
    ∧ remote (after_uploads uploaded_files w) = remote w.
Proof.
  induction uploaded_files as [|file uploaded_files IH]; intros w; [done|].
  cbn [after_uploads fold_left].
  destruct (IH (after_upload file w)) as (H1 & H2 & H3).
  unfold after_uploads in *. by rewrite H1, H2, H3.
Qed.

Lemma call_process_uploads (uploaded_files : list Payload) s :
  call (process_uploads uploaded_files) s
  = ((process_uploads uploaded_files (world s)).1,
     mkSession (process_uploads uploaded_files (world s)).2 (calls s)).
Proof.
  apply call_quiet; [apply surjective_pairing|].
  destruct (process_uploads_world uploaded_files (world s)) as (k & -> & _).
  apply after_uploads_quiet.
Qed.

(** The combined text of documents all of whose pages can be read. *)
Lemma process_readable_uploads (docs : list (list (option str * list Table))) w :
  process_uploads (List.map readable_pdf docs) w
  = (Return (concat (List.map (fun c => flattened c ++ nl ++ nl) docs),
             concat (List.map (fun c => concat (List.map snd c)) docs)),
     after_uploads (List.map readable_pdf docs) w).
Proof.
  unfold process_uploads.
  rewrite <- (app_nil_r (List.map readable_pdf docs)) at 1.
  rewrite (uploads_loop_returns _
             (List.map (fun c => (flattened c, concat (List.map snd c))) docs)).
  - cbn [for_in fst snd app]. unfold mret, M_ret.
    by rewrite !List.map_map.
  - induction docs as [|c docs IH]; constructor; [|exact IH].
    apply reading_readable.
Qed.

(** The handler sends one request, whatever comes of it. *)
Lemma query_gemini_posted (prompt api_key : str) w :
  posted (query_gemini str_of_exception prompt api_key w).2
  = posted w ++ [gemini_request prompt api_key].
Proof.
  rewrite query_gemini_run. cbn zeta.
  destruct (remote w _) as [response|e]; [|reflexivity].
  destruct (ok response); [|reflexivity].
  by destruct (envelope_text response).
Qed.

Lemma parse_of_posted (result : value) w :
  posted (parse_json_response_of result w).2 = posted w.
Proof.
  destruct result as [| | | |answer| |]; try reflexivity.
  cbn [parse_json_response_of].
  destruct (Json.loads (cleaned answer)) as [v|e] eqn:H.
  - by rewrite (parse_returns _ v).
  - pose proof (loads_raises _ _ H) as [->|[->| ->]].
    + by rewrite parse_decode_error_run.
    + by rewrite (parse_raises _ RecursionError).
    + by rewrite (parse_raises _ ValueError).
Qed.

Lemma call_world {A} (m : M A) s : world (call m s).2 = (m (world s)).2.
Proof. unfold call. by destruct (m (world s)). Qed.

Lemma handle_click_posted (user_prompt API_KEY : str) s :
  posted
    (world
       (handle_click str_of_exception float_is_zero dumps_indent
          user_prompt API_KEY s).2)
  = posted (world s) ++ [gemini_request user_prompt API_KEY].
Proof.
  unfold handle_click.
  unfold mbind at 1, Script_bind at 1. unfold show at 1.
  unfold mbind at 1, Script_bind at 1.
  match goal with
  | |- context [call ?m ?s1] =>
      pose proof (call_world m s1) as Hw; destruct (call m s1) as [[result|e] s2]
  end; cbn [snd world] in Hw.
  2:{ cbn [snd]. rewrite Hw. apply query_gemini_posted. }
  assert (posted (world s2)
          = posted (world s) ++ [gemini_request user_prompt API_KEY]) as Hs2.
  { rewrite Hw. apply query_gemini_posted. }
  destruct (bool_of float_is_zero result); [|exact Hs2].
  unfold mbind at 1, Script_bind at 1.
  match goal with
  | |- context [call ?m ?s1] =>
      pose proof (call_world m s1) as Hp; destruct (call m s1) as [[final_json|e] s3]
  end; cbn [snd world] in Hp.
  2:{ cbn [snd]. by rewrite Hp, parse_of_posted. }
  assert (posted (world s3) = posted (world s2)) as Hs3.
  { by rewrite Hp, parse_of_posted. }
  destruct (bool_of float_is_zero final_json).
  - unfold mbind, Script_bind, show. cbn [snd world]. congruence.
  - rewrite call_world. unfold st_error_. cbn [snd posted with_screen].
    congruence.
Qed.

(** One turn of the preview returns, whatever pandas and Streamlit do, and
    leaves the world as it is. *)
Lemma preview_turn_run (i : nat) (table : Table) s :
  preview_turn str_of_exception pandas (i, table) s
  = (Return tt,
     mkSession (world s)
       (calls s ++ preview_section str_of_exception pandas i table)).
Proof.
  unfold preview_turn, preview_section, try_except_.
  unfold mbind at 1, Script_bind at 1. unfold lift_ at 1.
  destruct (frame_is_blank pandas table) as [[|]|e]; [| |reflexivity].
  { unfold mret, Script_ret. rewrite app_nil_r. by destruct s. }
  unfold mbind at 1, Script_bind at 1. unfold show at 1.
  unfold mbind at 1, Script_bind at 1. unfold lift_ at 1.
  destruct (dataframe_renders pandas table) as [[]|e].
  2:{ unfold show. cbn [world calls]. by rewrite <- app_assoc. }
  unfold mbind, Script_bind, show. cbn [world calls].
  destruct (chart_drawn pandas table).
  - cbn [world calls]. by rewrite <- !app_assoc.
  - unfold mret, Script_ret. by rewrite <- !app_assoc.
Qed.

Lemma preview_loop (tables : list Table) :
  ∀ (k : nat) s,
    for_each (imap (fun j x => (k + j, x)%nat) tables)
      (preview_turn str_of_exception pandas) s
    = (Return tt,
       mkSession (world s)
         (calls s
            ++ concat
                 (imap (fun j => preview_section str_of_exception pandas (k + j))
                    tables))).
Proof.
  induction tables as [|table tables IH]; intros k s.
  - cbn [imap for_each concat]. unfold mret, Script_ret.
    rewrite app_nil_r. by destruct s.
  - rewrite enumerate_from,
      (imap_from (preview_section str_of_exception pandas)).
    cbn [for_each concat]. unfold mbind, Script_bind.
    rewrite preview_turn_run, IH. cbn [world calls].
    by rewrite <- app_assoc.
Qed.

(** The preview as a whole. *)
Lemma table_preview_run (tables : list Table) s :
  table_preview str_of_exception pandas tables s
  = (Return tt,
     mkSession (world s)
       (calls s
          ++ match tables with
             | [] => []
             | _ :: _ =>
                 st_subheader (lit "📊 Extracted Tables (Preview)")
                   :: concat
                        (imap (preview_section str_of_exception pandas) tables)
             end)).
Proof.
  unfold table_preview. destruct tables as [|table tables].
  { cbn [nonempty]. unfold mret, Script_ret. rewrite app_nil_r. by destruct s. }
  cbn [nonempty]. unfold mbind, Script_bind, show. unfold enumerate.
  rewrite (imap_ext _ (fun j x => ((0 + j)%nat, x)) (table :: tables)) by done.
  rewrite preview_loop. cbn [world calls]. rewrite <- app_assoc.
  reflexivity.
Qed.

(** X20.  The table preview never raises and leaves the world as it is.
    Without a table it shows nothing.  Otherwise it shows its subheader
    and then, for every table in the order of extraction, what that
    table's turn gives, one table's failure leaving the others as they
    are: a warning with the table's number and the message of the
    exception when the frame cannot be built or tested; nothing when the
    frame is blank; else the label with the table's number, followed by
    the frame, and by the chart when one is drawn, or by the warning when
    [st.dataframe] raises.  The number is the position among all tables,
    counted from 1: it also counts the blank tables that are skipped. *)
Theorem table_preview_sections (tables : list Table) s :
  ∃ sections : list (list element),
    table_preview str_of_exception pandas tables s
    = (Return tt,
       mkSession (world s)
         (calls s
            ++ match tables with
               | [] => []
               | _ :: _ =>
                   st_subheader (lit "📊 Extracted Tables (Preview)")
                     :: concat sections
               end))
    ∧ length sections = length tables
    ∧ ∀ (i : nat) (table : Table),
        tables !! i = Some table ->
        sections !! i
        = Some
            match frame_is_blank pandas table with
            | Raise e =>
                [st_warning
                   (lit "Could not render Table " ++ str_of_nat (i + 1)
                      ++ lit ": " ++ str_of_exception e)]
            | Return true => []
            | Return false =>
                st_write (lit "📄 Table " ++ str_of_nat (i + 1))
                  :: match dataframe_renders pandas table with
                     | Raise e =>
                         [st_warning
                            (lit "Could not render Table "
                               ++ str_of_nat (i + 1)
                               ++ lit ": " ++ str_of_exception e)]
                     | Return _ =>
                         st_dataframe table
                           :: (if chart_drawn pandas table
                               then [st_line_chart table] else [])
                     end
            end.
Proof.
  exists (imap (preview_section str_of_exception pandas) tables).
  split; [apply table_preview_run|]. split; [apply length_imap|].
  intros i table Hi. rewrite list_lookup_imap, Hi. reflexivity.
Qed.

(** X13.  Without an upload or without a key the script shows its four
    head widgets and nothing else: no file is written, no request is
    sent, no prompt is built. *)
Theorem script_waits_for_inputs op s :
  files_uploaded op = [] ∨ key_typed op = [] ->
  script str_of_exception float_is_zero dumps_indent pandas op s
  = (Return tt,
     mkSession (world s)
       (calls s
          ++ [st_set_page_config (lit "Financial Data Extractor") (lit "wide");
              st_title
                (lit "📊 Financial Data Extractor from Equity Research PDFs");
              st_text_input (lit "🔑 Enter Gemini API Key") (lit "password");
              st_file_uploader
                (lit "📂 Upload one or more Equity Research PDFs")
                (lit "pdf") true])).
Proof.
  intros Hmissing. unfold script, st_text_input_, st_file_uploader_.
  unfold mbind, Script_bind, show, mret, Script_ret. cbn [world calls].
  assert (nonempty (files_uploaded op) && nonempty (key_typed op) = false)
    as ->.
  { destruct Hmissing as [-> | ->]; [reflexivity|apply andb_false_r]. }
  by rewrite <- !app_assoc.
Qed.

(** X14.  A run of the script sends at most one request.  It sends one
    exactly when a file was uploaded, a key was typed, every upload could
    be read and the button was pressed; the request then carries the key
    and the prompt as the text area holds it, whose initial value is
    [create_prompt] of the combined text.  This holds whatever the remote
    end answers. *)
Theorem script_requests op s :
  posted
    (world (script str_of_exception float_is_zero dumps_indent pandas op s).2)
  = posted (world s)
      ++ match
           files_uploaded op, key_typed op, button_clicked op,
           (process_uploads (files_uploaded op) (world s)).1
         with
         | _ :: _, _ :: _, true, Return (all_text, _) =>
             [gemini_request (prompt_edited op (create_prompt all_text))
                (key_typed op)]
         | _, _, _, _ => []
         end.
Proof.
  unfold script, st_text_input_, st_file_uploader_, st_text_area_, st_button_.
  unfold mbind, Script_bind, show, mret, Script_ret. cbn [world calls].
  destruct (files_uploaded op) as [|file uploaded_files] eqn:Hfiles.
  { cbn [nonempty andb snd world]. by rewrite app_nil_r. }
  destruct (key_typed op) as [|c key] eqn:Hkey.
  { cbn [nonempty andb snd world]. by rewrite app_nil_r. }
  cbn [nonempty andb]. rewrite call_process_uploads. cbn [world].
  destruct (process_uploads_world (file :: uploaded_files) (world s))
    as (k & Hw & _).
  destruct (after_uploads_quiet (take k (file :: uploaded_files)) (world s))
    as (_ & Hposted & _).
  rewrite <- Hw in Hposted.
  destruct (process_uploads (file :: uploaded_files) (world s))
    as [[[all_text all_tables_combined]|e] w'].
  2:{ cbn [fst snd world] in *. destruct (button_clicked op);
        by rewrite app_nil_r. }
  cbn [fst snd world calls] in *.
  destruct (button_clicked op).
  - match goal with
    | |- context [handle_click ?a ?b ?c ?d ?e ?s1] =>
        pose proof (handle_click_posted d e s1) as Hclick;
        destruct (handle_click a b c d e s1) as [[[]|e'] s2]
    end; cbn [snd world] in Hclick |- *.
    + rewrite table_preview_run. cbn [snd world].
      by rewrite Hclick, Hposted.
    + by rewrite Hclick, Hposted.
  - rewrite table_preview_run. cbn [snd world]. by rewrite app_nil_r.
Qed.


Lemma nonempty_true {A} (l : list A) : l ≠ [] -> nonempty l = true.
Proof. by destruct l. Qed.

(** X15.  With a key and uploads that can be read, and the button not
    pressed, the run copies every upload to a temporary file, shows the
    prompt preview whose initial value is [create_prompt] of the texts of
    the uploads, each followed by two line feeds, then the button, sends
    nothing, and ends with the table preview of lines 166-187 on the
    tables of all uploads, in upload order and, within an upload, in page
    order: nothing without a table, else the subheader and what each
    table's turn adds. *)
Theorem script_preview op s (docs : list (list (option str * list Table))) :
  files_uploaded op = List.map readable_pdf docs ->
  docs ≠ [] ->
  key_typed op ≠ [] ->
  button_clicked op = false ->
  script str_of_exception float_is_zero dumps_indent pandas op s
  = (Return tt,
     mkSession (after_uploads (List.map readable_pdf docs) (world s))
       (calls s
          ++ [st_set_page_config (lit "Financial Data Extractor") (lit "wide");
              st_title
                (lit "📊 Financial Data Extractor from Equity Research PDFs");
              st_text_input (lit "🔑 Enter Gemini API Key") (lit "password");
              st_file_uploader
                (lit "📂 Upload one or more Equity Research PDFs")
                (lit "pdf") true;
              st_subheader (lit "✍️ Editable Prompt Preview");
              st_text_area (lit "📝 Modify Prompt if Needed")
                (create_prompt
                   (concat
                      (List.map (fun c => flattened c ++ nl ++ nl) docs)))
                400;
              st_button (lit "🔮 Send to Gemini & Extract JSON")]
          ++ match
               concat (List.map (fun c => concat (List.map snd c)) docs)
             with
             | [] => []
             | _ :: _ =>
                 st_subheader (lit "📊 Extracted Tables (Preview)")
                   :: concat
                        (imap (preview_section str_of_exception pandas)
                           (concat
                              (List.map (fun c => concat (List.map snd c))
                                 docs)))
             end)).
Proof.
  intros Hfiles Hdocs Hkey Hbutton.
  unfold script, st_text_input_, st_file_uploader_, st_text_area_, st_button_.
  unfold mbind, Script_bind, show, mret, Script_ret. cbn [world calls].
  rewrite Hfiles, Hbutton, (nonempty_true (key_typed op)) by done.
  rewrite nonempty_true by (by destruct docs).
  cbn [andb]. rewrite call_process_uploads. cbn [world].
  rewrite process_readable_uploads. cbn [fst snd world calls].
  rewrite table_preview_run. cbn [world calls].
  by rewrite <- !app_assoc.
Qed.

(** X16.  With a key typed, an upload that cannot be read ends the run:
    the exception leaves the script before the prompt preview, so that
    the page holds the four head widgets only, whether the button was
    pressed or not.  The uploads up to that one have been copied to
    temporary files. *)
Theorem script_stops_at_unreadable_upload op s
    (docs : list (list (option str * list Table))) (file : Payload)
    (later : list Payload) (e : exception) :
  files_uploaded op = List.map readable_pdf docs ++ file :: later ->
  key_typed op ≠ [] ->
  reading file = Raise e ->
  script str_of_exception float_is_zero dumps_indent pandas op s
  = (Raise e,
     mkSession
       (after_uploads (List.map readable_pdf docs ++ [file]) (world s))
       (calls s
          ++ [st_set_page_config (lit "Financial Data Extractor") (lit "wide");
              st_title
                (lit "📊 Financial Data Extractor from Equity Research PDFs");
              st_text_input (lit "🔑 Enter Gemini API Key") (lit "password");
              st_file_uploader
                (lit "📂 Upload one or more Equity Research PDFs")
                (lit "pdf") true])).
Proof.
  intros Hfiles Hkey Hfile.
  unfold script, st_text_input_, st_file_uploader_, st_text_area_, st_button_.
  unfold mbind, Script_bind, show, mret, Script_ret. cbn [world calls].
  rewrite Hfiles, (nonempty_true (key_typed op)) by done.
  rewrite nonempty_true by (by destruct docs).
  cbn [andb]. rewrite call_process_uploads. cbn [world].
  assert (process_uploads (List.map readable_pdf docs ++ file :: later)
            (world s)
          = (Raise e,
             after_uploads (List.map readable_pdf docs ++ [file]) (world s)))
    as ->.
  { unfold process_uploads.
    rewrite (uploads_loop_returns _
               (List.map (fun c => (flattened c, concat (List.map snd c)))
                  docs)).
    - rewrite upload_turn_eq, Hfile. unfold after_uploads.
      by rewrite fold_left_app.
    - clear. induction docs as [|c docs IH]; constructor; [|exact IH].
      apply reading_readable. }
  cbn [fst snd]. by rewrite <- !app_assoc.
Qed.

(** X17.  A complete run.  With a key, uploads that can be read and the
    button pressed, when the remote end answers the request with a success
    whose text decodes, once cleaned, to a value that counts as true, the
    page holds, in this order: the four head widgets, the prompt preview,
    the button, the spinner, the success message, the value, and the
    download button for [json.dumps(value, indent=2)] under the name
    [financial_data.json]; the run then ends with the table preview of
    lines 166-187 on the tables of all uploads.  One request was sent, and
    the uploads were copied to temporary files. *)
Theorem script_full_run op s (docs : list (list (option str * list Table)))
    (response : Response) (answer : str) (final_json : value) :
  files_uploaded op = List.map readable_pdf docs ->
  docs ≠ [] ->
  key_typed op ≠ [] ->
  button_clicked op = true ->
  remote (world s)
    (gemini_request
       (prompt_edited op
          (create_prompt
             (concat (List.map (fun c => flattened c ++ nl ++ nl) docs))))
       (key_typed op))
  = Return response ->
  ok response = true ->
  envelope_text response = Return (PyStr answer) ->
  Json.loads (cleaned answer) = Return final_json ->
  bool_of float_is_zero final_json = true ->
  script str_of_exception float_is_zero dumps_indent pandas op s
  = (Return tt,
     mkSession
       (with_posted
          (posted (world s)
             ++ [gemini_request
                   (prompt_edited op
                      (create_prompt
                         (concat
                            (List.map (fun c => flattened c ++ nl ++ nl)
                               docs))))
                   (key_typed op)])
          (after_uploads (List.map readable_pdf docs) (world s)))
       (calls s
          ++ [st_set_page_config (lit "Financial Data Extractor") (lit "wide");
              st_title
                (lit "📊 Financial Data Extractor from Equity Research PDFs");
              st_text_input (lit "🔑 Enter Gemini API Key") (lit "password");
              st_file_uploader
                (lit "📂 Upload one or more Equity Research PDFs")
                (lit "pdf") true;
              st_subheader (lit "✍️ Editable Prompt Preview");
              st_text_area (lit "📝 Modify Prompt if Needed")
                (create_prompt
                   (concat
                      (List.map (fun c => flattened c ++ nl ++ nl) docs)))
                400;
              st_button (lit "🔮 Send to Gemini & Extract JSON");
              st_spinner (lit "🔍 Extracting with Gemini...");
              st_success (lit "✅ JSON Extracted Successfully!");
              st_json final_json;
              st_download_button (lit "📥 Download JSON Output")
                (dumps_indent final_json) (lit "financial_data.json")
                (lit "application/json")]
          ++ match
               concat (List.map (fun c => concat (List.map snd c)) docs)
             with
             | [] => []
             | _ :: _ =>
                 st_subheader (lit "📊 Extracted Tables (Preview)")
                   :: concat
                        (imap (preview_section str_of_exception pandas)
                           (concat
                              (List.map (fun c => concat (List.map snd c))
                                 docs)))
             end)).
Proof.
  intros Hfiles Hdocs Hkey Hbutton Hremote Hok Henv Hloads Htrue.
  assert (answer ≠ []) as Hanswer.
  { intros ->. discriminate Hloads. }
  unfold script, st_text_input_, st_file_uploader_, st_text_area_, st_button_.
  unfold mbind, Script_bind, show, mret, Script_ret. cbn [world calls].
  rewrite Hfiles, Hbutton, (nonempty_true (key_typed op)) by done.
  rewrite nonempty_true by (by destruct docs).
  cbn [andb]. rewrite call_process_uploads. cbn [world].
  rewrite process_readable_uploads. cbn [fst snd world calls].
  set (uploaded := after_uploads (List.map readable_pdf docs) (world s)).
  set (user_prompt := prompt_edited op _) in *.
  destruct (after_uploads_quiet (List.map readable_pdf docs) (world s))
    as (Hscreen & Hposted & Hsame).
  fold uploaded in Hscreen, Hposted, Hsame.
  unfold handle_click.
  unfold mbind at 1, Script_bind at 1. unfold show at 1.
  unfold mbind at 1, Script_bind at 1. cbn [world calls].
  set (sent := with_posted
                 (posted (world s)
                    ++ [gemini_request user_prompt (key_typed op)])
                 uploaded).
  rewrite (call_quiet _ _ (Return (PyStr answer)) sent).
  2:{ rewrite query_gemini_run. cbn [world]. cbn zeta.
      by rewrite Hsame, Hremote, Hok, Henv, Hposted. }
  2:{ reflexivity. }
  rewrite bool_of_text by done. cbn [parse_json_response_of].
  unfold mbind at 1, Script_bind at 1.
  rewrite (call_quiet _ _ (Return final_json) sent);
    [|by apply parse_returns|reflexivity].
  rewrite Htrue. unfold mbind, Script_bind, show. cbn [world calls].
  rewrite table_preview_run. cbn [world calls].
  by rewrite <- !app_assoc.
Qed.

End Handler.

Lemma click_on_text_answer_witness :
  envelope_text empty_object_response = Return (PyStr (lit "{}"))
  ∧ Json.loads (cleaned (lit "{}")) = Return (PyDict [])
  ∧ ∃ w' : World,
      handle_click (fun _ => []) (fun _ => false) (fun _ => [])
        (lit "prompt") (lit "key") (mkSession (answering empty_object_response) [])
      = (Return tt,
         mkSession w'
           [st_spinner (lit "🔍 Extracting with Gemini...");
            shown (st_error (lit "❌ Couldn't convert to JSON."))])
      ∧ posted w' = [gemini_request (lit "prompt") (lit "key")].
Proof.
  split; [reflexivity|]. split; [reflexivity|].
  destruct (click_on_text_answer (fun _ => []) (fun _ => false) (fun _ => [])
              (lit "prompt") (lit "key") (lit "{}")
              (mkSession (answering empty_object_response) [])
              empty_object_response)
    as (returned & w' & added & Hrun & Hposted & Hcase);
    [reflexivity|reflexivity|reflexivity|discriminate|].
  change (Json.loads (cleaned (lit "{}"))) with (@Return value (PyDict []))
    in Hcase.
  destruct Hcase as [-> ->]. exists w'. split; [exact Hrun|exact Hposted].
Defined.

Lemma click_without_answer_witness :
  envelope_text null_text_response = Return PyNone
  ∧ ∃ (w' : World) (reported : list st_call),
      handle_click (fun _ => []) (fun _ => false) (fun _ => [])
        (lit "prompt") (lit "key") (mkSession (answering null_text_response) [])
      = (Return tt,
         mkSession w'
           (st_spinner (lit "🔍 Extracting with Gemini...")
              :: List.map shown reported))
      ∧ posted w' = [gemini_request (lit "prompt") (lit "key")]
      ∧ reported = [].
Proof.
  split; [reflexivity|].
  apply (click_without_answer (fun _ => []) (fun _ => false) (fun _ => [])
           (lit "prompt") (lit "key")
           (mkSession (answering null_text_response) [])
           null_text_response);
    [reflexivity|].
  right. right. exists PyNone. split; reflexivity.
Defined.

Lemma click_on_other_value_witness :
  envelope_text number_response = Return (PyInt 5)
  ∧ handle_click (fun _ => []) (fun _ => false) (fun _ => [])
      (lit "prompt") (lit "key") (mkSession (answering number_response) [])
    = (Raise TypeError,
       mkSession
         (with_posted [gemini_request (lit "prompt") (lit "key")]
            (answering number_response))
         [st_spinner (lit "🔍 Extracting with Gemini...")]).
Proof.
  split; [reflexivity|].
  apply (click_on_other_value (fun _ => []) (fun _ => false) (fun _ => [])
           (lit "prompt") (lit "key")
           (mkSession (answering number_response) [])
           number_response (PyInt 5));
    [reflexivity|reflexivity|reflexivity|reflexivity|discriminate].
Defined.

Lemma click_transport_failure_witness :
  handle_click (fun _ => []) (fun _ => false) (fun _ => [])
    (lit "prompt") (lit "key") (mkSession sample_world [])
  = (Raise ConnectionError,
     mkSession
       (with_posted [gemini_request (lit "prompt") (lit "key")] sample_world)
       [st_spinner (lit "🔍 Extracting with Gemini...")]).
Proof.
  apply (click_transport_failure (fun _ => []) (fun _ => false) (fun _ => [])
           (lit "prompt") (lit "key") (mkSession sample_world [])
           ConnectionError).
  reflexivity.
Defined.

Lemma script_waits_for_inputs_witness :
  script (fun _ => []) (fun _ => false) (fun _ => []) sample_pandas
    (mkOperator [] [readable_pdf sample_contents] (fun prompt => prompt) true)
    (mkSession sample_world [])
  = (Return tt,
     mkSession sample_world
       [st_set_page_config (lit "Financial Data Extractor") (lit "wide");
        st_title (lit "📊 Financial Data Extractor from Equity Research PDFs");
        st_text_input (lit "🔑 Enter Gemini API Key") (lit "password");
        st_file_uploader (lit "📂 Upload one or more Equity Research PDFs")
          (lit "pdf") true]).
Proof.
  apply (script_waits_for_inputs (fun _ => []) (fun _ => false) (fun _ => [])
           sample_pandas
           (mkOperator [] [readable_pdf sample_contents]
              (fun prompt => prompt) true)
           (mkSession sample_world [])).
  right. reflexivity.
Defined.

Lemma script_preview_witness :
  script (fun _ => []) (fun _ => false) (fun _ => []) sample_pandas
    (sample_operator false) (mkSession sample_world [])
  = (Return tt,
     mkSession
       (after_uploads (List.map readable_pdf [sample_contents]) sample_world)
       [st_set_page_config (lit "Financial Data Extractor") (lit "wide");
        st_title (lit "📊 Financial Data Extractor from Equity Research PDFs");
        st_text_input (lit "🔑 Enter Gemini API Key") (lit "password");
        st_file_uploader (lit "📂 Upload one or more Equity Research PDFs")
          (lit "pdf") true;
        st_subheader (lit "✍️ Editable Prompt Preview");
        st_text_area (lit "📝 Modify Prompt if Needed")
          (create_prompt
             (concat
                (List.map (fun c => flattened c ++ nl ++ nl)
                   [sample_contents])))
          400;
        st_button (lit "🔮 Send to Gemini & Extract JSON");
        st_subheader (lit "📊 Extracted Tables (Preview)");
        st_write (lit "📄 Table 1");
        st_dataframe [[Some (lit "CMP"); None; Some (lit "100")]; [Some []]]]).
Proof.
  rewrite (script_preview (fun _ => []) (fun _ => false) (fun _ => [])
             sample_pandas (sample_operator false) (mkSession sample_world [])
             [sample_contents]);
    [reflexivity|reflexivity|discriminate|discriminate|reflexivity].
Defined.

Lemma script_stops_at_unreadable_upload_witness :
  reading empty_file = Raise (PdfError [])
  ∧ script (fun _ => []) (fun _ => false) (fun _ => []) sample_pandas
      (mkOperator (lit "key") [readable_pdf sample_contents; empty_file]
         (fun prompt => prompt) true)
      (mkSession sample_world [])
    = (Raise (PdfError []),
       mkSession
         (after_uploads
            (List.map readable_pdf [sample_contents] ++ [empty_file])
            sample_world)
         [st_set_page_config (lit "Financial Data Extractor") (lit "wide");
          st_title
            (lit "📊 Financial Data Extractor from Equity Research PDFs");
          st_text_input (lit "🔑 Enter Gemini API Key") (lit "password");
          st_file_uploader (lit "📂 Upload one or more Equity Research PDFs")
            (lit "pdf") true]).
Proof.
  split; [reflexivity|].
  apply (script_stops_at_unreadable_upload (fun _ => []) (fun _ => false)
           (fun _ => []) sample_pandas
           (mkOperator (lit "key") [readable_pdf sample_contents; empty_file]
              (fun prompt => prompt) true)
           (mkSession sample_world []) [sample_contents] empty_file []
           (PdfError []));
    [reflexivity|discriminate|reflexivity].
Defined.

Lemma script_full_run_witness :
  envelope_text rating_response = Return (PyStr (qlit "{~rating~: ~Buy~}"))
  ∧ Json.loads (cleaned (qlit "{~rating~: ~Buy~}"))
    = Return (PyDict [(lit "rating", PyStr (lit "Buy"))])
  ∧ script (fun _ => []) (fun _ => false) (fun _ => lit "{...}") sample_pandas
      (sample_operator true) (mkSession (answering rating_response) [])
    = (Return tt,
       mkSession
         (with_posted
            [gemini_request
               (create_prompt
                  (concat
                     (List.map (fun c => flattened c ++ nl ++ nl)
                        [sample_contents])))
               (lit "key")]
            (after_uploads (List.map readable_pdf [sample_contents])
               (answering rating_response)))
         [st_set_page_config (lit "Financial Data Extractor") (lit "wide");
          st_title
            (lit "📊 Financial Data Extractor from Equity Research PDFs");
          st_text_input (lit "🔑 Enter Gemini API Key") (lit "password");
          st_file_uploader (lit "📂 Upload one or more Equity Research PDFs")
            (lit "pdf") true;
          st_subheader (lit "✍️ Editable Prompt Preview");
          st_text_area (lit "📝 Modify Prompt if Needed")
            (create_prompt
               (concat
                  (List.map (fun c => flattened c ++ nl ++ nl)
                     [sample_contents])))
            400;
          st_button (lit "🔮 Send to Gemini & Extract JSON");
          st_spinner (lit "🔍 Extracting with Gemini...");
          st_success (lit "✅ JSON Extracted Successfully!");
          st_json (PyDict [(lit "rating", PyStr (lit "Buy"))]);
          st_download_button (lit "📥 Download JSON Output") (lit "{...}")
            (lit "financial_data.json") (lit "application/json");
          st_subheader (lit "📊 Extracted Tables (Preview)");
          st_write (lit "📄 Table 1");
          st_dataframe
            [[Some (lit "CMP"); None; Some (lit "100")]; [Some []]]]).
Proof.
  split; [reflexivity|]. split; [reflexivity|].
  rewrite (script_full_run (fun _ => []) (fun _ => false)
             (fun _ => lit "{...}") sample_pandas
             (sample_operator true) (mkSession (answering rating_response) [])
             [sample_contents] rating_response (qlit "{~rating~: ~Buy~}")
             (PyDict [(lit "rating", PyStr (lit "Buy"))]));
    reflexivity || discriminate.
Defined.

(** ** From the response to the page *)

Section EnvelopeRoundTrip.

Import Json JsonEncode.

(** An object with one member. *)
Lemma scan_once_member (fuel depth : nat) (key s rest : str) (v : value) :
  plain_text key = true ->
  skip_ws s = s ->
  scan_once fuel depth s = Return (v, 125 :: rest) ->
  scan_once (S (S fuel)) (S depth)
    (123 :: dquote :: concat (List.map escape_char key)
         ++ dquote :: 58 :: 32 :: s)
  = Return (PyDict [(key, v)], rest).
Proof.
  intros Hkey Hskip Hscan. rewrite scan_once_eq.
  change (123 =? 34) with false. change (123 =? 123) with true. cbn iota.
  rewrite (skip_ws_keep dquote) by reflexivity.
  change (dquote =? 125) with false. cbn iota.
  unfold dquote at 1. rewrite parse_members_eq.
  change (34 =? 34) with true. cbn iota.
  rewrite scanstring_escape by done.
  rewrite (skip_ws_keep 58) by reflexivity.
  change (58 =? 58) with true. cbn iota.
  change (skip_ws (32 :: s)) with (skip_ws s).
  rewrite Hskip, Hscan.
  rewrite (skip_ws_keep 125) by reflexivity.
  change (125 =? 125) with true. cbn iota. reflexivity.
Qed.

(** A list with one element, an object. *)
Lemma scan_once_singleton (fuel depth : nat) (s rest : str) (v : value) :
  scan_once fuel depth (123 :: s) = Return (v, 93 :: rest) ->
  scan_once (S (S fuel)) (S depth) (91 :: 123 :: s)
  = Return (PyList [v], rest).
Proof.
  intros Hscan. rewrite scan_once_eq.
  change (91 =? 34) with false. change (91 =? 123) with false.
  change (91 =? 91) with true. cbn iota.
  rewrite (skip_ws_keep 123) by reflexivity.
  change (123 =? 93) with false. cbn iota.
  rewrite parse_elements_eq, Hscan.
  rewrite (skip_ws_keep 93) by reflexivity.
  change (93 =? 93) with true. cbn iota. reflexivity.
Qed.

Lemma loads_envelope_body (answer : str) :
  plain_text answer = true ->
  loads (envelope_body answer)
  = Return
      (PyDict
         [(lit "candidates",
           PyList
             [PyDict
                [(lit "content",
                  PyDict
                    [(lit "parts",
                      PyList [PyDict [(lit "text", PyStr answer)]])])]])]).
Proof.
  intros Hanswer.
  rewrite (loads_with_fuel _ (13 + 2 * length (envelope_body answer))) by lia.
  set (fuel := (2 * length (envelope_body answer))%nat). cbn [Nat.add].
  unfold recursion_limit.
  assert (envelope_body answer
          = 123 :: dquote :: concat (List.map escape_char (lit "candidates"))
              ++ dquote :: 58 :: 32 :: 91 :: 123
              :: dquote :: concat (List.map escape_char (lit "content"))
              ++ dquote :: 58 :: 32 :: 123
              :: dquote :: concat (List.map escape_char (lit "parts"))
              ++ dquote :: 58 :: 32 :: 91 :: 123
              :: dquote :: concat (List.map escape_char (lit "text"))
              ++ dquote :: 58 :: 32
              :: dquote :: concat (List.map escape_char answer)
              ++ dquote :: 125 :: 93 :: 125 :: 125 :: 93 :: [125]) as ->.
  { unfold envelope_body, encode_string. rewrite <- !app_assoc. reflexivity. }
  rewrite (skip_ws_keep 123) by reflexivity.
  rewrite (scan_once_member _ _ (lit "candidates") _ []
             (PyList
                [PyDict
                   [(lit "content",
                     PyDict
                       [(lit "parts",
                         PyList [PyDict [(lit "text", PyStr answer)]])])]]));
    [reflexivity|reflexivity|reflexivity|].
  apply scan_once_singleton.
  apply (scan_once_member _ _ (lit "content")); [reflexivity|reflexivity|].
  apply (scan_once_member _ _ (lit "parts")); [reflexivity|reflexivity|].
  apply scan_once_singleton.
  apply (scan_once_member _ _ (lit "text")); [reflexivity|reflexivity|].
  by apply scan_once_string.
Qed.

End EnvelopeRoundTrip.

Section Pipeline.

Import JsonEncode.

Variable str_of_exception : exception -> str.
Variable float_is_zero : str -> bool.
Variable dumps_indent : value -> str.

Implicit Types (s : Session) (w : World) (response : Response).

Lemma envelope_text_body (status : nat) (answer : str) :
  plain_text answer = true ->
  envelope_text (mkResponse status (envelope_body answer))
  = Return (PyStr answer).
Proof.
  intros Hanswer. unfold envelope_text, response_json. cbn [text].
  by rewrite loads_envelope_body.
Qed.

Lemma ascii_plain (s : str) : is_ascii s = true -> plain_text s = true.
Proof.
  unfold is_ascii, plain_text. intros H. apply andb_true_iff. split.
  - apply forallb_forall. intros c Hc.
    rewrite forallb_forall in H. specialize (H c Hc).
    unfold is_code_point. apply N.ltb_lt in H. apply N.ltb_lt. lia.
  - induction s as [|a s IH]; [reflexivity|].
    cbn [forallb] in H. apply andb_true_iff in H as [Ha Hs].
    cbn [surrogate_pair_free]. rewrite (IH Hs).
    destruct s as [|b s]; [reflexivity|].
    assert (Json.is_high_surrogate a = false) as ->; [|reflexivity].
    unfold Json.is_high_surrogate. apply N.ltb_lt in Ha.
    apply andb_false_iff. left. apply N.leb_gt. lia.
Qed.

Lemma is_ascii_app (a b : str) : is_ascii (a ++ b) = is_ascii a && is_ascii b.
Proof. apply forallb_app. Qed.

Lemma hex_digit_ascii (n : N) : n < 16 -> (hex_digit n <? 128) = true.
Proof.
  intros Hn. unfold hex_digit. apply N.ltb_lt.
  destruct (n <? 10) eqn:E; [apply N.ltb_lt in E|apply N.ltb_ge in E]; lia.
Qed.

Lemma u_escape_ascii (c : N) : c < 65536 -> is_ascii (u_escape c) = true.
Proof.
  intros Hc. unfold u_escape, is_ascii. cbn [forallb app].
  rewrite !hex_digit_ascii; [reflexivity|try (apply N.mod_lt; lia)..].
  apply N.Div0.div_lt_upper_bound. lia.
Qed.

Lemma escape_char_ascii (c : N) : is_ascii (escape_char c) = true.
Proof.
  unfold escape_char.
  destruct (c =? 34); [done|]. destruct (c =? 92); [done|].
  destruct ((32 <=? c) && (c <=? 126)) eqn:E.
  { apply andb_true_iff in E as [_ E]. apply N.leb_le in E.
    unfold is_ascii. cbn [forallb]. rewrite andb_true_r. apply N.ltb_lt. lia. }
  destruct (c =? 8); [done|]. destruct (c =? 12); [done|].
  destruct (c =? 10); [done|]. destruct (c =? 13); [done|].
  destruct (c =? 9); [done|].
  destruct (c <? 65536) eqn:E1.
  { apply u_escape_ascii. by apply N.ltb_lt. }
  rewrite is_ascii_app, !u_escape_ascii; [reflexivity|..].
  - pose proof (N.mod_lt (c - 65536) 1024 ltac:(lia)) as H.
    set (m := (c - 65536) mod 1024) in *. lia.
  - pose proof (N.mod_lt ((c - 65536) / 1024) 1024 ltac:(lia)) as H.
    set (m := ((c - 65536) / 1024) mod 1024) in *. lia.
Qed.

Lemma encode_string_ascii (s : str) : is_ascii (encode_string s) = true.
Proof.
  unfold encode_string. rewrite !is_ascii_app.
  change (is_ascii [dquote]) with true. rewrite andb_true_r. cbn [andb].
  induction s as [|c s IH]; [reflexivity|].
  cbn [List.map concat]. by rewrite is_ascii_app, escape_char_ascii, IH.
Qed.

Lemma dumps_ascii (d : list (str * str)) : is_ascii (dumps d) = true.
Proof.
  unfold dumps. rewrite !is_ascii_app.
  change (is_ascii (lit "{")) with true. change (is_ascii (lit "}")) with true.
  rewrite andb_true_r. cbn [andb].
  induction d as [|[k v] d IH]; [reflexivity|].
  destruct d as [|p d].
  - cbn [List.map join]. by rewrite !is_ascii_app, !encode_string_ascii.
  - change (join (lit ", ")
              (List.map (fun '(k, v) => encode_string k ++ lit ": " ++ encode_string v)
                 ((k, v) :: p :: d)))
      with ((encode_string k ++ lit ": " ++ encode_string v)
              ++ lit ", "
              ++ join (lit ", ")
                   (List.map (fun '(k, v) => encode_string k ++ lit ": " ++ encode_string v)
                      (p :: d))).
    rewrite !is_ascii_app, !encode_string_ascii, IH. reflexivity.
Qed.

(** X18.  On a success whose body is the envelope around an answer, with
    the answer written as a JSON string, [query_gemini] returns the answer
    character for character and reports nothing: the escapes of the
    string, also those of quotation marks, line feeds, fences and
    characters outside ASCII, are undone by [response.json()]. *)
Theorem query_gemini_returns_text (prompt api_key answer : str) w response :
  remote w (gemini_request prompt api_key) = Return response ->
  ok response = true ->
  text response = envelope_body answer ->
  plain_text answer = true ->
  query_gemini str_of_exception prompt api_key w
  = (Return (PyStr answer),
     with_posted (posted w ++ [gemini_request prompt api_key]) w).
Proof.
  intros Hremote Hok Htext Hanswer.
  rewrite query_gemini_run. cbn zeta. rewrite Hremote, Hok.
  destruct response as [status body]. cbn [text] in Htext. subst body.
  by rewrite envelope_text_body.
Qed.

Lemma startswith_fence_snoc (s : str) (c : N) :
  c ≠ backtick -> startswith fence (s ++ [c]) = startswith fence s.
Proof.
  intros Hc. apply N.eqb_neq in Hc. rewrite N.eqb_sym in Hc.
  unfold backtick in Hc. change fence with [96; 96; 96].
  destruct s as [|x [|y [|z s]]]; cbn [app startswith];
    rewrite ?Hc, ?andb_false_r; reflexivity.
Qed.

Lemma contains_fence_snoc (s : str) (c : N) :
  c ≠ backtick -> contains fence (s ++ [c]) = contains fence s.
Proof.
  intros Hc. induction s as [|x s IH].
  - pose proof (startswith_fence_snoc [] c Hc) as H. cbn [app] in H.
    cbn [app contains]. by rewrite H.
  - change ((x :: s) ++ [c]) with (x :: (s ++ [c])). cbn [contains].
    rewrite IH. f_equal. by apply (startswith_fence_snoc (x :: s)).
Qed.

(** A serialized mapping between a fence with its tag and a closing
    fence, each on a line of its own, is cleaned to the serialization. *)
Lemma cleaned_fenced_dumps (d : list (str * str)) :
  contains fence (dumps d) = false ->
  cleaned (fence_json ++ nl ++ dumps d ++ nl ++ fence) = dumps d.
Proof.
  intros H. unfold cleaned. rewrite sub_fences_json.
  replace (nl ++ dumps d ++ nl ++ fence) with ((nl ++ dumps d ++ nl) ++ fence)
    by (by rewrite <- !app_assoc).
  rewrite sub_fences_closing.
  2:{ unfold nl. cbn [app]. rewrite contains_fence_cons by done.
      by rewrite contains_fence_snoc. }
  unfold dumps.
  change (lit "{" ++ ?m ++ lit "}") with (123 :: m ++ [125]).
  set (m := join _ _).
  unfold strip, rstrip, nl. cbn [app lstrip].
  change (isspace 10) with true. change (isspace 123) with false. cbn iota.
  change (123 :: (m ++ [125]) ++ [10]) with ((123 :: m ++ [125]) ++ [10]).
  rewrite rev_app_distr. cbn [rev app lstrip].
  change (isspace 10) with true. cbn iota.
  change (123 :: m ++ [125]) with ((123 :: m) ++ [125]).
  rewrite rev_app_distr. cbn [rev app lstrip].
  change (isspace 125) with false. cbn iota.
  change (125 :: rev m ++ [123]) with ([125] ++ rev (123 :: m)).
  rewrite rev_app_distr. by rewrite rev_involutive.
Qed.

(** The handler on an answer that decodes to a value that counts as
    true. *)
Lemma handle_click_success (user_prompt API_KEY answer : str) s response
    (final_json : value) :
  remote (world s) (gemini_request user_prompt API_KEY) = Return response ->
  ok response = true ->
  envelope_text response = Return (PyStr answer) ->
  Json.loads (cleaned answer) = Return final_json ->
  bool_of float_is_zero final_json = true ->
  handle_click str_of_exception float_is_zero dumps_indent
    user_prompt API_KEY s
  = (Return tt,
     mkSession
       (with_posted (posted (world s) ++ [gemini_request user_prompt API_KEY])
          (world s))
       (calls s
          ++ [st_spinner (lit "🔍 Extracting with Gemini...");
              st_success (lit "✅ JSON Extracted Successfully!");
              st_json final_json;
              st_download_button (lit "📥 Download JSON Output")
                (dumps_indent final_json) (lit "financial_data.json")
                (lit "application/json")])).
Proof.
  intros Hremote Hok Henv Hloads Htrue.
  assert (answer ≠ []) as Hanswer.
  { intros ->. discriminate Hloads. }
  unfold handle_click.
  unfold mbind at 1, Script_bind at 1. unfold show at 1.
  unfold mbind at 1, Script_bind at 1.
  set (sent := with_posted
                 (posted (world s) ++ [gemini_request user_prompt API_KEY])
                 (world s)).
  rewrite (call_quiet _ _ (Return (PyStr answer)) sent); [| |reflexivity].
  2:{ rewrite query_gemini_run. cbn [world]. cbn zeta.
      by rewrite Hremote, Hok, Henv. }
  rewrite (bool_of_text float_is_zero) by done. cbn [parse_json_response_of].
  unfold mbind at 1, Script_bind at 1.
  rewrite (call_quiet _ _ (Return final_json) sent);
    [|by apply parse_returns|reflexivity].
  rewrite Htrue. unfold mbind, Script_bind, show. cbn [world calls].
  by rewrite <- !app_assoc.
Qed.

(** X19.  From the response to the page.  The model answers with a
    mapping of strings to strings that is not empty, serialized by
    [json.dumps] and wrapped in a fence with the tag [json]; keys are
    distinct and no key or value holds a fence.  Then the handler shows the
    success message, shows the mapping itself, every field with its value,
    and offers its serialization for download. *)
Theorem click_shows_fenced_mapping (d : list (str * str))
    (user_prompt API_KEY : str) s response :
  d ≠ [] ->
  NoDup (List.map fst d) ->
  Forall (fun kv => plain_text kv.1 = true ∧ plain_text kv.2 = true) d ->
  Forall (fun kv => contains fence kv.1 = false ∧ contains fence kv.2 = false)
    d ->
  remote (world s) (gemini_request user_prompt API_KEY) = Return response ->
  ok response = true ->
  text response
    = envelope_body (fence_json ++ nl ++ dumps d ++ nl ++ fence) ->
  handle_click str_of_exception float_is_zero dumps_indent
    user_prompt API_KEY s
  = (Return tt,
     mkSession
       (with_posted (posted (world s) ++ [gemini_request user_prompt API_KEY])
          (world s))
       (calls s
          ++ [st_spinner (lit "🔍 Extracting with Gemini...");
              st_success (lit "✅ JSON Extracted Successfully!");
              st_json (dict_value d);
              st_download_button (lit "📥 Download JSON Output")
                (dumps_indent (dict_value d)) (lit "financial_data.json")
                (lit "application/json")])).
Proof.
  intros Hd Hnd Hplain Hfence Hremote Hok Htext.
  apply (handle_click_success _ _
           (fence_json ++ nl ++ dumps d ++ nl ++ fence) _ response);
    [done|done| | |].
  - destruct response as [status body]. cbn [text] in Htext. subst body.
    apply envelope_text_body, ascii_plain.
    rewrite !is_ascii_app, dumps_ascii. reflexivity.
  - rewrite cleaned_fenced_dumps; [by apply loads_dumps|].
    rewrite contains_fence_dumps. apply not_true_iff_false.
    intros H. apply existsb_exists in H as (kv & Hin & Hkv).
    rewrite List.Forall_forall in Hfence.
    destruct (Hfence kv Hin) as [Hk Hv]. rewrite Hk, Hv in Hkv. discriminate.
  - unfold dict_value. cbn [bool_of]. by destruct d as [|[k v] d].
Qed.

End Pipeline.

Lemma query_gemini_returns_text_witness :
  JsonEncode.plain_text (qlit "Rating: ~Buy~") = true
  ∧ query_gemini (fun _ => []) (lit "prompt") (lit "key")
      (answering (mkResponse 200 (envelope_body (qlit "Rating: ~Buy~"))))
    = (Return (PyStr (qlit "Rating: ~Buy~")),
       with_posted
         (posted
            (answering (mkResponse 200 (envelope_body (qlit "Rating: ~Buy~"))))
            ++ [gemini_request (lit "prompt") (lit "key")])
         (answering (mkResponse 200 (envelope_body (qlit "Rating: ~Buy~"))))).
Proof.
  split; [reflexivity|].
  apply (query_gemini_returns_text (fun _ => []) (lit "prompt") (lit "key")
           (qlit "Rating: ~Buy~")
           (answering (mkResponse 200 (envelope_body (qlit "Rating: ~Buy~"))))
           (mkResponse 200 (envelope_body (qlit "Rating: ~Buy~"))));
    reflexivity.
Defined.

Lemma click_shows_fenced_mapping_witness :
  handle_click (fun _ => []) (fun _ => false) (fun _ => lit "{...}")
    (lit "prompt") (lit "key")
    (mkSession
       (answering
          (mkResponse 200
             (envelope_body
                (fence_json ++ nl ++ JsonEncode.dumps plain_mapping
                   ++ nl ++ fence))))
       [])
  = (Return tt,
     mkSession
       (with_posted
          (posted
             (answering
                (mkResponse 200
                   (envelope_body
                      (fence_json ++ nl ++ JsonEncode.dumps plain_mapping
                         ++ nl ++ fence))))
             ++ [gemini_request (lit "prompt") (lit "key")])
          (answering
             (mkResponse 200
                (envelope_body
                   (fence_json ++ nl ++ JsonEncode.dumps plain_mapping
                      ++ nl ++ fence)))))
       ([]
          ++ [st_spinner (lit "🔍 Extracting with Gemini...");
              st_success (lit "✅ JSON Extracted Successfully!");
              st_json (JsonEncode.dict_value plain_mapping);
              st_download_button (lit "📥 Download JSON Output")
                (lit "{...}") (lit "financial_data.json")
                (lit "application/json")])).
Proof.
  apply (click_shows_fenced_mapping (fun _ => []) (fun _ => false)
           (fun _ => lit "{...}") plain_mapping (lit "prompt") (lit "key")
           (mkSession
              (answering
                 (mkResponse 200
                    (envelope_body
                       (fence_json ++ nl ++ JsonEncode.dumps plain_mapping
                          ++ nl ++ fence))))
              [])
           (mkResponse 200
              (envelope_body
                 (fence_json ++ nl ++ JsonEncode.dumps plain_mapping
                    ++ nl ++ fence)))).
  - discriminate.
  - apply (bool_decide_unpack _). by vm_compute.
  - repeat constructor.
  - repeat constructor.
  - reflexivity.
  - reflexivity.
  - reflexivity.
Defined.
